(** * Scheduling and aggregation engine of the agentic evaluation backend

    A shallow embedding of the orchestrator (masterOrchestrator.js), the
    enqueue facade (enqueue.js), the broker wrapper (redisClient.js), the
    store wrapper (dbClient.js), the validation done by the dimension
    worker (dimensionWorker.js) and the constants of config.js.

    Conventions of the embedding.
    - JavaScript numbers that carry scores and weights are exact rationals
      ([Q]): the rounding of double arithmetic is not modelled for them, so
      the weighted sum and the quotient of the aggregation are the exact
      ones, which the code's values approximate. Counters, retry counts
      and millisecond clocks are integers ([Z]); where integers are
      divided ([estimateCompletionTime]) the double quotient is modelled
      ([float64]).
    - A string field that may be missing is a [string] whose empty value
      stands for [undefined], [null] and [''] alike: the code only ever
      tests such fields for truthiness.
    - Every [async] function is a computation in the monad [M]: it threads
      the [World] (broker, store, orchestrator object, clock) and may throw.
      Each call that reaches the broker or the store consumes one entry of
      the world's fault plan; an entry [true] makes that call throw. *)

From Stdlib Require Import ZArith QArith String List Lia.
From stdpp Require Import base option list gmap strings pretty fin_maps.

Local Open Scope Z_scope.
Local Open Scope string_scope.

(** ** JavaScript values that the code tests for truthiness *)

(** The [score] field of a payload after [JSON.parse]. *)
Inductive jsnum :=
| JNum (q : Q)     (* a finite number *)
| JNaN             (* NaN, falsy *)
| JNull.           (* null, undefined or missing *)

(** [x || 0.0] on a score: a falsy value (0, NaN, null) gives 0. *)
Definition num_or_zero (x : jsnum) : Q :=
  match x with
  | JNum q => if Qeq_bool q 0 then 0%Q else q
  | JNaN | JNull => 0%Q
  end.

(** Truthiness of a string: only the empty (or missing) string is falsy. *)
Definition truthy (s : string) : bool := negb (String.eqb s "").

(** [error || null]: an empty error message is dropped. *)
Definition str_or_null (e : option string) : option string :=
  match e with
  | Some s => if truthy s then Some s else None
  | None => None
  end.

(** A flat JSON object (the [details] of a result), in insertion order. *)
Definition JsObject := list (string * string).

Fixpoint obj_get (o : JsObject) (k : string) : string :=
  match o with
  | [] => ""
  | (k', v) :: o' => if String.eqb k' k then v else obj_get o' k
  end.

(** ** config.js *)

Module config.

Definition MAIN_QUEUE_NAME : string := "main_evaluation_tasks".
Definition DIMENSION_QUEUE_PREFIX : string := "dimension_queue".
Definition RESULTS_QUEUE_NAME : string := "dimension_results".
Definition TASK_QUEUE_NAME : string := "evaluation_tasks".

(** [parseInt(process.env.MAX_RETRIES) || 3]: an unset, unparsable or
    zero setting falls back to 3. *)
Definition MAX_RETRIES_of (env : option Z) : Z :=
  match env with
  | Some n => if Z.eqb n 0 then 3 else n
  | None => 3
  end.

Definition DIMENSIONS : list string :=
  ["instruction"; "hallucination"; "assumption"; "coherence"; "accuracy"].

Definition DEFAULT_WEIGHTS (dimension : string) : option Q :=
  if String.eqb dimension "instruction" then Some 0.2%Q
  else if String.eqb dimension "hallucination" then Some 0.25%Q
  else if String.eqb dimension "assumption" then Some 0.2%Q
  else if String.eqb dimension "coherence" then Some 0.15%Q
  else if String.eqb dimension "accuracy" then Some 0.2%Q
  else None.

End config.

(** ** Payloads and documents *)

Inductive Status :=
| pending | queued | processing | completed | failed | cancelled.

#[global] Instance Status_eq_dec : EqDecision Status.
Proof. solve_decision. Defined.

(** A task on the main queue or on the legacy task queue. *)
Record MainTask := mkMainTask {
  mt_task_id : string;
  mt_response_id : string;
  mt_batch_id : string;
  mt_agent_id : string;
  mt_prompt : string;
  mt_response_text : string;
  mt_context : string;
  mt_reference : string;
  mt_metadata : JsObject;
  mt_dimensions : list string;
  mt_retry_reason : string;
  mt_created_at : Z;
  mt_retry_count : option Z;      (* [None]: the field is absent *)
  mt_last_retry_at : option Z
}.

Record DimensionTask := mkDimensionTask {
  dt_task_id : string;
  dt_dimension : string;
  dt_response_id : string;
  dt_batch_id : string;
  dt_agent_id : string;
  dt_prompt : string;
  dt_response_text : string;
  dt_context : string;
  dt_reference : string;
  dt_metadata : JsObject
}.

(** A message on the results queue. *)
Record DimensionResult := mkDimensionResult {
  dr_task_id : string;
  dr_dimension : string;
  dr_response_id : string;
  dr_batch_id : string;
  dr_agent_id : string;
  dr_score : jsnum;
  dr_details : option JsObject;
  dr_error : option string;
  dr_processing_time_ms : Z;
  dr_worker_id : string
}.

(** One field of the hash [task:{id}:results]. *)
Record PartialResult := mkPartialResult {
  pr_score : jsnum;
  pr_details : JsObject;
  pr_error : option string;
  pr_completed_at : Z
}.

(** A Redis hash: fields in insertion order, no duplicate field. *)
Definition Hash := list (string * PartialResult).

Fixpoint hGet (h : Hash) (field : string) : option PartialResult :=
  match h with
  | [] => None
  | (f, v) :: h' => if String.eqb f field then Some v else hGet h' field
  end.

Fixpoint hSet (h : Hash) (field : string) (v : PartialResult) : Hash :=
  match h with
  | [] => [(field, v)]
  | (f, v') :: h' =>
      if String.eqb f field then (f, v) :: h' else (f, v') :: hSet h' field v
  end.

Definition hLen (h : Hash) : Z := Z.of_nat (length h).

(** A document of the [responses] collection. *)
Record Response := mkResponse {
  rs_batch_id : string;
  rs_agent_id : string;
  rs_prompt : string;
  rs_response_text : string;
  rs_context : string;
  rs_reference : string;
  rs_metadata : JsObject;
  rs_status : Status;
  rs_updated_at : Z
}.

(** A document of the [evaluations] collection. *)
Record Evaluation := mkEvaluation {
  ev_response_id : string;
  ev_batch_id : string;
  ev_agent_id : string;
  ev_scores : gmap string Q;
  ev_final_score : Q;
  ev_processing_errors : list string;
  ev_processing_time_ms : Z;
  ev_processed_at : Z;
  ev_processed_by : string;
  ev_task_id : string
}.

(** The progress object built by the store and kept in a batch document:
    a JavaScript object from status names (and [total]) to counts. *)
Inductive ProgressKey := PStatus (s : Status) | PTotal.

#[global] Instance ProgressKey_eq_dec : EqDecision ProgressKey.
Proof. solve_decision. Defined.

Definition Progress := list (ProgressKey * Z).

Definition pGet (p : Progress) (k : ProgressKey) : option Z :=
  snd <$> List.find (fun e => bool_decide (fst e = k)) p.

Fixpoint pSet (p : Progress) (k : ProgressKey) (v : Z) : Progress :=
  match p with
  | [] => [(k, v)]
  | (k', v') :: p' =>
      if bool_decide (k' = k) then (k', v) :: p' else (k', v') :: pSet p' k v
  end.

Inductive BatchStatus :=
| BProcessing | BPaused | BCompleted | BFailed | BCancelled.

(** A document of the [batches] collection. *)
Record Batch := mkBatch {
  bt_status : BatchStatus;
  bt_progress : option Progress;
  bt_updated_at : Z
}.

(** An entry of the orchestrator's [activeTasks] map. *)
Record TaskInfo := mkTaskInfo {
  ti_mainTask : MainTask;
  ti_startTime : Z;
  ti_completedDimensions : list string;
  ti_totalDimensions : Z
}.

(** ** The world the asynchronous functions act on *)

(** The broker: lists keyed by queue name (one family per payload type),
    the partial-result hashes keyed by task id, the worker status keys.
    Expiry of keys is not modelled. *)
Record Broker := mkBroker {
  task_lists : gmap string (list MainTask);
  dimension_lists : gmap string (list DimensionTask);
  result_lists : gmap string (list DimensionResult);
  partial_results : gmap string Hash;
  worker_statuses : gmap string string
}.

(** The store; [evaluations] carries the unique index on [response_id]. *)
Record Store := mkStore {
  responses : gmap string Response;
  evaluations : list Evaluation;
  batches : gmap string Batch
}.

(** The fields of the [MasterOrchestrator] object. *)
Record Orchestrator := mkOrchestrator {
  isRunning : bool;
  workerId : string;
  maxConcurrentTasks : Z;
  runningTasks : Z;
  activeTasks : gmap string TaskInfo;
  taskTimeout : Z
}.

Record World := mkWorld {
  broker : Broker;
  store : Store;
  this : Orchestrator;
  MAX_RETRIES : Z;          (* config.MAX_RETRIES, fixed at start-up *)
  clock : Z;                (* Date.now() *)
  uuids : nat;              (* number of identifiers handed out by uuidv4 *)
  faults : list bool        (* fault plan of the coming broker/store calls *)
}.

Definition with_broker (f : Broker -> Broker) (w : World) : World :=
  mkWorld (f (broker w)) (store w) (this w) (MAX_RETRIES w) (clock w) (uuids w) (faults w).
Definition with_store (f : Store -> Store) (w : World) : World :=
  mkWorld (broker w) (f (store w)) (this w) (MAX_RETRIES w) (clock w) (uuids w) (faults w).
Definition with_this (f : Orchestrator -> Orchestrator) (w : World) : World :=
  mkWorld (broker w) (store w) (f (this w)) (MAX_RETRIES w) (clock w) (uuids w) (faults w).
Definition with_clock (t : Z) (w : World) : World :=
  mkWorld (broker w) (store w) (this w) (MAX_RETRIES w) t (uuids w) (faults w).
Definition with_uuids (n : nat) (w : World) : World :=
  mkWorld (broker w) (store w) (this w) (MAX_RETRIES w) (clock w) n (faults w).
Definition with_faults (fs : list bool) (w : World) : World :=
  mkWorld (broker w) (store w) (this w) (MAX_RETRIES w) (clock w) (uuids w) fs.

Definition set_task_lists v (b : Broker) : Broker :=
  mkBroker v (dimension_lists b) (result_lists b) (partial_results b) (worker_statuses b).
Definition set_dimension_lists v (b : Broker) : Broker :=
  mkBroker (task_lists b) v (result_lists b) (partial_results b) (worker_statuses b).
Definition set_result_lists v (b : Broker) : Broker :=
  mkBroker (task_lists b) (dimension_lists b) v (partial_results b) (worker_statuses b).
Definition set_partial_results v (b : Broker) : Broker :=
  mkBroker (task_lists b) (dimension_lists b) (result_lists b) v (worker_statuses b).
Definition set_worker_statuses v (b : Broker) : Broker :=
  mkBroker (task_lists b) (dimension_lists b) (result_lists b) (partial_results b) v.

Definition set_responses v (s : Store) : Store :=
  mkStore v (evaluations s) (batches s).
Definition set_evaluations v (s : Store) : Store :=
  mkStore (responses s) v (batches s).
Definition set_batches v (s : Store) : Store :=
  mkStore (responses s) (evaluations s) v.

Definition set_isRunning v (o : Orchestrator) : Orchestrator :=
  mkOrchestrator v (workerId o) (maxConcurrentTasks o) (runningTasks o) (activeTasks o) (taskTimeout o).
Definition set_runningTasks v (o : Orchestrator) : Orchestrator :=
  mkOrchestrator (isRunning o) (workerId o) (maxConcurrentTasks o) v (activeTasks o) (taskTimeout o).
Definition set_activeTasks v (o : Orchestrator) : Orchestrator :=
  mkOrchestrator (isRunning o) (workerId o) (maxConcurrentTasks o) (runningTasks o) v (taskTimeout o).

(** ** The monad of asynchronous functions: state and exceptions *)

Inductive Err :=
| IoError                 (* the broker or the store is unreachable *)
| DuplicateKey            (* a unique index rejects an insert *)
| Error (msg : string).   (* [throw new Error(msg)] *)

Inductive Outcome (A : Type) :=
| Ok (a : A)
| Throw (e : Err).
Arguments Ok {A} a.
Arguments Throw {A} e.

Definition M (A : Type) : Type := World -> Outcome A * World.

Definition ret {A} (a : A) : M A := fun w => (Ok a, w).
Definition throw {A} (e : Err) : M A := fun w => (Throw e, w).
Definition bind {A B} (m : M A) (k : A -> M B) : M B :=
  fun w => match m w with
           | (Ok a, w') => k a w'
           | (Throw e, w') => (Throw e, w')
           end.

Notation "'await' x <- m ; k" := (bind m (fun x => k))
  (at level 10, x name, m at level 100, k at level 200).

(** [try { m } catch (error) { h error }] *)
Definition try_catch {A} (m : M A) (h : Err -> M A) : M A :=
  fun w => match m w with
           | (Ok a, w') => (Ok a, w')
           | (Throw e, w') => h e w'
           end.

(** [try { m } finally { fin }]: [fin] runs on both exits. *)
Definition try_finally {A} (m : M A) (fin : M unit) : M A :=
  fun w => match m w with
           | (r, w') => match fin w' with
                        | (Ok _, w'') => (r, w'')
                        | (Throw e, w'') => (Throw e, w'')
                        end
           end.

Definition get {A} (f : World -> A) : M A := fun w => (Ok (f w), w).
Definition modify (f : World -> World) : M unit := fun w => (Ok tt, f w).

(** One call to the broker or the store: it throws when the fault plan
    says so, and otherwise performs [op]. *)
Definition io {A} (op : M A) : M A :=
  fun w => match faults w with
           | true :: fs => (Throw IoError, with_faults fs w)
           | false :: fs => op (with_faults fs w)
           | [] => op w
           end.

(** [for (const x of xs) { body x }] *)
Fixpoint for_each {A} (xs : list A) (body : A -> M unit) : M unit :=
  match xs with
  | [] => ret tt
  | x :: xs' => await _ <- body x; for_each xs' body
  end.

(** [Date.now()] *)
Definition Date_now : M Z := get clock.

(** [uuidv4()]: a fresh identifier at every call. *)
Definition uuid_of (n : nat) : string := "uuid-" ++ pretty (N.of_nat n).
Definition uuidv4 : M string :=
  fun w => (Ok (uuid_of (uuids w)), with_uuids (S (uuids w)) w).

(** ** redisClient.js *)

(** What [requeueMainTask] and [requeueTask] return: the list length that
    [rPush] reports, or [false]. *)
Inductive PushResult :=
| Pushed (len : Z)
| NotPushed.

Definition push_truthy (r : PushResult) : bool :=
  match r with
  | Pushed len => negb (Z.eqb len 0)
  | NotPushed => false
  end.

Module redisClient.

Definition list_of {A} (m : gmap string (list A)) (queueName : string) : list A :=
  default [] (m !! queueName).

(** [pushToQueue] on a queue of main tasks: [rPush] appends at the tail
    and returns the new length. *)
Definition rPush (queueName : string) (data : MainTask) (w : World) : World :=
  with_broker (set_task_lists
    (<[queueName := (list_of (task_lists (broker w)) queueName ++ [data])%list]>
       (task_lists (broker w)))) w.

Definition lLen (queueName : string) (w : World) : Z :=
  Z.of_nat (length (list_of (task_lists (broker w)) queueName)).

Definition pushToQueue (queueName : string) (data : MainTask) : M Z :=
  io (fun w => (Ok (lLen queueName (rPush queueName data w)), rPush queueName data w)).

Definition pushToQueue_dimension (queueName : string) (data : DimensionTask) : M Z :=
  io (fun w =>
    let l := (list_of (dimension_lists (broker w)) queueName ++ [data])%list in
    (Ok (Z.of_nat (length l)),
     with_broker (set_dimension_lists (<[queueName := l]> (dimension_lists (broker w)))) w)).

Definition pushToQueue_result (queueName : string) (data : DimensionResult) : M Z :=
  io (fun w =>
    let l := (list_of (result_lists (broker w)) queueName ++ [data])%list in
    (Ok (Z.of_nat (length l)),
     with_broker (set_result_lists (<[queueName := l]> (result_lists (broker w)))) w)).

(** [connect()]: it returns the client, or throws when the broker cannot
    be reached. Where a function awaits it right before its one command
    and catches neither, the two fail alike and one entry of the fault
    plan stands for both; [popFromQueue] awaits it before its [try], so
    there it is a call of its own. *)
Definition connect : M unit := io (ret tt).

(** [popFromQueue]: [connect()] is awaited first, outside the [try], so
    its failure is thrown to the caller. [lPop] takes the head. The
    polling variant (positive timeout) repeats [lPop] while no producer
    can run, so it finds what the first [lPop] finds. An error of the pop
    is caught and gives [null]; an invalid queue name gives [null]. *)
Definition popFromQueue (queueName : string) (timeout : Z) : M (option MainTask) :=
  await _ <- connect;
  if negb (truthy queueName) then ret None
  else
    try_catch
      (io (fun w =>
         match list_of (task_lists (broker w)) queueName with
         | [] => (Ok None, w)
         | x :: l =>
             (Ok (Some x),
              with_broker (set_task_lists (<[queueName := l]> (task_lists (broker w)))) w)
         end))
      (fun _ => ret None).

Definition popFromQueue_result (queueName : string) (timeout : Z)
  : M (option DimensionResult) :=
  await _ <- connect;
  if negb (truthy queueName) then ret None
  else
    try_catch
      (io (fun w =>
         match list_of (result_lists (broker w)) queueName with
         | [] => (Ok None, w)
         | x :: l =>
             (Ok (Some x),
              with_broker (set_result_lists (<[queueName := l]> (result_lists (broker w)))) w)
         end))
      (fun _ => ret None).

Definition popFromQueue_dimension (queueName : string) (timeout : Z)
  : M (option DimensionTask) :=
  await _ <- connect;
  if negb (truthy queueName) then ret None
  else
    try_catch
      (io (fun w =>
         match list_of (dimension_lists (broker w)) queueName with
         | [] => (Ok None, w)
         | x :: l =>
             (Ok (Some x),
              with_broker (set_dimension_lists
                (<[queueName := l]> (dimension_lists (broker w)))) w)
         end))
      (fun _ => ret None).

Definition getMainTask (timeout : Z) : M (option MainTask) :=
  if negb (truthy config.MAIN_QUEUE_NAME) then ret None
  else popFromQueue config.MAIN_QUEUE_NAME timeout.

(** [{...taskData, task_id: taskData.task_id || uuidv4(),
      created_at: new Date().toISOString(), retry_count: 0}] *)
Definition addMainTask (taskData : MainTask) : M Z :=
  await task_id <- (if truthy (mt_task_id taskData)
                    then ret (mt_task_id taskData) else uuidv4);
  await now <- Date_now;
  pushToQueue config.MAIN_QUEUE_NAME
    (mkMainTask task_id (mt_response_id taskData) (mt_batch_id taskData)
       (mt_agent_id taskData) (mt_prompt taskData) (mt_response_text taskData)
       (mt_context taskData) (mt_reference taskData) (mt_metadata taskData)
       (mt_dimensions taskData) (mt_retry_reason taskData)
       now (Some 0) (mt_last_retry_at taskData)).

(** [{...taskData, retry_count: (taskData.retry_count || 0) + 1,
      last_retry_at: new Date().toISOString()}] *)
Definition updatedTask (taskData : MainTask) (now : Z) : MainTask :=
  mkMainTask (mt_task_id taskData) (mt_response_id taskData) (mt_batch_id taskData)
    (mt_agent_id taskData) (mt_prompt taskData) (mt_response_text taskData)
    (mt_context taskData) (mt_reference taskData) (mt_metadata taskData)
    (mt_dimensions taskData) (mt_retry_reason taskData)
    (mt_created_at taskData)
    (Some (default 0 (mt_retry_count taskData) + 1)) (Some now).

Definition requeueMainTask (taskData : MainTask) : M PushResult :=
  await now <- Date_now;
  let updatedTask := updatedTask taskData now in
  await max <- get MAX_RETRIES;
  if Z.leb (default 0 (mt_retry_count updatedTask)) max
  then await len <- addMainTask updatedTask; ret (Pushed len)
  else ret NotPushed.

(** Legacy task queue. *)
Definition addTask (taskData : MainTask) : M Z :=
  await now <- Date_now;
  pushToQueue config.TASK_QUEUE_NAME
    (mkMainTask (mt_task_id taskData) (mt_response_id taskData) (mt_batch_id taskData)
       (mt_agent_id taskData) (mt_prompt taskData) (mt_response_text taskData)
       (mt_context taskData) (mt_reference taskData) (mt_metadata taskData)
       (mt_dimensions taskData) (mt_retry_reason taskData)
       now (Some 0) (mt_last_retry_at taskData)).

Definition requeueTask (taskData : MainTask) : M PushResult :=
  await now <- Date_now;
  let updatedTask := updatedTask taskData now in
  await max <- get MAX_RETRIES;
  if Z.leb (default 0 (mt_retry_count updatedTask)) max
  then await len <- pushToQueue config.TASK_QUEUE_NAME updatedTask; ret (Pushed len)
  else ret NotPushed.

Definition dimension_queue (dimension : string) : string :=
  config.DIMENSION_QUEUE_PREFIX ++ ":" ++ dimension.

Definition addDimensionTask (dimension : string) (taskData : DimensionTask) : M Z :=
  pushToQueue_dimension (dimension_queue dimension) taskData.

Definition getDimensionTask (dimension : string) (timeout : Z)
  : M (option DimensionTask) :=
  popFromQueue_dimension (dimension_queue dimension) timeout.

Definition pushDimensionResult (resultData : DimensionResult) : M Z :=
  pushToQueue_result config.RESULTS_QUEUE_NAME resultData.

Definition popDimensionResult (timeout : Z) : M (option DimensionResult) :=
  if negb (truthy config.RESULTS_QUEUE_NAME) then ret None
  else popFromQueue_result config.RESULTS_QUEUE_NAME timeout.

Definition results_key (taskId : string) : string :=
  "task:" ++ taskId ++ ":results".

Definition hash_of (w : World) (key : string) : Hash :=
  default [] (partial_results (broker w) !! key).

Definition hSet_results (key field : string) (result : PartialResult) (w : World)
  : World :=
  with_broker (set_partial_results
    (<[key := hSet (hash_of w key) field result]> (partial_results (broker w)))) w.

(** [hSet], then [expire] (not modelled beyond the call), then [hLen]. *)
Definition setPartialResult (taskId dimension : string) (result : PartialResult)
  : M Z :=
  let key := results_key taskId in
  await _ <- io (modify (hSet_results key dimension result));
  await _ <- io (ret tt);
  io (get (fun w => hLen (hash_of w key))).

Definition getPartialResults (taskId : string) : M Hash :=
  let key := results_key taskId in
  io (get (fun w => hash_of w key)).

Definition del_results (key : string) (w : World) : World :=
  with_broker (set_partial_results (delete key (partial_results (broker w)))) w.

Definition deletePartialResults (taskId : string) : M unit :=
  let key := results_key taskId in
  io (modify (del_results key)).

Definition set_status_key (workerId status : string) (w : World) : World :=
  with_broker (set_worker_statuses
    (<["worker:" ++ workerId ++ ":status" := status]> (worker_statuses (broker w)))) w.

Definition setWorkerStatus (workerId status : string) : M unit :=
  io (modify (set_status_key workerId status)).

Definition getTask (timeout : Z) : M (option MainTask) :=
  popFromQueue config.TASK_QUEUE_NAME timeout.

(** [del key] on the one key space of the broker: the key goes, whatever
    it holds, and the reply is the number of keys removed. A list or a
    hash that has become empty is no key any more. *)
Definition key_exists (key : string) (w : World) : bool :=
  negb (bool_decide (list_of (task_lists (broker w)) key = []))
  || negb (bool_decide (list_of (dimension_lists (broker w)) key = []))
  || negb (bool_decide (list_of (result_lists (broker w)) key = []))
  || negb (bool_decide (hash_of w key = []))
  || bool_decide (is_Some (worker_statuses (broker w) !! key)).

Definition del_key (key : string) (w : World) : World :=
  with_broker (fun b =>
    mkBroker (delete key (task_lists b)) (delete key (dimension_lists b))
      (delete key (result_lists b)) (delete key (partial_results b))
      (delete key (worker_statuses b))) w.

Definition clearQueue (queueName : string) : M Z :=
  io (fun w => (Ok (if key_exists queueName w then 1 else 0), del_key queueName w)).

End redisClient.

(** ** dbClient.js *)

Module dbClient.

Definition getResponseById (responseId : string) : M (option Response) :=
  io (get (fun w => responses (store w) !! responseId)).

Definition with_status (status : Status) (now : Z) (r : Response) : Response :=
  mkResponse (rs_batch_id r) (rs_agent_id r) (rs_prompt r) (rs_response_text r)
    (rs_context r) (rs_reference r) (rs_metadata r) status now.

Definition set_response_status (responseId : string) (status : Status) (w : World)
  : World :=
  with_store (set_responses
    (alter (with_status status (clock w)) responseId (responses (store w)))) w.

(** [updateOne({_id}, {$set: {status, updated_at}})]: nothing happens
    when no document has that id. *)
Definition updateResponseStatus (responseId : string) (status : Status) : M unit :=
  io (modify (set_response_status responseId status)).

Definition add_evaluation (evaluationData : Evaluation) (w : World) : World :=
  with_store (set_evaluations (evaluations (store w) ++ [evaluationData])%list) w.

(** [insertOne] under the unique index on [response_id] that [connect]
    creates (a failure to create it is only logged by the code and is not
    modelled). *)
Definition insertEvaluation (evaluationData : Evaluation) : M unit :=
  io (fun w =>
    if existsb (fun e => String.eqb (ev_response_id e) (ev_response_id evaluationData))
         (evaluations (store w))
    then (Throw DuplicateKey, w)
    else (Ok tt, add_evaluation evaluationData w)).

Definition set_batch_status (batchId : string) (status : BatchStatus)
    (progress : option Progress) (w : World) : World :=
  with_store (set_batches
    (alter (fun b => mkBatch status
                       (match progress with
                        | Some p => Some p
                        | None => bt_progress b
                        end)
                       (clock w))
           batchId (batches (store w)))) w.

Definition updateBatchStatus (batchId : string) (status : BatchStatus)
    (progress : option Progress) : M unit :=
  io (modify (set_batch_status batchId status progress)).

(** [{ $group: { _id: '$status', count: { $sum: 1 } } }] *)
Fixpoint count_in_group (s : Status) (g : list (Status * Z)) : list (Status * Z) :=
  match g with
  | [] => [(s, 1)]
  | (s', c) :: g' =>
      if bool_decide (s' = s) then (s', c + 1) :: g' else (s', c) :: count_in_group s g'
  end.

Definition group_by_status (docs : list Response) : list (Status * Z) :=
  fold_left (fun g r => count_in_group (rs_status r) g) docs [].

(** [{ $match: { batch_id: batchId } }] *)
Definition match_batch (batchId : string) (rs : gmap string Response) : list Response :=
  filter (fun r => rs_batch_id r = batchId) (snd <$> map_to_list rs).

Definition empty_progress : Progress :=
  [(PStatus pending, 0); (PStatus processing, 0); (PStatus completed, 0);
   (PStatus failed, 0); (PTotal, 0)].

(** [results.forEach(result => { progress[result._id] = result.count;
                                 progress.total += result.count; })] *)
Definition add_result (progress : Progress) (result : Status * Z) : Progress :=
  let progress := pSet progress (PStatus (fst result)) (snd result) in
  pSet progress PTotal (default 0 (pGet progress PTotal) + snd result).

Definition progress_of (results : list (Status * Z)) : Progress :=
  fold_left add_result results empty_progress.

Definition getBatchProgress (batchId : string) : M Progress :=
  await results <- io (get (fun w =>
    group_by_status (match_batch batchId (responses (store w)))));
  ret (progress_of results).

(** [findOne({ response_id: responseId })] *)
Definition getEvaluationByResponseId (responseId : string) : M (option Evaluation) :=
  io (get (fun w =>
    List.find (fun e => String.eqb (ev_response_id e) responseId)
      (evaluations (store w)))).

End dbClient.

(** What a call of [start] did: it found the orchestrator running and
    returned, or it reached the two calls that start the loops. *)
Inductive Started :=
| AlreadyRunning
| LoopsStarted.

(** ** masterOrchestrator.js *)

(** The accumulators of the scoring loop of [finalizeTaskWithInfo]. *)
Record Aggregate := mkAggregate {
  finalScore : Q;
  totalWeight : Q;
  scores : gmap string Q;
  hasErrors : bool;
  allErrors : list string
}.

Module masterOrchestrator.

Definition updateBatchProgress (batchId : string) : M unit :=
  try_catch
    (await progress <- dbClient.getBatchProgress batchId;
     if bool_decide (pGet progress (PStatus pending) = Some 0)
        && bool_decide (pGet progress (PStatus processing) = Some 0)
     then dbClient.updateBatchStatus batchId BCompleted (Some progress)
     else dbClient.updateBatchStatus batchId BProcessing (Some progress))
    (fun _ => ret tt).

Definition handleTaskFailure (mainTask : MainTask) (error : Err) : M unit :=
  try_catch
    (await success <- redisClient.requeueMainTask mainTask;
     if negb (push_truthy success)
     then dbClient.updateResponseStatus (mt_response_id mainTask) failed
     else ret tt)
    (fun _ => dbClient.updateResponseStatus (mt_response_id mainTask) failed).

Definition dimensionTask (mainTask : MainTask) (dimension : string) : DimensionTask :=
  mkDimensionTask (mt_task_id mainTask) dimension (mt_response_id mainTask)
    (mt_batch_id mainTask) (mt_agent_id mainTask) (mt_prompt mainTask)
    (mt_response_text mainTask) (mt_context mainTask) (mt_reference mainTask)
    (mt_metadata mainTask).

Definition put_task (taskId : string) (taskInfo : TaskInfo) (w : World) : World :=
  with_this (fun o => set_activeTasks (<[taskId := taskInfo]> (activeTasks o)) o) w.

Definition drop_task (taskId : string) (w : World) : World :=
  with_this (fun o => set_activeTasks (delete taskId (activeTasks o)) o) w.

Definition activeTasks_set (taskId : string) (taskInfo : TaskInfo) : M unit :=
  modify (put_task taskId taskInfo).

Definition activeTasks_delete (taskId : string) : M unit :=
  modify (drop_task taskId).

(** [processMainTask] in three parts: the increment that runs before the
    first suspension, the [try]/[catch] block, the [finally] block. *)
Definition runningTasks_incr (w : World) : World :=
  with_this (fun o => set_runningTasks (runningTasks o + 1) o) w.

Definition runningTasks_decr (w : World) : World :=
  with_this (fun o => set_runningTasks (runningTasks o - 1) o) w.

Definition processMainTask_enter : M unit := modify runningTasks_incr.

Definition processMainTask_try (mainTask : MainTask) : M unit :=
  let taskId := mt_task_id mainTask in
  try_catch
    (await wid <- get (fun w => workerId (this w));
     await _ <- redisClient.setWorkerStatus wid "processing";
     await _ <- dbClient.updateResponseStatus (mt_response_id mainTask) processing;
     await now <- Date_now;
     await _ <- activeTasks_set taskId
       (mkTaskInfo mainTask now [] (Z.of_nat (length config.DIMENSIONS)));
     for_each config.DIMENSIONS (fun dimension =>
       await _ <- redisClient.addDimensionTask dimension (dimensionTask mainTask dimension);
       ret tt))
    (fun error =>
       await _ <- handleTaskFailure mainTask error;
       activeTasks_delete taskId).

Definition processMainTask_finally : M unit := modify runningTasks_decr.

Definition processMainTask (mainTask : MainTask) : M unit :=
  await _ <- processMainTask_enter;
  try_finally (processMainTask_try mainTask) processMainTask_finally.

(** [config.DEFAULT_WEIGHTS[dimension] || 0.2] *)
Definition weight_of (dimension : string) : Q :=
  match config.DEFAULT_WEIGHTS dimension with
  | Some w => if Qeq_bool w 0 then 0.2%Q else w
  | None => 0.2%Q
  end.

(** One round of [for (const dimension of config.DIMENSIONS)]. *)
Definition aggregate_dimension (dimensionResults : Hash) (a : Aggregate)
    (dimension : string) : Aggregate :=
  match hGet dimensionResults dimension with
  | Some result =>
      let score := num_or_zero (pr_score result) in
      let weight := weight_of dimension in
      mkAggregate
        (finalScore a + score * weight)%Q
        (totalWeight a + weight)%Q
        (<[dimension := score]> (scores a))
        (match pr_error result with
         | Some e => if truthy e then true else hasErrors a
         | None => hasErrors a
         end)
        (match pr_error result with
         | Some e => if truthy e then (allErrors a ++ [(dimension ++ ": " ++ e)%string])%list
                     else allErrors a
         | None => allErrors a
         end)
  | None =>
      mkAggregate (finalScore a) (totalWeight a)
        (<[dimension := 0%Q]> (scores a))
        true
        (allErrors a ++ [(dimension ++ ": Missing result")%string])%list
  end.

Definition aggregate_over (dimensions : list string) (dimensionResults : Hash)
  : Aggregate :=
  fold_left (aggregate_dimension dimensionResults) dimensions
    (mkAggregate 0 0 ∅ false []).

Definition aggregate (dimensionResults : Hash) : Aggregate :=
  aggregate_over config.DIMENSIONS dimensionResults.

(** [finalScore = totalWeight > 0 ? finalScore / totalWeight : 0.0], in
    exact arithmetic. *)
Definition normalize (a : Aggregate) : Q :=
  if Qlt_le_dec 0 (totalWeight a) then (finalScore a / totalWeight a)%Q else 0%Q.

(** The first stored result whose [details] carry a [response_id]. *)
Definition response_id_of_results (dimensionResults : Hash) : string :=
  match List.find (fun fr => truthy (obj_get (pr_details (snd fr)) "response_id"))
          dimensionResults with
  | Some fr => obj_get (pr_details (snd fr)) "response_id"
  | None => ""
  end.

Definition task_field (f : MainTask -> string) (taskInfo : option TaskInfo) : string :=
  match taskInfo with
  | Some ti => f (ti_mainTask ti)
  | None => ""
  end.

Definition finalizeTaskWithInfo (taskId : string) (taskInfo : option TaskInfo)
  : M unit :=
  try_catch
    (await dimensionResults <- redisClient.getPartialResults taskId;
     if Z.ltb (hLen dimensionResults) (Z.of_nat (length config.DIMENSIONS))
     then ret tt
     else
       let a := aggregate dimensionResults in
       let finalScore := normalize a in
       let responseId := task_field mt_response_id taskInfo in
       let batchId := task_field mt_batch_id taskInfo in
       let agentId := task_field mt_agent_id taskInfo in
       let responseId :=
         if negb (truthy responseId)
         then response_id_of_results dimensionResults else responseId in
       if negb (truthy responseId) then ret tt
       else
         await ids <-
           (if negb (truthy batchId) || negb (truthy agentId)
            then
              await response <- dbClient.getResponseById responseId;
              match response with
              | Some r => ret (rs_batch_id r, rs_agent_id r)
              | None => ret (batchId, agentId)
              end
            else ret (batchId, agentId));
         await now <- Date_now;
         await wid <- get (fun w => workerId (this w));
         let evaluationData :=
           mkEvaluation responseId (fst ids) (snd ids) (scores a) finalScore
             (if hasErrors a then allErrors a else [])
             (match taskInfo with
              | Some ti => now - ti_startTime ti
              | None => 0
              end)
             now wid taskId in
         await _ <- dbClient.insertEvaluation evaluationData;
         await _ <- dbClient.updateResponseStatus responseId completed;
         await _ <- updateBatchProgress (fst ids);
         await _ <- activeTasks_delete taskId;
         redisClient.deletePartialResults taskId)
    (fun error =>
       await _ <-
         (if truthy (task_field mt_response_id taskInfo)
          then dbClient.updateResponseStatus (task_field mt_response_id taskInfo) failed
          else ret tt);
       await _ <- activeTasks_delete taskId;
       redisClient.deletePartialResults taskId).

Definition finalizeTask (taskId : string) : M unit :=
  await taskInfo <- get (fun w => activeTasks (this w) !! taskId);
  match taskInfo with
  | None => ret tt
  | Some taskInfo => finalizeTaskWithInfo taskId (Some taskInfo)
  end.

Definition finalizeTaskById (taskId : string) : M unit :=
  await partialResults <- redisClient.getPartialResults taskId;
  if Z.eqb (hLen partialResults) 0 then ret tt
  else finalizeTaskWithInfo taskId None.

(** [completedDimensions.add(dimension)] on the entry of the map. *)
Definition add_completed (dimension : string) (taskInfo : TaskInfo) : TaskInfo :=
  mkTaskInfo (ti_mainTask taskInfo) (ti_startTime taskInfo)
    (if bool_decide (dimension ∈ ti_completedDimensions taskInfo)
     then ti_completedDimensions taskInfo
     else (ti_completedDimensions taskInfo ++ [dimension])%list)
    (ti_totalDimensions taskInfo).

(** [{ score: score || 0.0, details: details || {}, error: error || null,
       completed_at: new Date().toISOString() }] *)
Definition partial_of_result (result : DimensionResult) (now : Z) : PartialResult :=
  mkPartialResult (JNum (num_or_zero (dr_score result)))
    (default [] (dr_details result))
    (str_or_null (dr_error result))
    now.

Definition processDimensionResult (result : DimensionResult) : M unit :=
  let task_id := dr_task_id result in
  let dimension := dr_dimension result in
  try_catch
    (await now <- Date_now;
     await completedDimensions <-
       redisClient.setPartialResult task_id dimension (partial_of_result result now);
     await taskInfo <- get (fun w => activeTasks (this w) !! task_id);
     match taskInfo with
     | Some taskInfo =>
         await _ <- activeTasks_set task_id (add_completed dimension taskInfo);
         if Z.leb (Z.of_nat (length config.DIMENSIONS)) completedDimensions
         then finalizeTask task_id else ret tt
     | None =>
         if Z.leb (Z.of_nat (length config.DIMENSIONS)) completedDimensions
         then finalizeTaskById task_id else ret tt
     end)
    (fun _ => ret tt).

(** One sweep of the timeout monitor. The entries are visited in the
    order of [map_to_list]; the effect of a sweep does not depend on it. *)
Definition timed_out (now timeout : Z) (entry : string * TaskInfo) : bool :=
  Z.ltb timeout (now - ti_startTime (snd entry)).

Definition handle_timeout (entry : string * TaskInfo) : M unit :=
  let taskId := fst entry in
  let taskInfo := snd entry in
  try_catch
    (await _ <-
       (if truthy (mt_response_id (ti_mainTask taskInfo))
        then dbClient.updateResponseStatus (mt_response_id (ti_mainTask taskInfo)) failed
        else ret tt);
     await _ <- activeTasks_delete taskId;
     redisClient.deletePartialResults taskId)
    (fun _ => ret tt).

(** [startTimeoutMonitoring] arms [setInterval(..., 60000)]. The timer
    makes its calls one after the other; the first comes no earlier than
    one interval after the timer is armed, and every call comes at most
    one interval and [lateness] after the call before it (after the
    arming, for the first). How late a call may come is not fixed by the
    language, so [lateness] is left open; [fires n] is the time of call
    [n]. *)
Definition SWEEP_INTERVAL : Z := 60000.

Definition timeoutMonitor_schedule (started_at lateness : Z) (fires : nat -> Z) : Prop :=
  started_at + SWEEP_INTERVAL <= fires 0%nat <= started_at + SWEEP_INTERVAL + lateness /\
  forall n, fires n < fires (S n) <= fires n + SWEEP_INTERVAL + lateness.

Definition checkTaskTimeouts : M unit :=
  await now <- Date_now;
  await timeoutTasks <- get (fun w =>
    List.filter (timed_out now (taskTimeout (this w)))
      (map_to_list (activeTasks (this w))));
  for_each timeoutTasks handle_timeout.

Definition start : M Started :=
  await running <- get (fun w => isRunning (this w));
  if running then ret AlreadyRunning
  else
    await _ <- modify (with_this (set_isRunning true));
    await wid <- get (fun w => workerId (this w));
    await _ <- redisClient.setWorkerStatus wid "active";
    ret LoopsStarted.

End masterOrchestrator.

(** ** Division of numbers

    JavaScript numbers are IEEE 754 doubles: the quotient [a / b] of two
    integers is the double nearest to the exact quotient, ties going to
    the even mantissa. A double is written here as a mantissa [m] and an
    exponent [e], with value [m * 2^e]; the exponent is the one that puts
    the integer part of [a / (b * 2^e)] in [2^52, 2^53). Overflow and
    subnormal results, which integers below 2^1000 do not reach, are not
    modelled. *)
Module float64.

(** The integer nearest to [num / den], ties to the even one, for
    [0 <= num] and [0 < den]. *)
Definition nearest_even (num den : Z) : Z :=
  let q := num / den in
  let r := num mod den in
  if (2 * r <? den)%Z then q
  else if (den <? 2 * r)%Z then q + 1
  else if Z.even q then q else q + 1.

(** [a / (b * 2^e)] as a fraction of integers. *)
Definition scaled (a b e : Z) : Z * Z :=
  if (0 <=? e)%Z then (a, b * 2 ^ e) else (a * 2 ^ (- e), b).

Definition exponent (a b : Z) : Z :=
  let e := Z.log2 a - Z.log2 b - 52 in
  if (2 ^ 52 <=? fst (scaled a b e) / snd (scaled a b e))%Z then e else e - 1.

(** [a / b] for [0 < a] and [0 < b]. *)
Definition div_pos (a b : Z) : Z * Z :=
  let e := exponent a b in
  (nearest_even (fst (scaled a b e)) (snd (scaled a b e)), e).

(** [Math.ceil] and [Math.floor] of the double [m * 2^e]. *)
Definition ceil (m e : Z) : Z :=
  if (0 <=? e)%Z then m * 2 ^ e else - ((- m) / 2 ^ (- e)).

Definition floor (m e : Z) : Z :=
  if (0 <=? e)%Z then m * 2 ^ e else m / 2 ^ (- e).

(** [Math.ceil(a / b)] for integers [a] and [b <> 0]; rounding is
    symmetric in the sign. *)
Definition ceil_div (a b : Z) : Z :=
  if (a =? 0)%Z then 0
  else
    let me := div_pos (Z.abs a) (Z.abs b) in
    if (0 <? Z.sgn a * Z.sgn b)%Z then ceil (fst me) (snd me)
    else - floor (fst me) (snd me).

End float64.

(** ** enqueue.js *)

(** The object returned by [requeueFailedResponse]. *)
Record RequeueReply := mkRequeueReply {
  success : bool;
  reason : string
}.

(** The object returned by [retryFailedTasks]. *)
Record RetryReply := mkRetryReply {
  retried : Z;
  total_failed : Z
}.

Module taskEnqueue.

(** The task built from a stored response; it has no [task_id] and no
    [retry_count] field. *)
Definition task_of (responseId : string) (response : Response) (batchId : string)
    (retry_reason : string) (now : Z) : MainTask :=
  mkMainTask "" responseId batchId (rs_agent_id response) (rs_prompt response)
    (rs_response_text response) (rs_context response) (rs_reference response)
    (rs_metadata response) config.DIMENSIONS retry_reason now None None.

Definition with_task_id (task_id : string) (task : MainTask) : MainTask :=
  mkMainTask task_id (mt_response_id task) (mt_batch_id task) (mt_agent_id task)
    (mt_prompt task) (mt_response_text task) (mt_context task) (mt_reference task)
    (mt_metadata task) (mt_dimensions task) (mt_retry_reason task)
    (mt_created_at task) (mt_retry_count task) (mt_last_retry_at task).

(** [for (const task of tasks)] with its counter [enqueuedCount]. *)
Fixpoint enqueue_tasks (tasks : list MainTask) (enqueuedCount : Z) : M Z :=
  match tasks with
  | [] => ret enqueuedCount
  | task :: tasks' =>
      await task_id <- uuidv4;
      await _ <- redisClient.addMainTask (with_task_id task_id task);
      let enqueuedCount := enqueuedCount + 1 in
      await _ <- dbClient.updateResponseStatus (mt_response_id task) queued;
      enqueue_tasks tasks' enqueuedCount
  end.

Definition enqueueBatch (batchId : string) (responses : list (string * Response))
  : M Z :=
  try_catch
    (await now <- Date_now;
     let tasks := map (fun r => task_of (fst r) (snd r) batchId "" now) responses in
     await enqueuedCount <- enqueue_tasks tasks 0;
     await _ <- dbClient.updateBatchStatus batchId BProcessing
       (Some [(PTotal, Z.of_nat (length responses));
              (PStatus queued, enqueuedCount);
              (PStatus processing, 0);
              (PStatus completed, 0);
              (PStatus failed, 0)]);
     ret enqueuedCount)
    (fun error =>
       await _ <- dbClient.updateBatchStatus batchId BFailed None;
       throw error).

Definition requeueFailedResponse (responseId : string) (reason : string)
  : M RequeueReply :=
  try_catch
    (await response <- dbClient.getResponseById responseId;
     match response with
     | None => throw (Error ("Response " ++ responseId ++ " not found"))
     | Some response =>
         await now <- Date_now;
         let task := task_of responseId response (rs_batch_id response) reason now in
         await success <- redisClient.requeueTask task;
         if push_truthy success
         then
           await _ <- dbClient.updateResponseStatus responseId queued;
           ret (mkRequeueReply true "")
         else
           await _ <- dbClient.updateResponseStatus responseId failed;
           ret (mkRequeueReply false "max_retries_exceeded")
     end)
    (fun error => throw error).

Definition enqueueResponse (responseId : string) : M unit :=
  try_catch
    (await response <- dbClient.getResponseById responseId;
     match response with
     | None => throw (Error ("Response " ++ responseId ++ " not found"))
     | Some response =>
         await now <- Date_now;
         let task := task_of responseId response (rs_batch_id response) "" now in
         await _ <- redisClient.addTask task;
         await _ <- dbClient.updateResponseStatus responseId queued;
         ret tt
     end)
    (fun error => throw error).

(** [for (const dimension of config.DIMENSIONS)] with its counter
    [dimensionCleared]. *)
Fixpoint clear_dimensions (dimensions : list string) (dimensionCleared : Z) : M Z :=
  match dimensions with
  | [] => ret dimensionCleared
  | dimension :: dimensions' =>
      await n <- redisClient.clearQueue (redisClient.dimension_queue dimension);
      clear_dimensions dimensions' (dimensionCleared + n)
  end.

(** The [cleared] field of the reply of [clearQueue]. *)
Definition clearQueue : M Z :=
  try_catch
    (await mainCleared <- redisClient.clearQueue config.MAIN_QUEUE_NAME;
     await dimensionCleared <- clear_dimensions config.DIMENSIONS 0;
     await resultsCleared <- redisClient.clearQueue config.RESULTS_QUEUE_NAME;
     ret (mainCleared + dimensionCleared + resultsCleared))
    (fun error => throw error).

Definition pauseProcessing (batchId : string) : M unit :=
  try_catch (dbClient.updateBatchStatus batchId BPaused None) (fun error => throw error).

Definition resumeProcessing (batchId : string) : M unit :=
  try_catch (dbClient.updateBatchStatus batchId BProcessing None)
    (fun error => throw error).

(** [Math.ceil(remainingTasks / (activeWorkers * 1))] in the arithmetic of
    doubles, or [null] (here [None]) when no worker is active. The
    arguments are integers that doubles hold. *)
Definition estimateCompletionTime (remainingTasks activeWorkers : Z) : option Z :=
  if Z.eqb activeWorkers 0 then None
  else
    let tasksPerMinute := activeWorkers * 1 in
    Some (float64.ceil_div remainingTasks tasksPerMinute).

(** [find({ batch_id, status: 'failed' }).limit(limit).toArray()]; a limit
    of 0 is no limit, a negative limit counts as its absolute value. *)
Definition find_failed (batchId : string) (limit : Z) (rs : gmap string Response)
  : list (string * Response) :=
  let found :=
    List.filter (fun e => String.eqb (rs_batch_id (snd e)) batchId
                          && bool_decide (rs_status (snd e) = failed))
      (map_to_list rs) in
  if Z.eqb limit 0 then found else take (Z.abs_nat limit) found.

(** [for (const response of failedResponses)] with its counter
    [retriedCount]; an error of one retry is logged and swallowed. *)
Fixpoint retry_each (failedResponses : list (string * Response)) (retriedCount : Z)
  : M Z :=
  match failedResponses with
  | [] => ret retriedCount
  | response :: failedResponses' =>
      await retriedCount <-
        try_catch
          (await _ <- requeueFailedResponse (fst response) "manual_retry";
           ret (retriedCount + 1))
          (fun _ => ret retriedCount);
      retry_each failedResponses' retriedCount
  end.

Definition retryFailedTasks (batchId : string) (limit : Z) : M RetryReply :=
  try_catch
    (await failedResponses <- io (get (fun w =>
       find_failed batchId limit (responses (store w))));
     await retriedCount <- retry_each failedResponses 0;
     ret (mkRetryReply retriedCount (Z.of_nat (length failedResponses))))
    (fun error => throw error).

End taskEnqueue.

(** ** dimensionWorker.js: what a worker puts on the results queue *)

(** How the Python process ended: its exit code, its raw output and, when
    that output is JSON, the [score] and [details] it holds. *)
Record PythonRun := mkPythonRun {
  exit_code : Z;
  stdout : string;
  stderr : string;
  parsed : option (jsnum * option JsObject)
}.

Module dimensionWorker.

(** The check of the [close] handler of [runPythonWorker]:
    [typeof result.score === 'number' && result.score >= 0 &&
     result.score <= 1]. *)
Definition valid_score (x : jsnum) : bool :=
  match x with
  | JNum q => Qle_bool 0 q && Qle_bool q 1
  | JNaN | JNull => false
  end.

(** The promise of [runPythonWorker]: [inl] when it resolves, [inr] with
    the message of the error when it rejects. The text that the JSON
    parser gives for an unparsable output is not modelled; the raw output
    stands in for it. *)
Definition runPythonWorker (dimension : string) (run : PythonRun)
  : (jsnum * JsObject) + string :=
  if Z.eqb (exit_code run) 0 then
    match parsed run with
    | Some (score, details) =>
        if valid_score score then inl (score, default [] details)
        else inr ("Invalid score format from " ++ dimension ++ " worker: " ++ stdout run)
    | None => inr ("Failed to parse " ++ dimension ++ " worker output: " ++ stdout run)
    end
  else inr (dimension ++ " worker exited with code " ++ pretty (exit_code run)
            ++ ". Stderr: " ++ stderr run ++ ". Stdout: " ++ stdout run).

Definition resultData (dimension workerId : string) (task : DimensionTask)
    (score : jsnum) (details : JsObject) : DimensionResult :=
  mkDimensionResult (dt_task_id task) dimension (dt_response_id task)
    (dt_batch_id task) (dt_agent_id task) score (Some details) None 0 workerId.

Definition errorResult (dimension workerId : string) (task : DimensionTask)
    (message : string) : DimensionResult :=
  mkDimensionResult (dt_task_id task) dimension (dt_response_id task)
    (dt_batch_id task) (dt_agent_id task) (JNum 0) (Some []) (Some message) 0 workerId.

(** The message that [processTask] sends for one run of the Python
    process. *)
Definition result_of_run (dimension workerId : string) (task : DimensionTask)
    (run : PythonRun) : DimensionResult :=
  match runPythonWorker dimension run with
  | inl (score, details) => resultData dimension workerId task score details
  | inr message => errorResult dimension workerId task message
  end.

Definition processTask (dimension workerId : string) (task : DimensionTask)
    (run : PythonRun) : M unit :=
  try_catch
    (await _ <- redisClient.setWorkerStatus workerId "processing";
     match runPythonWorker dimension run with
     | inl (score, details) =>
         await _ <- redisClient.pushDimensionResult
                      (resultData dimension workerId task score details);
         ret tt
     | inr message => throw (Error message)
     end)
    (fun error =>
       let message := match error with
                      | Error msg => msg
                      | IoError => "Connection is closed"
                      | DuplicateKey => "duplicate key"
                      end in
       await _ <- redisClient.pushDimensionResult
                    (errorResult dimension workerId task message);
       ret tt).

(** One round of [processLoop]; [run] is how the Python process ends if
    a task is found. *)
Definition processLoop_round (dimension workerId : string) (run : PythonRun)
  : M unit :=
  try_catch
    (await task <- redisClient.getDimensionTask dimension 30;
     match task with
     | Some task => processTask dimension workerId task run
     | None => redisClient.setWorkerStatus workerId "idle"
     end)
    (fun _ => ret tt).

End dimensionWorker.

(** ** The orchestrator as a transition system

    [processMainQueue] starts [processMainTask] without awaiting it, so
    several calls are pending at once and interleave with the dispatch
    loop, the collector loop and the timeout monitor. A [System] is the
    world together with the position of the dispatch loop and the calls of
    [processMainTask] that have run their first statement
    ([runningTasks++]) and not yet their [finally] block.

    An event is one uninterrupted stretch of one activity. The guard of
    the dispatch loop, the completion of its pop, one round of the
    collector and one sweep are events of their own. A pending
    [processMainTask] either runs the rest of its body in one stretch
    ([EvDispatch]), or its [try] block runs in pieces between other events
    and it then reaches its [finally] block ([EvFinally]). Everything that
    happens elsewhere, in the workers, in the uploads, on the clock, or in
    a piece of orchestrator code between two suspensions, is an
    [EvElsewhere]: it may change the whole world except the two fields
    that only the first statement and the [finally] block of
    [processMainTask] ever write, [runningTasks] and
    [maxConcurrentTasks]. *)

Inductive LoopState :=
| AtGuard     (* about to test [runningTasks >= maxConcurrentTasks] *)
| AtPop.      (* the test passed; [getMainTask] is awaited *)

Record System := mkSystem {
  world : World;
  loop : LoopState;
  dispatching : list MainTask
}.

Inductive Event :=
| EvGuard                 (* the dispatch loop tests its guard *)
| EvPop                   (* the awaited [getMainTask] completes *)
| EvDispatch (i : nat)    (* the i-th pending [processMainTask] runs to its end *)
| EvFinally (i : nat)     (* the i-th pending [processMainTask] reaches [finally] *)
| EvCollect               (* one round of [collectResults] *)
| EvSweep                 (* the interval timer calls [checkTaskTimeouts] *)
| EvElsewhere (w' : World).
                          (* anything else: the world becomes [w'], the two
                             counters apart *)

(** The world [w'] with the counters (and the configuration) of [w]. *)
Definition elsewhere (w w' : World) : World :=
  mkWorld (broker w') (store w')
    (mkOrchestrator (isRunning (this w')) (workerId (this w'))
       (maxConcurrentTasks (this w)) (runningTasks (this w))
       (activeTasks (this w')) (taskTimeout (this w')))
    (MAX_RETRIES w) (clock w') (uuids w') (faults w').

Definition guard_blocks (w : World) : bool :=
  Z.leb (maxConcurrentTasks (this w)) (runningTasks (this w)).

Definition step (e : Event) (s : System) : System :=
  match e with
  | EvGuard =>
      match loop s with
      | AtGuard =>
          if negb (isRunning (this (world s))) then s
          else if guard_blocks (world s) then s
          else mkSystem (world s) AtPop (dispatching s)
      | AtPop => s
      end
  | EvPop =>
      match loop s with
      | AtGuard => s
      | AtPop =>
          match redisClient.getMainTask 5 (world s) with
          | (Ok (Some mainTask), w) =>
              mkSystem (snd (masterOrchestrator.processMainTask_enter w)) AtGuard
                (dispatching s ++ [mainTask])
          | (Ok None, w) =>
              mkSystem
                (snd (redisClient.setWorkerStatus (workerId (this w)) "idle" w))
                AtGuard (dispatching s)
          | (Throw _, w) => mkSystem w AtGuard (dispatching s)
          end
      end
  | EvDispatch i =>
      match dispatching s !! i with
      | Some mainTask =>
          mkSystem
            (snd (try_finally (masterOrchestrator.processMainTask_try mainTask)
                    masterOrchestrator.processMainTask_finally (world s)))
            (loop s) (delete i (dispatching s))
      | None => s
      end
  | EvFinally i =>
      match dispatching s !! i with
      | Some _ =>
          mkSystem (snd (masterOrchestrator.processMainTask_finally (world s)))
            (loop s) (delete i (dispatching s))
      | None => s
      end
  | EvCollect =>
      match redisClient.popDimensionResult 1 (world s) with
      | (Ok (Some result), w) =>
          mkSystem (snd (masterOrchestrator.processDimensionResult result w))
            (loop s) (dispatching s)
      | (_, w) => mkSystem w (loop s) (dispatching s)
      end
  | EvSweep =>
      mkSystem (snd (masterOrchestrator.checkTaskTimeouts (world s)))
        (loop s) (dispatching s)
  | EvElsewhere w' =>
      mkSystem (elsewhere (world s) w') (loop s) (dispatching s)
  end.

Definition exec (trace : list Event) (s : System) : System :=
  fold_left (fun s e => step e s) trace s.

(** The system right after [start()]: nothing is running yet. *)
Definition started (s : System) : Prop :=
  runningTasks (this (world s)) = 0 /\ dispatching s = [] /\ loop s = AtGuard.

(** The event pops a task off the main queue in this state. *)
Definition pops (e : Event) (s : System) : Prop :=
  e = EvPop /\ loop s = AtPop /\
  exists mainTask w, redisClient.getMainTask 5 (world s) = (Ok (Some mainTask), w).

(** In-flight tasks: dispatched and not yet finalised, timed out or failed. *)
Definition in_flight (w : World) : Z :=
  Z.of_nat (size (activeTasks (this w))).

Definition status_of (w : World) (responseId : string) : option Status :=
  rs_status <$> responses (store w) !! responseId.

Definition records_in (st : Status) (w : World) : list string :=
  fst <$> filter (fun e => rs_status (snd e) = st) (map_to_list (responses (store w))).

(** ** The aggregation formulas in closed form *)

Definition Qsum (l : list Q) : Q := fold_right Qplus 0%Q l.

(** The score the finaliser reads for a dimension, 0 when none is stored. *)
Definition stored_score (h : Hash) (dimension : string) : Q :=
  match hGet h dimension with
  | Some result => num_or_zero (pr_score result)
  | None => 0%Q
  end.

(** The dimension has a stored result. *)
Definition has_result (h : Hash) (dimension : string) : bool :=
  match hGet h dimension with
  | Some _ => true
  | None => false
  end.

(** The dimension has a stored result that carries an error. *)
Definition has_error (h : Hash) (dimension : string) : bool :=
  match hGet h dimension with
  | Some result =>
      match pr_error result with
      | Some e => truthy e
      | None => false
      end
  | None => false
  end.

(** The set S of the specification: a result is stored and has no error. *)
Definition error_free (h : Hash) (dimension : string) : bool :=
  has_result h dimension && negb (has_error h dimension).

(** Weighted mean of the stored scores over the dimensions selected by
    [sel]: [(Σ W[d]·score[d]) / (Σ W[d])], both sums over the selection. *)
Definition weighted_mean (sel : string -> bool) (h : Hash) : Q :=
  let S := List.filter sel config.DIMENSIONS in
  (Qsum (map (fun d => stored_score h d * masterOrchestrator.weight_of d)%Q S)
   / Qsum (map masterOrchestrator.weight_of S))%Q.

(** The final score as the specification words it: the mean over the
    error-free dimensions. *)
Definition spec_final_score (h : Hash) : Q := weighted_mean (error_free h) h.

(** The final score over every dimension that has a stored result. *)
Definition present_final_score (h : Hash) : Q := weighted_mean (has_result h) h.

(** The identifier the finaliser settles on for the record. *)
Definition resolved_response_id (taskInfo : option TaskInfo) (h : Hash) : string :=
  if truthy (masterOrchestrator.task_field mt_response_id taskInfo)
  then masterOrchestrator.task_field mt_response_id taskInfo
  else masterOrchestrator.response_id_of_results h.

(** An evaluation for this record is already stored. *)
Definition has_evaluation (w : World) (responseId : string) : bool :=
  existsb (fun e => String.eqb (ev_response_id e) responseId) (evaluations (store w)).

(** ** The effect of a finalisation, as a function of the world *)

(** The batch and agent the evaluation is filed under. *)
Definition resolved_ids (taskInfo : option TaskInfo) (responseId : string) (w : World)
  : string * string :=
  let batchId := masterOrchestrator.task_field mt_batch_id taskInfo in
  let agentId := masterOrchestrator.task_field mt_agent_id taskInfo in
  if negb (truthy batchId) || negb (truthy agentId)
  then match responses (store w) !! responseId with
       | Some r => (rs_batch_id r, rs_agent_id r)
       | None => (batchId, agentId)
       end
  else (batchId, agentId).

(** The document that [finalizeTaskWithInfo] hands to [insertEvaluation]. *)
Definition evaluation_of (taskId : string) (taskInfo : option TaskInfo) (w : World)
  : Evaluation :=
  let h := redisClient.hash_of w (redisClient.results_key taskId) in
  let a := masterOrchestrator.aggregate h in
  let responseId := resolved_response_id taskInfo h in
  let ids := resolved_ids taskInfo responseId w in
  mkEvaluation responseId (fst ids) (snd ids) (scores a)
    (masterOrchestrator.normalize a)
    (if hasErrors a then allErrors a else [])
    (match taskInfo with
     | Some ti => clock w - ti_startTime ti
     | None => 0
     end)
    (clock w) (workerId (this w)) taskId.

(** What [updateBatchProgress] leaves behind when the store answers. *)
Definition batch_projected (batchId : string) (w : World) : World :=
  let progress :=
    dbClient.progress_of
      (dbClient.group_by_status (dbClient.match_batch batchId (responses (store w)))) in
  dbClient.set_batch_status batchId
    (if bool_decide (pGet progress (PStatus pending) = Some 0)
        && bool_decide (pGet progress (PStatus processing) = Some 0)
     then BCompleted else BProcessing)
    (Some progress) w.

(** The world after a finalisation that wrote its evaluation. *)
Definition finalized (taskId : string) (taskInfo : option TaskInfo) (w : World) : World :=
  let e := evaluation_of taskId taskInfo w in
  redisClient.del_results (redisClient.results_key taskId)
    (masterOrchestrator.drop_task taskId
       (batch_projected (ev_batch_id e)
          (dbClient.set_response_status (ev_response_id e) completed
             (dbClient.add_evaluation e w)))).

(** The world after a finalisation whose insert was rejected: the [catch]
    block of [finalizeTaskWithInfo]. *)
Definition finalize_caught (taskId : string) (taskInfo : option TaskInfo) (w : World)
  : World :=
  let responseId := masterOrchestrator.task_field mt_response_id taskInfo in
  redisClient.del_results (redisClient.results_key taskId)
    (masterOrchestrator.drop_task taskId
       (if truthy responseId
        then dbClient.set_response_status responseId failed w
        else w)).

(** The entry that a dimension adds to [allErrors], if any. *)
Definition error_entry (h : Hash) (dimension : string) : option string :=
  match hGet h dimension with
  | Some result =>
      match pr_error result with
      | Some e => if truthy e then Some (dimension ++ ": " ++ e) else None
      | None => None
      end
  | None => Some (dimension ++ ": Missing result")
  end.

(** ** A dispatch that fails *)


Definition main_queue (w : World) : list MainTask :=
  redisClient.list_of (task_lists (broker w)) config.MAIN_QUEUE_NAME.





(** ** The timeout monitor *)

(** What [checkTaskTimeouts] does to one timed-out entry when the store
    and the broker answer. *)
Definition swept_entry (entry : string * TaskInfo) (w : World) : World :=
  let responseId := mt_response_id (ti_mainTask (snd entry)) in
  redisClient.del_results (redisClient.results_key (fst entry))
    (masterOrchestrator.drop_task (fst entry)
       (if truthy responseId
        then dbClient.set_response_status responseId failed w
        else w)).

Definition timed_out_entries (w : World) : list (string * TaskInfo) :=
  List.filter (masterOrchestrator.timed_out (clock w) (taskTimeout (this w)))
    (map_to_list (activeTasks (this w))).

(** Call [n] is the first call of the monitor that comes strictly after
    [deadline]. *)
Definition first_sweep_after (fires : nat -> Z) (deadline : Z) (n : nat) : Prop :=
  deadline < fires n /\ forall m, (m < n)%nat -> fires m <= deadline.

(** The calls of a monitor armed at [started_at] whose timer is never
    late. *)
Definition punctual (started_at : Z) (n : nat) : Z :=
  started_at + (Z.of_nat n + 1) * masterOrchestrator.SWEEP_INTERVAL.

(** What a sweep leaves alone, whatever fails: the queues and the stored
    evaluations. *)
Definition sweep_kept (w w' : World) : Prop :=
  task_lists (broker w') = task_lists (broker w) /\
  dimension_lists (broker w') = dimension_lists (broker w) /\
  result_lists (broker w') = result_lists (broker w) /\
  evaluations (store w') = evaluations (store w).

(** The in-flight entry of a task is there, or it is gone and the task's
    record is marked failed. *)
Definition marked_before_removed (taskId : string) (taskInfo : TaskInfo) (w : World)
  : Prop :=
  is_Some (responses (store w) !! mt_response_id (ti_mainTask taskInfo)) /\
  (activeTasks (this w) !! taskId = Some taskInfo \/
   activeTasks (this w) !! taskId = None /\
   status_of w (mt_response_id (ti_mainTask taskInfo)) = Some failed).

(** ** Batch progress *)

(** Reading a counter of a progress object; a key that is not there reads
    as 0. *)
Definition progress_count (p : Progress) (k : ProgressKey) : Z := default 0 (pGet p k).

(** The number of documents in a given status. *)
Definition count_status (s : Status) (docs : list Response) : Z :=
  Z.of_nat (length (List.filter (fun r => bool_decide (rs_status r = s)) docs)).

(** The count that the [$group] stage reports for a status, if any. *)
Definition group_count (g : list (Status * Z)) (s : Status) : option Z :=
  snd <$> List.find (fun e => bool_decide (fst e = s)) g.

Definition sum_counts (g : list (Status * Z)) : Z :=
  fold_right (fun e acc => snd e + acc) 0 g.

(** ** Frames: what a computation leaves alone *)

(** [keeps R m]: whatever the fault plan and whether or not [m] throws,
    the world it leaves is related by [R] to the world it found. *)
Definition keeps {A} (R : World -> World -> Prop) (m : M A) : Prop :=
  forall w, R w (snd (m w)).

(** The dispatch counter and its cap are the same in both worlds. *)
Definition same_counters (w w' : World) : Prop :=
  runningTasks (this w') = runningTasks (this w) /\
  maxConcurrentTasks (this w') = maxConcurrentTasks (this w).

(** The invariant of the dispatch loop. *)
Definition dispatch_invariant (cap : Z) (s : System) : Prop :=
  maxConcurrentTasks (this (world s)) = cap /\
  runningTasks (this (world s)) = Z.of_nat (length (dispatching s)) /\
  (loop s = AtPop -> runningTasks (this (world s)) < cap) /\
  (0 <= cap -> runningTasks (this (world s)) <= cap).

Definition results_queue (w : World) : list DimensionResult :=
  redisClient.list_of (result_lists (broker w)) config.RESULTS_QUEUE_NAME.

(** ** Relations between the world before and after a computation *)

(** A relation that [keeps] can be proved for by walking through the
    code: it holds between a world and itself, composes, and ignores the
    fault plan. *)
Class Frame (R : World -> World -> Prop) : Prop := {
  frame_refl : forall w, R w w;
  frame_trans : forall w1 w2 w3, R w1 w2 -> R w2 w3 -> R w1 w3;
  frame_faults : forall w fs, R w (with_faults fs w)
}.

(** The legacy task queue, which [addTask] and [requeueTask] push to. *)
Definition legacy_queue (w : World) : list MainTask :=
  redisClient.list_of (task_lists (broker w)) config.TASK_QUEUE_NAME.

Definition main_queue_kept (w w' : World) : Prop := main_queue w' = main_queue w.

Definition legacy_queue_kept (w w' : World) : Prop := legacy_queue w' = legacy_queue w.

(** Stored evaluations stay as they are, new ones come after them, and
    no record gets a second one. *)
Definition evaluations_grow (w w' : World) : Prop :=
  evaluations (store w) `prefix_of` evaluations (store w') /\
  (NoDup (ev_response_id <$> evaluations (store w)) ->
   NoDup (ev_response_id <$> evaluations (store w'))).

(** Nothing but the collection of batches has changed. *)
Definition only_batches (w w' : World) : Prop :=
  broker w' = broker w /\
  responses (store w') = responses (store w) /\
  evaluations (store w') = evaluations (store w) /\
  this w' = this w.

(** The events of the orchestrator itself. *)
Definition orchestrator_event (e : Event) : bool :=
  match e with
  | EvElsewhere _ => false
  | _ => true
  end.

(** The functions that the events of the orchestrator run all keep [R]. *)
Definition orchestrator_keeps (R : World -> World -> Prop) : Prop :=
  (forall timeout, keeps R (redisClient.getMainTask timeout)) /\
  keeps R masterOrchestrator.processMainTask_enter /\
  keeps R masterOrchestrator.processMainTask_finally /\
  (forall mainTask, keeps R (masterOrchestrator.processMainTask_try mainTask)) /\
  (forall wid st, keeps R (redisClient.setWorkerStatus wid st)) /\
  (forall timeout, keeps R (redisClient.popDimensionResult timeout)) /\
  (forall result, keeps R (masterOrchestrator.processDimensionResult result)) /\
  keeps R masterOrchestrator.checkTaskTimeouts.

(** The entry of a task in the in-flight table is the same in both worlds. *)
Definition active_kept (taskId : string) (w w' : World) : Prop :=
  activeTasks (this w') !! taskId = activeTasks (this w) !! taskId.

(** The main queue after its head has been popped. *)
Definition popped_main (rest : list MainTask) (w : World) : World :=
  with_broker (set_task_lists
    (<[config.MAIN_QUEUE_NAME := rest]> (task_lists (broker w)))) w.

(** ** A dispatch that succeeds *)

Definition dimension_list (w : World) (dimension : string) : list DimensionTask :=
  redisClient.list_of (dimension_lists (broker w)) (redisClient.dimension_queue dimension).

(** The world after [rPush] on the queue of a dimension. *)
Definition push_dimension (dimension : string) (t : DimensionTask) (w : World) : World :=
  with_broker (set_dimension_lists
    (<[redisClient.dimension_queue dimension := (dimension_list w dimension ++ [t])%list]>
       (dimension_lists (broker w)))) w.

(** The world after the [try] block of [processMainTask] has run through. *)
Definition fanned_out (t : MainTask) (w : World) : World :=
  fold_left (fun w d => push_dimension d (masterOrchestrator.dimensionTask t d) w)
    config.DIMENSIONS
    (masterOrchestrator.put_task (mt_task_id t)
       (mkTaskInfo t (clock w) [] (Z.of_nat (length config.DIMENSIONS)))
       (dbClient.set_response_status (mt_response_id t) processing
          (redisClient.set_status_key (workerId (this w)) "processing" w))).

(** The queues of the dimensions are the same in both worlds. *)
Definition dimension_lists_kept (w w' : World) : Prop :=
  dimension_lists (broker w') = dimension_lists (broker w).

(** The world after the head of the queue of a dimension has been popped. *)
Definition popped_dimension (dimension : string) (rest : list DimensionTask) (w : World)
  : World :=
  with_broker (set_dimension_lists
    (<[redisClient.dimension_queue dimension := rest]> (dimension_lists (broker w)))) w.

(** The status that a worker last reported. *)
Definition worker_status (w : World) (workerId : string) : option string :=
  worker_statuses (broker w) !! ("worker:" ++ workerId ++ ":status").

(** ** Requeueing a task that carries its retry count *)

(** [n] calls of [requeueTask] in a row, each on the task as the previous
    call updated it. *)
Fixpoint requeue_chain (n : nat) (t : MainTask) : M (list PushResult) :=
  match n with
  | O => ret []
  | S n' =>
      await now <- Date_now;
      await r <- redisClient.requeueTask t;
      await rs <- requeue_chain n' (redisClient.updatedTask t now);
      ret (r :: rs)
  end.

(** ** The dispatch loop's pops in a row *)

(** Up to [n] calls of [getMainTask], stopping at the first that finds
    nothing; the tasks in the order they were handed out. *)
Fixpoint pop_main (n : nat) : M (list MainTask) :=
  match n with
  | O => ret []
  | S n' =>
      await mainTask <- redisClient.getMainTask 5;
      match mainTask with
      | None => ret []
      | Some mainTask =>
          await rest <- pop_main n';
          ret (mainTask :: rest)
      end
  end.

(** The store is the same in both worlds. *)
Definition store_kept (w w' : World) : Prop := store w' = store w.

(** The progress object that [enqueueBatch] stores with the batch. *)
Definition enqueued_progress (total enqueuedCount : Z) : Progress :=
  [(PTotal, total); (PStatus queued, enqueuedCount); (PStatus processing, 0);
   (PStatus completed, 0); (PStatus failed, 0)].


(** The seven keys that [clearQueue] of the enqueue facade deletes. *)
Definition cleared_keys : list string :=
  (config.MAIN_QUEUE_NAME :: map redisClient.dimension_queue config.DIMENSIONS
   ++ [config.RESULTS_QUEUE_NAME])%list.

(** How many of [keys] are keys of the broker. *)
Definition keys_present (keys : list string) (w : World) : Z :=
  Z.of_nat (length (List.filter (fun key => redisClient.key_exists key w) keys)).

(** ** Concrete runs *)

Module Examples.

Definition empty_broker : Broker := mkBroker ∅ ∅ ∅ ∅ ∅.

(** The orchestrator object as its constructor leaves it, started. *)
Definition orchestrator (maxConcurrent : Z) : Orchestrator :=
  mkOrchestrator true "master_0" maxConcurrent 0 ∅ 300000.

Definition response (batchId agentId : string) : Response :=
  mkResponse batchId agentId "p" "some answer" "" "" [] pending 0.

(** A store that holds one uploaded batch [b1] with the given records. *)
Definition uploaded (records : list (string * Response)) : Store :=
  mkStore (list_to_map records) [] {["b1" := mkBatch BProcessing None 0]}.

Definition world_with (records : list (string * Response)) (maxConcurrent : Z)
  : World :=
  mkWorld empty_broker (uploaded records) (orchestrator maxConcurrent)
    (config.MAX_RETRIES_of None) 1000 0 [].

Definition one_record : list (string * Response) := [("r1", response "b1" "a1")].

Definition two_records : list (string * Response) :=
  [("r1", response "b1" "a1"); ("r2", response "b1" "a2")].

(** Run a computation for its effect on the world. *)
Definition after {A} (m : M A) (w : World) : World := snd (m w).

(** Upload, enqueue, and let the dispatch loop fan the tasks out. *)
Definition enqueued (records : list (string * Response)) (maxConcurrent : Z) : World :=
  after (taskEnqueue.enqueueBatch "b1" records) (world_with records maxConcurrent).


Definition dispatched_one : System :=
  exec [EvGuard; EvPop; EvDispatch 0%nat] (mkSystem (enqueued one_record 10) AtGuard []).

(** How the five Python processes end. *)
Definition scored (score : Q) : PythonRun :=
  mkPythonRun 0 "{...}" "" (Some (JNum score, Some [("method", "m")])).

Definition crashed (message : string) : PythonRun :=
  mkPythonRun 1 "" message None.

Definition workers_answer (runs : list (string * PythonRun)) (w : World) : World :=
  fold_left (fun w dr =>
               after (dimensionWorker.processLoop_round (fst dr) ("worker_" ++ fst dr)
                        (snd dr)) w)
    runs w.

Definition collected (n : nat) (s : System) : System :=
  exec (repeat EvCollect n) s.

Definition with_world (f : World -> World) (s : System) : System :=
  step (EvElsewhere (f (world s))) s.

(** Scenario "mixed errors": hallucination fails, the others score. *)
Definition mixed_runs : list (string * PythonRun) :=
  [("instruction", scored 0.9); ("hallucination", crashed "nli timeout");
   ("assumption", scored 1.0); ("coherence", scored 0.6); ("accuracy", scored 0.8)].

Definition mixed_answered : System := with_world (workers_answer mixed_runs) dispatched_one.

Definition mixed_final : System := collected 5 mixed_answered.

(** Take the next result off the queue and store it, as the first half
    of [processDimensionResult] does, without finalising. *)
Definition stored_only (w : World) : World :=
  match redisClient.popDimensionResult 1 w with
  | (Ok (Some result), w1) =>
      after (redisClient.setPartialResult (dr_task_id result) (dr_dimension result)
               (masterOrchestrator.partial_of_result result (clock w1))) w1
  | (_, w1) => w1
  end.

(** All five results are stored and the task is about to be finalised. *)
Definition mixed_ready : World := stored_only (world (collected 4 mixed_answered)).

Definition mixed_hash : Hash :=
  redisClient.hash_of mixed_ready (redisClient.results_key "uuid-0").

Definition mixed_info : option TaskInfo := activeTasks (this mixed_ready) !! "uuid-0".

(** Scenario "all dimensions fail": the five Python processes crash. *)
Definition failing_runs : list (string * PythonRun) :=
  map (fun d => (d, crashed "out of memory")) config.DIMENSIONS.

Definition failing_answered : System :=
  with_world (workers_answer failing_runs) dispatched_one.

Definition failing_ready : World := stored_only (world (collected 4 failing_answered)).

Definition failing_hash : Hash :=
  redisClient.hash_of failing_ready (redisClient.results_key "uuid-0").

Definition failing_info : option TaskInfo := activeTasks (this failing_ready) !! "uuid-0".

Definition failing_final : System := collected 5 failing_answered.

(** Scenario "happy path": every worker returns 0.8. *)
Definition happy_runs : list (string * PythonRun) :=
  map (fun d => (d, scored 0.8)) config.DIMENSIONS.

Definition happy_final : System :=
  collected 5 (with_world (workers_answer happy_runs) dispatched_one).

(** Scenario "duplicate delivery": after the task has been finalised the
    broker delivers the same main task a second time; it is dispatched and
    answered again, and the finaliser runs again for the same task id. *)
Definition delivered_again (s : System) : System :=
  match head (redisClient.list_of (task_lists (broker (enqueued one_record 10)))
                config.MAIN_QUEUE_NAME) with
  | Some mainTask =>
      step (EvElsewhere (redisClient.rPush config.MAIN_QUEUE_NAME mainTask (world s))) s
  | None => s
  end.

Definition again_answered : System :=
  with_world (workers_answer happy_runs)
    (exec [EvGuard; EvPop; EvDispatch 0%nat] (delivered_again happy_final)).

Definition again_ready : World := stored_only (world (collected 4 again_answered)).

Definition again_info : option TaskInfo := activeTasks (this again_ready) !! "uuid-0".

Definition again_final : System := collected 5 again_answered.

(** Scenario "results that name the record": after the task has been
    finalised, five results whose details carry the record id are stored
    for the same task id; the task is no longer in flight. *)
Definition named_result (dimension : string) : DimensionResult :=
  mkDimensionResult "uuid-0" dimension "r1" "b1" "a1" (JNum 0.8)
    (Some [("response_id", "r1")]) None 12 ("worker_" ++ dimension).

Definition named_ready : World :=
  fold_left (fun w d =>
               after (redisClient.setPartialResult "uuid-0" d
                        (masterOrchestrator.partial_of_result (named_result d) (clock w))) w)
    config.DIMENSIONS (world happy_final).

(** Scenario "out of range": a result message with score 1.7 and no error
    reaches the results queue; the other four dimensions score 1.0. *)
Definition raw_result : DimensionResult :=
  mkDimensionResult "uuid-0" "instruction" "r1" "b1" "a1" (JNum 1.7) (Some []) None 12
    "worker_instruction".





(** Time passes: an event that only moves the clock. *)
Definition at_time (now : Z) (s : System) : System :=
  step (EvElsewhere (with_clock now (world s))) s.

(** Scenario "late results": the task is dispatched, no worker answers
    within the timeout, the monitor sweeps it, and then the five results
    arrive. *)
Definition swept : System := step EvSweep (at_time 400000 dispatched_one).

Definition late_answered : System := with_world (workers_answer happy_runs) swept.

Definition late_final : System := collected 5 late_answered.

(** Scenario "retry after retry": the record of the swept task is requeued
    by the operator and fails again, several times over. *)
Definition requeue_and_fail (w : World) : World :=
  dbClient.set_response_status "r1" failed
    (after (taskEnqueue.requeueFailedResponse "r1" "manual_retry") w).

Definition requeued_four_times : World :=
  requeue_and_fail (requeue_and_fail (requeue_and_fail (requeue_and_fail (world swept)))).

(** A task that comes in with a retry count of its own. *)
Definition retried_task (retry_count : Z) : MainTask :=
  mkMainTask "task-9" "r1" "b1" "a1" "p" "some answer" "" "" [] config.DIMENSIONS ""
    500 (Some retry_count) (Some 900).

(** The task that [enqueueBatch] puts on the main queue for [one_record]. *)
Definition enqueued_task : MainTask :=
  mkMainTask "uuid-0" "r1" "b1" "a1" "p" "some answer" "" "" [] config.DIMENSIONS ""
    1000 (Some 0) None.


(** Its in-flight entry once it is dispatched. *)
Definition dispatched_info : TaskInfo := mkTaskInfo enqueued_task 1000 [] 5.

(** The world at the first call of a monitor armed at time 0 that comes
    after the deadline of that task. *)
Definition at_first_sweep : World := world (at_time 360000 dispatched_one).

(** Scenario "cap of one": two records are enqueued and the dispatch loop
    runs with [maxConcurrentTasks = 1]. *)
Definition capped : System := mkSystem (enqueued two_records 1) AtGuard [].

(** The first task is dispatched and waits for its results; the loop has
    tested its guard again and is about to pop. *)
Definition capped_before_second_pop : System :=
  exec [EvGuard; EvPop; EvDispatch 0%nat; EvGuard] capped.

Definition capped_after_second_dispatch : System :=
  exec [EvPop; EvDispatch 0%nat] capped_before_second_pop.

End Examples.

(** ** Further concrete inputs *)

Module Scenarios.


(** A batch whose only record has just been enqueued. *)
Definition fresh_batch : World := Examples.enqueued Examples.one_record 10.

(** The orchestrator runs while four retried tasks sit on the legacy
    queue. *)
Definition with_retries : System := mkSystem Examples.requeued_four_times AtGuard [].

Definition some_events : list Event :=
  [EvGuard; EvPop; EvCollect; EvSweep; EvGuard; EvPop; EvDispatch 0%nat].

(** The orchestrator object before [start], with a broker that fails the
    next call. *)
Definition before_start : World :=
  with_faults [true]
    (with_this (set_isRunning false) (Examples.world_with Examples.one_record 10)).

(** Four results of the mixed scenario are stored; the fifth has just
    been taken off the results queue. *)
Definition before_fifth : World :=
  snd (redisClient.popDimensionResult 1
         (world (Examples.collected 4 Examples.mixed_answered))).

Definition fifth_result : DimensionResult :=
  match fst (redisClient.popDimensionResult 1
               (world (Examples.collected 4 Examples.mixed_answered))) with
  | Ok (Some r) => r
  | _ => Examples.raw_result
  end.

(** The entry of the task in the in-flight table at that point. *)
Definition fifth_info : TaskInfo :=
  default Examples.dispatched_info (activeTasks (this before_fifth) !! "uuid-0").

End Scenarios.

(** * Properties *)

(** ** Running the monad when no call fails *)

Lemma io_no_fault {A} (op : M A) (w : World) :
  faults w = [] -> io op w = op w.
Proof. intros H. unfold io. now rewrite H. Qed.

(** ** The scoring loop in closed form *)

Section Aggregation.

Import masterOrchestrator.

Variable h : Hash.

Lemma weight_of_pos (d : string) : (0 < weight_of d)%Q.
Proof.
  unfold weight_of, config.DEFAULT_WEIGHTS.
  repeat (destruct (String.eqb d _); [reflexivity|]). reflexivity.
Qed.

Lemma aggregate_finalScore (ds : list string) (a : Aggregate) :
  (finalScore (fold_left (aggregate_dimension h) ds a) ==
   finalScore a
   + Qsum (map (fun d => stored_score h d * weight_of d) (List.filter (has_result h) ds)))%Q.
Proof.
  revert a. induction ds as [|d ds IH]; intros a; simpl.
  - ring.
  - rewrite IH. unfold aggregate_dimension, has_result, stored_score.
    destruct (hGet h d) as [r|] eqn:E; simpl.
    + unfold stored_score. rewrite E. ring.
    + ring.
Qed.

Lemma aggregate_totalWeight (ds : list string) (a : Aggregate) :
  (totalWeight (fold_left (aggregate_dimension h) ds a) ==
   totalWeight a + Qsum (map weight_of (List.filter (has_result h) ds)))%Q.
Proof.
  revert a. induction ds as [|d ds IH]; intros a; simpl.
  - ring.
  - rewrite IH. unfold aggregate_dimension, has_result.
    destruct (hGet h d) as [r|] eqn:E; simpl; ring.
Qed.

Lemma Qsum_weights_nonneg (ds : list string) : (0 <= Qsum (map weight_of ds))%Q.
Proof.
  induction ds as [|d ds IH]; simpl; [apply Qle_refl|].
  pose proof (weight_of_pos d).
  apply Qle_trans with (0 + 0)%Q; [apply Qle_refl|].
  apply Qplus_le_compat; [now apply Qlt_le_weak | exact IH].
Qed.

Lemma Qsum_weights_pos (ds : list string) :
  ds <> [] -> (0 < Qsum (map weight_of ds))%Q.
Proof.
  destruct ds as [|d ds]; [congruence|]. intros _. simpl.
  pose proof (weight_of_pos d). pose proof (Qsum_weights_nonneg ds).
  apply Qlt_le_trans with (weight_of d + 0)%Q.
  - now rewrite Qplus_0_r.
  - apply Qplus_le_compat; [apply Qle_refl | assumption].
Qed.

(** The normalised score is the weighted mean over the dimensions that
    have a stored result, whenever there is one. *)
Lemma normalize_aggregate :
  List.filter (has_result h) config.DIMENSIONS <> [] ->
  (normalize (aggregate h) == present_final_score h)%Q.
Proof.
  intros Hne. unfold normalize, aggregate, aggregate_over.
  pose proof (aggregate_totalWeight config.DIMENSIONS (mkAggregate 0 0 ∅ false [])) as HW.
  pose proof (aggregate_finalScore config.DIMENSIONS (mkAggregate 0 0 ∅ false [])) as HF.
  cbn [totalWeight finalScore] in HW, HF.
  rewrite Qplus_0_l in HW, HF.
  destruct (Qlt_le_dec 0 _) as [Hpos|Hle].
  - unfold present_final_score, weighted_mean. now rewrite HW, HF.
  - exfalso. rewrite HW in Hle.
    pose proof (Qsum_weights_pos _ Hne) as Hp.
    exact (Qlt_not_le _ _ Hp Hle).
Qed.

End Aggregation.

(** ** Running the functions step by step *)

Lemma bind_ok {A B} (m : M A) (k : A -> M B) w a w' :
  m w = (Ok a, w') -> bind m k w = k a w'.
Proof. intros H. unfold bind. now rewrite H. Qed.

Lemma bind_throw {A B} (m : M A) (k : A -> M B) w e w' :
  m w = (Throw e, w') -> bind m k w = (Throw e, w').
Proof. intros H. unfold bind. now rewrite H. Qed.

Lemma try_catch_ok {A} (m : M A) h w a w' :
  m w = (Ok a, w') -> try_catch m h w = (Ok a, w').
Proof. intros H. unfold try_catch. now rewrite H. Qed.

Lemma try_catch_throw {A} (m : M A) h w e w' :
  m w = (Throw e, w') -> try_catch m h w = h e w'.
Proof. intros H. unfold try_catch. now rewrite H. Qed.

Lemma run_modify f w : faults w = [] -> io (modify f) w = (Ok tt, f w).
Proof. intros H. now rewrite io_no_fault. Qed.

Lemma run_get {A} (f : World -> A) w : faults w = [] -> io (get f) w = (Ok (f w), w).
Proof. intros H. now rewrite io_no_fault. Qed.

Lemma bind_ok_then {A B} (m : M A) (k : A -> M B) w a w' r :
  m w = (Ok a, w') -> k a w' = r -> bind m k w = r.
Proof. intros H <-. now apply bind_ok. Qed.

Lemma bind_throw_then {A B} (m : M A) (k : A -> M B) w a w' e w'' :
  m w = (Ok a, w') -> k a w' = (Throw e, w'') -> bind m k w = (Throw e, w'').
Proof. intros H1 H2. erewrite bind_ok by exact H1. exact H2. Qed.

(** Take one [await]: run the first call with [tac], continue with the rest. *)
Ltac await_ok tac := eapply bind_ok_then; [ tac | cbv beta ].

Ltac by_modify := first [ apply run_modify | reflexivity ]; assumption.

Lemma run_connect w : faults w = [] -> redisClient.connect w = (Ok tt, w).
Proof. intros Hf. unfold redisClient.connect. now rewrite io_no_fault. Qed.

Section RunningClients.

Variable w : World.
Hypothesis no_fault : faults w = [].

Lemma run_getPartialResults taskId :
  redisClient.getPartialResults taskId w
  = (Ok (redisClient.hash_of w (redisClient.results_key taskId)), w).
Proof. unfold redisClient.getPartialResults. now rewrite io_no_fault. Qed.

Lemma run_deletePartialResults taskId :
  redisClient.deletePartialResults taskId w
  = (Ok tt, redisClient.del_results (redisClient.results_key taskId) w).
Proof. now apply run_modify. Qed.

Lemma run_setWorkerStatus wid st :
  redisClient.setWorkerStatus wid st w = (Ok tt, redisClient.set_status_key wid st w).
Proof. now apply run_modify. Qed.

Lemma run_pushToQueue q t :
  redisClient.pushToQueue q t w
  = (Ok (redisClient.lLen q (redisClient.rPush q t w)), redisClient.rPush q t w).
Proof. unfold redisClient.pushToQueue. now rewrite io_no_fault. Qed.

Lemma run_getResponseById rid :
  dbClient.getResponseById rid w = (Ok (responses (store w) !! rid), w).
Proof. unfold dbClient.getResponseById. now rewrite io_no_fault. Qed.

Lemma run_updateResponseStatus rid st :
  dbClient.updateResponseStatus rid st w = (Ok tt, dbClient.set_response_status rid st w).
Proof. now apply run_modify. Qed.

Lemma run_updateBatchStatus bid st p :
  dbClient.updateBatchStatus bid st p w = (Ok tt, dbClient.set_batch_status bid st p w).
Proof. now apply run_modify. Qed.

Lemma run_insertEvaluation e :
  has_evaluation w (ev_response_id e) = false ->
  dbClient.insertEvaluation e w = (Ok tt, dbClient.add_evaluation e w).
Proof.
  intros H. unfold dbClient.insertEvaluation. rewrite io_no_fault by assumption.
  unfold has_evaluation in H. now rewrite H.
Qed.

Lemma run_insertEvaluation_conflict e :
  has_evaluation w (ev_response_id e) = true ->
  dbClient.insertEvaluation e w = (Throw DuplicateKey, w).
Proof.
  intros H. unfold dbClient.insertEvaluation. rewrite io_no_fault by assumption.
  unfold has_evaluation in H. now rewrite H.
Qed.

Lemma run_getBatchProgress bid :
  dbClient.getBatchProgress bid w
  = (Ok (dbClient.progress_of
           (dbClient.group_by_status (dbClient.match_batch bid (responses (store w))))), w).
Proof.
  unfold dbClient.getBatchProgress.
  await_ok ltac:(rewrite io_no_fault by assumption; reflexivity). reflexivity.
Qed.

Lemma run_updateBatchProgress bid :
  masterOrchestrator.updateBatchProgress bid w = (Ok tt, batch_projected bid w).
Proof.
  unfold masterOrchestrator.updateBatchProgress. apply try_catch_ok.
  await_ok ltac:(apply run_getBatchProgress).
  unfold batch_projected.
  destruct (_ && _); now apply run_updateBatchStatus.
Qed.

End RunningClients.

(** ** The two ways a finalisation ends *)

Section Finalisation.

Import masterOrchestrator.

Variable w : World.
Variable taskId : string.
Variable taskInfo : option TaskInfo.
Hypothesis no_fault : faults w = [].

Let h := redisClient.hash_of w (redisClient.results_key taskId).

Hypothesis complete : 5 <= hLen h.
Hypothesis known : truthy (resolved_response_id taskInfo h) = true.

(** The part of [finalizeTaskWithInfo] up to the settled record id. *)
Ltac run_prefix :=
  await_ok ltac:(now apply run_getPartialResults); fold h;
  replace (Z.ltb (hLen h) (Z.of_nat (length config.DIMENSIONS))) with false
    by (symmetry; apply Z.ltb_ge; simpl; lia);
  cbv zeta;
  replace (if negb (truthy (task_field mt_response_id taskInfo))
           then response_id_of_results h else task_field mt_response_id taskInfo)
    with (resolved_response_id taskInfo h)
    by (unfold resolved_response_id;
        destruct (truthy (task_field mt_response_id taskInfo)); reflexivity);
  rewrite known; cbn [negb].

Lemma run_resolve_ids :
  (if negb (truthy (task_field mt_batch_id taskInfo))
      || negb (truthy (task_field mt_agent_id taskInfo))
   then
     await response <- dbClient.getResponseById (resolved_response_id taskInfo h);
     match response with
     | Some r => ret (rs_batch_id r, rs_agent_id r)
     | None => ret (task_field mt_batch_id taskInfo, task_field mt_agent_id taskInfo)
     end
   else ret (task_field mt_batch_id taskInfo, task_field mt_agent_id taskInfo)) w
  = (Ok (resolved_ids taskInfo (resolved_response_id taskInfo h) w), w).
Proof.
  unfold resolved_ids. destruct (_ || _); [|reflexivity].
  await_ok ltac:(now apply run_getResponseById).
  now destruct (responses (store w) !! _).
Qed.

(** No evaluation of the record is stored yet: the evaluation is written
    and the task is cleaned up. *)
Lemma finalize_writes :
  has_evaluation w (resolved_response_id taskInfo h) = false ->
  finalizeTaskWithInfo taskId taskInfo w = (Ok tt, finalized taskId taskInfo w).
Proof.
  intros Hnew. unfold finalizeTaskWithInfo. apply try_catch_ok.
  run_prefix.
  await_ok ltac:(apply run_resolve_ids).
  await_ok ltac:(reflexivity). await_ok ltac:(reflexivity).
  await_ok ltac:(apply run_insertEvaluation; assumption).
  await_ok ltac:(apply run_updateResponseStatus; exact no_fault).
  await_ok ltac:(apply run_updateBatchProgress; exact no_fault).
  await_ok ltac:(reflexivity).
  now apply run_deletePartialResults.
Qed.

(** An evaluation of the record is already stored: the insert is
    rejected and the [catch] block runs. *)
Lemma finalize_conflict :
  has_evaluation w (resolved_response_id taskInfo h) = true ->
  finalizeTaskWithInfo taskId taskInfo w = (Ok tt, finalize_caught taskId taskInfo w).
Proof.
  intros Hold. unfold finalizeTaskWithInfo.
  erewrite try_catch_throw.
  2:{ run_prefix.
      await_ok ltac:(apply run_resolve_ids).
      await_ok ltac:(reflexivity). await_ok ltac:(reflexivity).
      eapply bind_throw. apply run_insertEvaluation_conflict; assumption. }
  unfold finalize_caught.
  destruct (truthy (task_field mt_response_id taskInfo)).
  - await_ok ltac:(apply run_updateResponseStatus; exact no_fault).
    await_ok ltac:(reflexivity).
    now apply run_deletePartialResults.
  - await_ok ltac:(reflexivity). await_ok ltac:(reflexivity).
    now apply run_deletePartialResults.
Qed.

End Finalisation.

(** The record id cannot be determined: the finaliser returns before the
    insert and leaves everything as it is. *)
Lemma finalize_unknown (w : World) (taskId : string) (taskInfo : option TaskInfo) :
  faults w = [] ->
  truthy (resolved_response_id taskInfo
            (redisClient.hash_of w (redisClient.results_key taskId))) = false ->
  masterOrchestrator.finalizeTaskWithInfo taskId taskInfo w = (Ok tt, w).
Proof.
  intros Hf Hrid. unfold masterOrchestrator.finalizeTaskWithInfo. apply try_catch_ok.
  await_ok ltac:(now apply run_getPartialResults).
  destruct (Z.ltb _ _); [reflexivity|].
  cbv zeta. unfold resolved_response_id in Hrid.
  destruct (truthy (masterOrchestrator.task_field mt_response_id taskInfo)) eqn:E;
    cbn [negb]; rewrite Hrid; reflexivity.
Qed.

Lemma resolved_of_results (h : Hash) :
  resolved_response_id None h = masterOrchestrator.response_id_of_results h.
Proof. reflexivity. Qed.

Lemma response_id_of_results_none (h : Hash) :
  (forall fr, In fr h -> truthy (obj_get (pr_details (snd fr)) "response_id") = false) ->
  truthy (masterOrchestrator.response_id_of_results h) = false.
Proof.
  intros Hnone. unfold masterOrchestrator.response_id_of_results.
  destruct (List.find _ h) as [fr|] eqn:E; [|reflexivity].
  apply find_some in E. destruct E as [Hin _]. now apply Hnone.
Qed.

(** ** What the scoring loop records per dimension *)

Section AggregationRecords.

Import masterOrchestrator.

Variable h : Hash.

Lemma aggregate_scores (ds : list string) (a : Aggregate) (d : string) :
  scores (fold_left (aggregate_dimension h) ds a) !! d
  = if bool_decide (d ∈ ds) then Some (stored_score h d) else scores a !! d.
Proof.
  revert a. induction ds as [|x ds IH]; intros a; simpl.
  - reflexivity.
  - rewrite IH.
    assert (Hx : scores (aggregate_dimension h a x)
                 = <[x := stored_score h x]> (scores a)).
    { unfold aggregate_dimension, stored_score. now destruct (hGet h x). }
    rewrite Hx.
    destruct (bool_decide (d ∈ ds)) eqn:Hin.
    + apply bool_decide_eq_true in Hin.
      rewrite bool_decide_eq_true_2 by (now apply elem_of_cons; right). reflexivity.
    + apply bool_decide_eq_false in Hin.
      destruct (decide (x = d)) as [->|Hne].
      * rewrite lookup_insert_eq.
        rewrite bool_decide_eq_true_2 by (now apply elem_of_cons; left). reflexivity.
      * rewrite lookup_insert_ne by assumption.
        rewrite bool_decide_eq_false_2; [reflexivity|].
        intros [?|?]%elem_of_cons; congruence.
Qed.

Lemma aggregate_allErrors (ds : list string) (a : Aggregate) :
  allErrors (fold_left (aggregate_dimension h) ds a)
  = (allErrors a ++ omap (error_entry h) ds)%list.
Proof.
  revert a. induction ds as [|x ds IH]; intros a; simpl.
  - now rewrite app_nil_r.
  - rewrite IH. unfold aggregate_dimension, error_entry.
    destruct (hGet h x) as [r|]; simpl.
    + destruct (pr_error r) as [e|]; [destruct (truthy e)|]; simpl;
        now rewrite <- ?app_assoc.
    + now rewrite <- app_assoc.
Qed.

Lemma aggregate_hasErrors (ds : list string) (a : Aggregate) :
  (hasErrors a = false -> allErrors a = []) ->
  hasErrors (fold_left (aggregate_dimension h) ds a) = false ->
  allErrors (fold_left (aggregate_dimension h) ds a) = [].
Proof.
  revert a. induction ds as [|x ds IH]; intros a Ha; simpl; [exact Ha|].
  apply IH. unfold aggregate_dimension.
  destruct (hGet h x) as [r|]; simpl; [|discriminate].
  destruct (pr_error r) as [e|]; [destruct (truthy e)|]; simpl;
    solve [discriminate | exact Ha].
Qed.

(** The list written as [processing_errors]: one entry per dimension
    that is missing or carries an error, in the order of the dimensions. *)
Lemma processing_errors_of_aggregate :
  (if hasErrors (aggregate h) then allErrors (aggregate h) else [])
  = omap (error_entry h) config.DIMENSIONS.
Proof.
  pose proof (aggregate_allErrors config.DIMENSIONS (mkAggregate 0 0 ∅ false [])) as HA.
  pose proof (aggregate_hasErrors config.DIMENSIONS (mkAggregate 0 0 ∅ false [])
                (fun _ => eq_refl)) as HH.
  unfold aggregate, aggregate_over.
  cbn [allErrors app] in HA.
  destruct (hasErrors (fold_left _ _ _)).
  - exact HA.
  - rewrite <- HA. symmetry. now apply HH.
Qed.

End AggregationRecords.

(** ** Reading the world after a finalisation *)

Lemma status_after_set (w : World) (responseId : string) (st : Status) :
  status_of (dbClient.set_response_status responseId st w) responseId
  = (fun _ => st) <$> status_of w responseId.
Proof.
  unfold status_of, dbClient.set_response_status. cbn.
  rewrite lookup_alter_eq. now destruct (responses (store w) !! responseId).
Qed.

Lemma status_after_set_other (w : World) (responseId other : string) (st : Status) :
  responseId <> other ->
  status_of (dbClient.set_response_status responseId st w) other = status_of w other.
Proof.
  intros Hne. unfold status_of, dbClient.set_response_status. cbn.
  now rewrite lookup_alter_ne.
Qed.

Lemma finalized_status (w : World) (taskId : string) (taskInfo : option TaskInfo) :
  status_of (finalized taskId taskInfo w)
    (resolved_response_id taskInfo (redisClient.hash_of w (redisClient.results_key taskId)))
  = (fun _ => completed)
      <$> status_of w
            (resolved_response_id taskInfo
               (redisClient.hash_of w (redisClient.results_key taskId))).
Proof.
  unfold finalized. cbv zeta.
  change (status_of (redisClient.del_results ?k (masterOrchestrator.drop_task ?t
            (batch_projected ?b ?w0))) ?r) with (status_of w0 r).
  cbn [evaluation_of ev_response_id].
  rewrite status_after_set. reflexivity.
Qed.

Lemma caught_status (w : World) (taskId : string) (ti : TaskInfo) :
  truthy (mt_response_id (ti_mainTask ti)) = true ->
  status_of (finalize_caught taskId (Some ti) w) (mt_response_id (ti_mainTask ti))
  = (fun _ => failed) <$> status_of w (mt_response_id (ti_mainTask ti)).
Proof.
  intros Ht. unfold finalize_caught. cbn [masterOrchestrator.task_field]. rewrite Ht.
  change (status_of (redisClient.del_results ?k (masterOrchestrator.drop_task ?t ?w0)) ?r)
    with (status_of w0 r).
  apply status_after_set.
Qed.

Lemma has_error_entry (h : Hash) (d : string) :
  has_error h d = true -> is_Some (error_entry h d).
Proof.
  unfold has_error, error_entry. destruct (hGet h d) as [r|]; [|discriminate].
  destruct (pr_error r) as [e|]; [|discriminate]. intros ->. eauto.
Qed.

Lemma has_error_result (h : Hash) (d : string) :
  has_error h d = true -> has_result h d = true.
Proof. unfold has_error, has_result. now destruct (hGet h d). Qed.

Lemma omap_all_Some {A B} (f : A -> option B) (l : list A) :
  (forall x, x ∈ l -> is_Some (f x)) -> length (omap f l) = length l.
Proof.
  induction l as [|x l IH]; intros H; simpl; [reflexivity|].
  destruct (H x) as [y Hy]; [now left|]. rewrite Hy. simpl. f_equal.
  apply IH. intros z Hz. apply H. now right.
Qed.

Lemma filter_all_true {A} (f : A -> bool) (l : list A) :
  (forall x, x ∈ l -> f x = true) -> List.filter f l = l.
Proof.
  induction l as [|x l IH]; intros H; simpl; [reflexivity|].
  rewrite H by now left. f_equal. apply IH. intros z Hz. apply H. now right.
Qed.

Lemma Qsum_zero_scores (h : Hash) (ds : list string) :
  (forall d, d ∈ ds -> (stored_score h d == 0)%Q) ->
  (Qsum (map (fun d => stored_score h d * masterOrchestrator.weight_of d)%Q ds) == 0)%Q.
Proof.
  induction ds as [|d ds IH]; intros H; simpl; [reflexivity|].
  rewrite (H d) by now left. rewrite IH by (intros z Hz; apply H; now right). ring.
Qed.

(** ** The partial-result hash *)

Lemma hGet_hSet (h : Hash) (field : string) (v : PartialResult) :
  hGet (hSet h field v) field = Some v.
Proof.
  induction h as [|[f v'] h IH]; simpl.
  - now rewrite String.eqb_refl.
  - destruct (String.eqb f field) eqn:E; simpl; rewrite E; [reflexivity | exact IH].
Qed.

Lemma run_setPartialResult (w : World) (taskId dimension : string) (p : PartialResult) :
  faults w = [] ->
  redisClient.setPartialResult taskId dimension p w
  = (Ok (hLen (redisClient.hash_of
                 (redisClient.hSet_results (redisClient.results_key taskId) dimension p w)
                 (redisClient.results_key taskId))),
     redisClient.hSet_results (redisClient.results_key taskId) dimension p w).
Proof.
  intros Hf. unfold redisClient.setPartialResult. cbv zeta.
  await_ok ltac:(apply run_modify; exact Hf).
  await_ok ltac:(rewrite io_no_fault by exact Hf; reflexivity).
  rewrite io_no_fault by exact Hf. reflexivity.
Qed.

Lemma stored_partial (w : World) (taskId dimension : string) (p : PartialResult) :
  faults w = [] ->
  hGet (redisClient.hash_of (snd (redisClient.setPartialResult taskId dimension p w))
          (redisClient.results_key taskId)) dimension = Some p.
Proof.
  intros Hf. rewrite run_setPartialResult by exact Hf. cbn [snd].
  unfold redisClient.hash_of at 1, redisClient.hSet_results. cbn.
  rewrite lookup_insert_eq. cbn. apply hGet_hSet.
Qed.


(** ** Finalising without in-flight information *)

(** When the task is not in the in-flight table, the record id can only
    come from the [details] of a stored result; if none carries one, the
    finaliser returns without writing anything, however complete the hash
    is. *)
Lemma finalizeTaskById_drops (w : World) (taskId : string) :
  faults w = [] ->
  masterOrchestrator.response_id_of_results
    (redisClient.hash_of w (redisClient.results_key taskId)) = "" ->
  masterOrchestrator.finalizeTaskById taskId w = (Ok tt, w).
Proof.
  intros Hf Hnone. unfold masterOrchestrator.finalizeTaskById.
  await_ok ltac:(now apply run_getPartialResults).
  destruct (Z.eqb _ 0); [reflexivity|].
  unfold masterOrchestrator.finalizeTaskWithInfo. apply try_catch_ok.
  await_ok ltac:(now apply run_getPartialResults).
  destruct (Z.ltb _ _); [reflexivity|].
  cbv zeta. cbn [masterOrchestrator.task_field truthy String.eqb negb].
  rewrite Hnone. reflexivity.
Qed.

(** ** What a worker sends *)

Lemma run_pushDimensionResult (w : World) (r : DimensionResult) :
  faults w = [] ->
  exists len w',
    redisClient.pushDimensionResult r w = (Ok len, w') /\
    results_queue w' = (results_queue w ++ [r])%list.
Proof.
  intros Hf. unfold redisClient.pushDimensionResult, redisClient.pushToQueue_result.
  rewrite io_no_fault by exact Hf. do 2 eexists. split; [reflexivity|].
  unfold results_queue, redisClient.list_of at 1. cbn. now rewrite lookup_insert_eq.
Qed.

(** When the broker answers, [processTask] sends exactly one message: the
    result of the run, or the error result that replaces it. *)
Lemma processTask_sends (w : World) (dimension workerId : string) (task : DimensionTask)
    (run : PythonRun) :
  faults w = [] ->
  results_queue (snd (dimensionWorker.processTask dimension workerId task run w))
  = (results_queue w ++ [dimensionWorker.result_of_run dimension workerId task run])%list.
Proof.
  intros Hf. unfold dimensionWorker.processTask, dimensionWorker.result_of_run.
  destruct (dimensionWorker.runPythonWorker dimension run) as [[score details]|message].
  - destruct (run_pushDimensionResult (redisClient.set_status_key workerId "processing" w)
                (dimensionWorker.resultData dimension workerId task score details) Hf)
      as (len & w' & Hpush & Hq).
    erewrite try_catch_ok.
    2:{ await_ok ltac:(now apply run_setWorkerStatus).
        await_ok ltac:(exact Hpush). reflexivity. }
    exact Hq.
  - destruct (run_pushDimensionResult (redisClient.set_status_key workerId "processing" w)
                (dimensionWorker.errorResult dimension workerId task message) Hf)
      as (len & w' & Hpush & Hq).
    erewrite try_catch_throw.
    2:{ eapply bind_throw_then; [now apply run_setWorkerStatus | reflexivity]. }
    erewrite bind_ok by exact Hpush. exact Hq.
Qed.

(** ** Pushing onto a queue *)

Lemma list_of_rPush (w : World) (q : string) (t : MainTask) :
  redisClient.list_of (task_lists (broker (redisClient.rPush q t w))) q
  = (redisClient.list_of (task_lists (broker w)) q ++ [t])%list.
Proof.
  unfold redisClient.rPush. cbn. unfold redisClient.list_of at 1.
  now rewrite lookup_insert_eq.
Qed.

Lemma lLen_rPush (w : World) (q : string) (t : MainTask) :
  redisClient.lLen q (redisClient.rPush q t w) = redisClient.lLen q w + 1.
Proof.
  unfold redisClient.lLen. rewrite list_of_rPush, length_app. simpl. lia.
Qed.

Lemma rPush_truthy (w : World) (q : string) (t : MainTask) :
  push_truthy (Pushed (redisClient.lLen q (redisClient.rPush q t w))) = true.
Proof.
  rewrite lLen_rPush. unfold push_truthy, redisClient.lLen.
  apply negb_true_iff, Z.eqb_neq. lia.
Qed.

(** Whatever happened to the record before, a requeue through the facade
    is accepted as soon as the retry ceiling is at least 1: the task it
    builds always starts from an absent retry count. *)
Lemma requeueFailedResponse_always_queues
    (w : World) (responseId reason : string) (r : Response) :
  faults w = [] ->
  responses (store w) !! responseId = Some r ->
  1 <= MAX_RETRIES w ->
  taskEnqueue.requeueFailedResponse responseId reason w
  = (Ok (mkRequeueReply true ""),
     dbClient.set_response_status responseId queued
       (redisClient.rPush config.TASK_QUEUE_NAME
          (redisClient.updatedTask
             (taskEnqueue.task_of responseId r (rs_batch_id r) reason (clock w)) (clock w))
          w)).
Proof.
  intros Hf Hr Hmax. unfold taskEnqueue.requeueFailedResponse. apply try_catch_ok.
  await_ok ltac:(now apply run_getResponseById). rewrite Hr.
  await_ok ltac:(reflexivity).
  erewrite bind_ok.
  2:{ unfold redisClient.requeueTask.
      await_ok ltac:(reflexivity). cbv zeta. await_ok ltac:(reflexivity).
      replace (Z.leb _ (MAX_RETRIES w)) with true
        by (symmetry; apply Z.leb_le; cbn; lia).
      await_ok ltac:(now apply run_pushToQueue). reflexivity. }
  rewrite rPush_truthy.
  await_ok ltac:(apply run_updateResponseStatus; exact Hf). reflexivity.
Qed.

(** ** Requeueing on the main queue *)

Lemma io_fault {A} (op : M A) (w : World) (fs : list bool) :
  faults w = true :: fs -> io op w = (Throw IoError, with_faults fs w).
Proof. intros H. unfold io. now rewrite H. Qed.

Lemma run_addMainTask (w : World) (taskData : MainTask) :
  faults w = [] ->
  truthy (mt_task_id taskData) = true ->
  redisClient.addMainTask taskData w
  = (Ok (redisClient.lLen config.MAIN_QUEUE_NAME
           (redisClient.rPush config.MAIN_QUEUE_NAME
              (mkMainTask (mt_task_id taskData) (mt_response_id taskData)
                 (mt_batch_id taskData) (mt_agent_id taskData) (mt_prompt taskData)
                 (mt_response_text taskData) (mt_context taskData)
                 (mt_reference taskData) (mt_metadata taskData)
                 (mt_dimensions taskData) (mt_retry_reason taskData)
                 (clock w) (Some 0) (mt_last_retry_at taskData)) w)),
     redisClient.rPush config.MAIN_QUEUE_NAME
       (mkMainTask (mt_task_id taskData) (mt_response_id taskData)
          (mt_batch_id taskData) (mt_agent_id taskData) (mt_prompt taskData)
          (mt_response_text taskData) (mt_context taskData)
          (mt_reference taskData) (mt_metadata taskData)
          (mt_dimensions taskData) (mt_retry_reason taskData)
          (clock w) (Some 0) (mt_last_retry_at taskData)) w).
Proof.
  intros Hf Hid. unfold redisClient.addMainTask. rewrite Hid.
  await_ok ltac:(reflexivity). await_ok ltac:(reflexivity).
  now apply run_pushToQueue.
Qed.




Lemma main_queue_rPush (w : World) (t : MainTask) :
  main_queue (redisClient.rPush config.MAIN_QUEUE_NAME t w) = (main_queue w ++ [t])%list.
Proof. apply list_of_rPush. Qed.

Lemma pushToQueue_inv (w w' : World) (q : string) (t : MainTask) (len : Z) :
  redisClient.pushToQueue q t w = (Ok len, w') ->
  exists fs, w' = redisClient.rPush q t (with_faults fs w).
Proof.
  unfold redisClient.pushToQueue, io.
  destruct (faults w) as [|[|] fs] eqn:Hf; intros H; inversion H; subst.
  - exists []. destruct w; cbn in *; now subst.
  - now exists fs.
Qed.

Lemma truthy_uuid (n : nat) : truthy (uuid_of n) = true.
Proof. reflexivity. Qed.

(** Whatever task data come in, the task that [addMainTask] appends has
    retry count 0 and an identifier. *)
Lemma addMainTask_resets (w w' : World) (taskData : MainTask) (len : Z) :
  redisClient.addMainTask taskData w = (Ok len, w') ->
  exists t,
    main_queue w' = (main_queue w ++ [t])%list /\
    mt_retry_count t = Some 0 /\
    truthy (mt_task_id t) = true /\
    mt_response_id t = mt_response_id taskData.
Proof.
  unfold redisClient.addMainTask, bind.
  destruct (truthy (mt_task_id taskData)) eqn:Hid; cbn [ret uuidv4 Date_now get].
  - intros H. apply pushToQueue_inv in H as [fs ->].
    eexists. split; [rewrite main_queue_rPush; reflexivity|]. repeat split. exact Hid.
  - intros H. apply pushToQueue_inv in H as [fs ->].
    eexists. split; [rewrite main_queue_rPush; reflexivity|]. repeat split.
Qed.


(** ** One sweep of the timeout monitor *)

Lemma run_handle_timeout (w : World) (entry : string * TaskInfo) :
  faults w = [] ->
  masterOrchestrator.handle_timeout entry w = (Ok tt, swept_entry entry w).
Proof.
  intros Hf. unfold masterOrchestrator.handle_timeout, swept_entry. cbv zeta.
  apply try_catch_ok.
  destruct (truthy (mt_response_id (ti_mainTask (snd entry)))).
  - await_ok ltac:(apply run_updateResponseStatus; exact Hf).
    await_ok ltac:(reflexivity). now apply run_deletePartialResults.
  - await_ok ltac:(reflexivity). await_ok ltac:(reflexivity).
    now apply run_deletePartialResults.
Qed.

Lemma swept_entry_faults (w : World) (entry : string * TaskInfo) :
  faults (swept_entry entry w) = faults w.
Proof.
  unfold swept_entry. cbv zeta.
  now destruct (truthy (mt_response_id (ti_mainTask (snd entry)))).
Qed.

Lemma run_for_each_timeouts (entries : list (string * TaskInfo)) (w : World) :
  faults w = [] ->
  for_each entries masterOrchestrator.handle_timeout w
  = (Ok tt, fold_left (fun w e => swept_entry e w) entries w).
Proof.
  revert w. induction entries as [|e entries IH]; intros w Hf; simpl.
  - reflexivity.
  - await_ok ltac:(now apply run_handle_timeout).
    apply IH. now rewrite swept_entry_faults.
Qed.

Lemma run_checkTaskTimeouts (w : World) :
  faults w = [] ->
  masterOrchestrator.checkTaskTimeouts w
  = (Ok tt, fold_left (fun w e => swept_entry e w) (timed_out_entries w) w).
Proof.
  intros Hf. unfold masterOrchestrator.checkTaskTimeouts.
  await_ok ltac:(reflexivity). await_ok ltac:(reflexivity).
  now apply run_for_each_timeouts.
Qed.

Section Sweep.

Variable taskId : string.
Variable responseId : string.

(** What a sweep never touches: the queues and the evaluations. *)
Lemma sweep_keeps_queues (entries : list (string * TaskInfo)) (w : World) :
  let w' := fold_left (fun w e => swept_entry e w) entries w in
  task_lists (broker w') = task_lists (broker w) /\
  dimension_lists (broker w') = dimension_lists (broker w) /\
  result_lists (broker w') = result_lists (broker w) /\
  evaluations (store w') = evaluations (store w).
Proof.
  revert w. induction entries as [|e entries IH]; intros w; simpl; [tauto|].
  destruct (IH (swept_entry e w)) as (H1 & H2 & H3 & H4).
  rewrite H1, H2, H3, H4. unfold swept_entry. cbv zeta.
  now destruct (truthy (mt_response_id (ti_mainTask (snd e)))).
Qed.

Lemma swept_entry_active_None (e : string * TaskInfo) (w : World) :
  activeTasks (this w) !! taskId = None ->
  activeTasks (this (swept_entry e w)) !! taskId = None.
Proof.
  intros H. unfold swept_entry. cbv zeta.
  destruct (truthy _); cbn; apply lookup_delete_None; now right.
Qed.

Lemma swept_entry_partial_None (e : string * TaskInfo) (w : World) :
  partial_results (broker w) !! redisClient.results_key taskId = None ->
  partial_results (broker (swept_entry e w)) !! redisClient.results_key taskId = None.
Proof.
  intros H. unfold swept_entry. cbv zeta.
  destruct (truthy _); cbn; apply lookup_delete_None; now right.
Qed.

Lemma swept_entry_status (e : string * TaskInfo) (w : World) :
  status_of (swept_entry e w) responseId = status_of w responseId \/
  status_of (swept_entry e w) responseId = (fun _ => failed) <$> status_of w responseId.
Proof.
  unfold swept_entry. cbv zeta.
  destruct (truthy (mt_response_id (ti_mainTask (snd e)))); [|now left].
  change (status_of (redisClient.del_results ?k (masterOrchestrator.drop_task ?t ?w0)) ?r)
    with (status_of w0 r).
  destruct (decide (mt_response_id (ti_mainTask (snd e)) = responseId)) as [<-|Hne].
  - right. apply status_after_set.
  - left. now apply status_after_set_other.
Qed.

Lemma sweep_status (entries : list (string * TaskInfo)) (w : World) :
  let w' := fold_left (fun w e => swept_entry e w) entries w in
  status_of w' responseId = status_of w responseId \/
  status_of w' responseId = (fun _ => failed) <$> status_of w responseId.
Proof.
  revert w. induction entries as [|e entries IH]; intros w; simpl; [now left|].
  destruct (IH (swept_entry e w)) as [H|H];
    destruct (swept_entry_status e w) as [H'|H']; rewrite H, H'; auto.
  right. now destruct (status_of w responseId).
Qed.

Lemma sweep_active_None (entries : list (string * TaskInfo)) (w : World) :
  activeTasks (this w) !! taskId = None ->
  activeTasks (this (fold_left (fun w e => swept_entry e w) entries w)) !! taskId = None.
Proof.
  revert w. induction entries as [|e entries IH]; intros w H; simpl; [exact H|].
  now apply IH, swept_entry_active_None.
Qed.

Lemma sweep_partial_None (entries : list (string * TaskInfo)) (w : World) :
  partial_results (broker w) !! redisClient.results_key taskId = None ->
  partial_results (broker (fold_left (fun w e => swept_entry e w) entries w))
    !! redisClient.results_key taskId = None.
Proof.
  revert w. induction entries as [|e entries IH]; intros w H; simpl; [exact H|].
  now apply IH, swept_entry_partial_None.
Qed.

(** An entry that is swept loses its in-flight entry and its partial
    results, and its record is marked failed. *)
Lemma sweep_entry_effect (taskInfo : TaskInfo) (entries : list (string * TaskInfo))
    (w : World) :
  (taskId, taskInfo) ∈ entries ->
  mt_response_id (ti_mainTask taskInfo) = responseId ->
  truthy responseId = true ->
  let w' := fold_left (fun w e => swept_entry e w) entries w in
  activeTasks (this w') !! taskId = None /\
  partial_results (broker w') !! redisClient.results_key taskId = None /\
  status_of w' responseId = (fun _ => failed) <$> status_of w responseId.
Proof.
  intros Hin Hrid Ht. revert w.
  induction entries as [|e entries IH]; intros w; [now apply elem_of_nil in Hin|].
  apply elem_of_cons in Hin as [<-|Hin]; simpl.
  - assert (Hs : status_of (swept_entry (taskId, taskInfo) w) responseId
                 = (fun _ => failed) <$> status_of w responseId).
    { unfold swept_entry. cbn [fst snd]. rewrite Hrid, Ht.
      change (status_of (redisClient.del_results ?k (masterOrchestrator.drop_task ?t ?w0)) ?r)
        with (status_of w0 r).
      apply status_after_set. }
    split; [|split].
    + apply sweep_active_None. unfold swept_entry. cbv zeta.
      destruct (truthy _); cbn; apply lookup_delete_eq.
    + apply sweep_partial_None. unfold swept_entry. cbv zeta.
      destruct (truthy _); cbn; apply lookup_delete_eq.
    + destruct (sweep_status entries (swept_entry (taskId, taskInfo) w)) as [H|H];
        cbv zeta in H; rewrite H, Hs; [reflexivity|].
      now destruct (status_of w responseId).
  - destruct (IH Hin (swept_entry e w)) as (H1 & H2 & H3).
    split; [exact H1|]. split; [exact H2|].
    cbv zeta in H3. rewrite H3.
    destruct (swept_entry_status e w) as [H'|H']; rewrite H'; [reflexivity|].
    now destruct (status_of w responseId).
Qed.

End Sweep.

(** ** The calls of the interval timer *)

Section Timer.

Variables started_at lateness : Z.
Variable fires : nat -> Z.
Hypothesis schedule : masterOrchestrator.timeoutMonitor_schedule started_at lateness fires.

Lemma fires_grows (n : nat) :
  started_at + masterOrchestrator.SWEEP_INTERVAL + Z.of_nat n <= fires n.
Proof.
  destruct schedule as [H0 HS].
  induction n as [|n IH]; [lia|]. specialize (HS n). lia.
Qed.

(** The first call after a deadline comes within one interval, and the
    lateness of the timer, of it. *)
Lemma first_sweep_after_bound (deadline : Z) (n : nat) :
  started_at <= deadline ->
  first_sweep_after fires deadline n ->
  fires n <= deadline + masterOrchestrator.SWEEP_INTERVAL + lateness.
Proof.
  intros Harmed [_ Hfirst]. destruct schedule as [H0 HS].
  destruct n as [|n]; [lia|].
  specialize (HS n). specialize (Hfirst n ltac:(lia)). lia.
Qed.

Lemma first_sweep_after_search (deadline : Z) (k : nat) :
  (exists n, first_sweep_after fires deadline n) \/
  (forall m, (m < k)%nat -> fires m <= deadline).
Proof.
  induction k as [|k [IH|IH]]; [right; lia | now left |].
  destruct (Z_lt_le_dec deadline (fires k)) as [Hlt|Hle].
  - left. exists k. now split.
  - right. intros m Hm. destruct (Nat.eq_dec m k) as [->|]; [exact Hle|].
    apply IH. lia.
Qed.

Lemma first_sweep_after_exists (deadline : Z) :
  exists n, first_sweep_after fires deadline n.
Proof.
  destruct (first_sweep_after_search deadline (S (Z.to_nat (deadline - started_at))))
    as [H|H]; [exact H|].
  specialize (H (Z.to_nat (deadline - started_at)) ltac:(lia)).
  pose proof (fires_grows (Z.to_nat (deadline - started_at))) as Hg.
  unfold masterOrchestrator.SWEEP_INTERVAL in Hg. lia.
Qed.

End Timer.

Lemma punctual_schedule (started_at : Z) :
  masterOrchestrator.timeoutMonitor_schedule started_at 0 (punctual started_at).
Proof.
  unfold masterOrchestrator.timeoutMonitor_schedule, punctual,
    masterOrchestrator.SWEEP_INTERVAL.
  split; [simpl; lia|]. intros n. lia.
Qed.

(** ** Counting the records of a batch by status *)

Lemma group_count_step (s s' : Status) (g : list (Status * Z)) :
  group_count (dbClient.count_in_group s g) s'
  = if bool_decide (s = s') then Some (default 0 (group_count g s) + 1)
    else group_count g s'.
Proof.
  unfold group_count. induction g as [|[s0 c] g IH]; simpl.
  - destruct (bool_decide (s = s')); reflexivity.
  - destruct (bool_decide (s0 = s)) eqn:E0; simpl.
    + apply bool_decide_eq_true in E0. subst s0.
      destruct (bool_decide (s = s')); reflexivity.
    + apply bool_decide_eq_false in E0.
      destruct (bool_decide (s0 = s')) eqn:E1; simpl.
      * apply bool_decide_eq_true in E1. subst s0.
        now rewrite bool_decide_eq_false_2 by congruence.
      * exact IH.
Qed.

Lemma sum_counts_step (s : Status) (g : list (Status * Z)) :
  sum_counts (dbClient.count_in_group s g) = sum_counts g + 1.
Proof.
  induction g as [|[s0 c] g IH]; simpl; [lia|].
  destruct (bool_decide (s0 = s)); simpl; lia.
Qed.

Lemma keys_step (s : Status) (g : list (Status * Z)) :
  map fst (dbClient.count_in_group s g) = map fst g \/
  ((s ∉ map fst g) /\ map fst (dbClient.count_in_group s g) = (map fst g ++ [s])%list).
Proof.
  induction g as [|[s0 c] g IH]; cbn [dbClient.count_in_group map fst].
  - right. split; [apply not_elem_of_nil | reflexivity].
  - destruct (bool_decide (s0 = s)) eqn:E; cbn [map fst]; [now left|].
    apply bool_decide_eq_false in E.
    destruct IH as [->|[Hn ->]]; [now left|].
    right. split; [|reflexivity].
    intros [?|?]%elem_of_cons; congruence.
Qed.

Lemma NoDup_step (s : Status) (g : list (Status * Z)) :
  NoDup (map fst g) -> NoDup (map fst (dbClient.count_in_group s g)).
Proof.
  intros H. destruct (keys_step s g) as [->|[Hn ->]]; [exact H|].
  apply NoDup_app. split; [exact H|]. split.
  - intros x Hx [->|H']%elem_of_cons; [contradiction | now apply elem_of_nil in H'].
  - apply NoDup_singleton.
Qed.

Lemma group_by_status_spec (docs : list Response) (g : list (Status * Z)) :
  NoDup (map fst g) ->
  let g' := fold_left (fun g r => dbClient.count_in_group (rs_status r) g) docs g in
  NoDup (map fst g') /\
  sum_counts g' = sum_counts g + Z.of_nat (length docs) /\
  forall s, default 0 (group_count g' s) = default 0 (group_count g s) + count_status s docs.
Proof.
  revert g. induction docs as [|r docs IH]; intros g Hnd; simpl.
  - split; [exact Hnd|]. split; [lia|]. intros s. unfold count_status. simpl. lia.
  - destruct (IH (dbClient.count_in_group (rs_status r) g) (NoDup_step _ _ Hnd))
      as (H1 & H2 & H3).
    split; [exact H1|]. split.
    + cbv zeta in H2. rewrite H2, sum_counts_step. lia.
    + intros s. cbv zeta in H3. rewrite H3, group_count_step.
      unfold count_status. simpl.
      destruct (bool_decide (rs_status r = s)) eqn:E; simpl.
      * apply bool_decide_eq_true in E. subst s. lia.
      * lia.
Qed.

Lemma pGet_pSet (p : Progress) (k k' : ProgressKey) (v : Z) :
  pGet (pSet p k v) k' = if bool_decide (k = k') then Some v else pGet p k'.
Proof.
  unfold pGet. induction p as [|[k0 v0] p IH]; simpl.
  - destruct (bool_decide (k = k')); reflexivity.
  - destruct (bool_decide (k0 = k)) eqn:E0; simpl.
    + apply bool_decide_eq_true in E0. subst k0.
      destruct (bool_decide (k = k')); reflexivity.
    + apply bool_decide_eq_false in E0.
      destruct (bool_decide (k0 = k')) eqn:E1; simpl.
      * apply bool_decide_eq_true in E1. subst k0.
        now rewrite bool_decide_eq_false_2 by congruence.
      * exact IH.
Qed.

Lemma group_count_absent (g : list (Status * Z)) (s : Status) :
  s ∉ map fst g -> group_count g s = None.
Proof.
  unfold group_count. induction g as [|[s0 c] g IH]; intros Hn; simpl; [reflexivity|].
  destruct (bool_decide (s0 = s)) eqn:E.
  - apply bool_decide_eq_true in E. subst s0. exfalso. apply Hn. now left.
  - apply IH. intros H. apply Hn. now right.
Qed.

Lemma progress_fold_spec (g : list (Status * Z)) (p : Progress) :
  NoDup (map fst g) ->
  let p' := fold_left dbClient.add_result g p in
  default 0 (pGet p' PTotal) = default 0 (pGet p PTotal) + sum_counts g /\
  forall s, pGet p' (PStatus s)
            = match group_count g s with
              | Some c => Some c
              | None => pGet p (PStatus s)
              end.
Proof.
  revert p. induction g as [|[s0 c0] g IH]; intros p Hnd.
  - simpl. split; [lia | reflexivity].
  - apply NoDup_cons in Hnd as [Hn Hnd]. cbn [fold_left].
    destruct (IH (dbClient.add_result p (s0, c0)) Hnd) as [HT HS]. cbv zeta in HT, HS.
    split.
    + rewrite HT. unfold dbClient.add_result. cbn [fst snd].
      rewrite pGet_pSet. cbn [bool_decide]. rewrite bool_decide_eq_true_2 by reflexivity.
      rewrite pGet_pSet. rewrite bool_decide_eq_false_2 by discriminate.
      cbn [default sum_counts fold_right snd]. fold (sum_counts g).
      unfold default. cbn. lia.
    + intros s. rewrite HS. unfold dbClient.add_result. cbn [fst snd].
      rewrite pGet_pSet. rewrite bool_decide_eq_false_2 by discriminate.
      rewrite pGet_pSet. unfold group_count at 2. cbn [List.find fst].
      destruct (bool_decide (s0 = s)) eqn:E.
      * apply bool_decide_eq_true in E. subst s0.
        rewrite bool_decide_eq_true_2 by reflexivity.
        now rewrite (group_count_absent g s Hn).
      * apply bool_decide_eq_false in E.
        rewrite bool_decide_eq_false_2 by congruence.
        reflexivity.
Qed.


(** What [getBatchProgress] reads: every status counter is the number of
    records of the batch in that status, and [total] is their number. *)
Lemma progress_of_counts (docs : list Response) :
  let p := dbClient.progress_of (dbClient.group_by_status docs) in
  progress_count p PTotal = Z.of_nat (length docs) /\
  forall s, progress_count p (PStatus s) = count_status s docs.
Proof.
  unfold dbClient.progress_of, dbClient.group_by_status.
  destruct (group_by_status_spec docs [] (NoDup_nil_2)) as (Hnd & Hsum & Hcnt).
  cbv zeta in Hnd, Hsum, Hcnt.
  destruct (progress_fold_spec _ dbClient.empty_progress Hnd) as [HT HS].
  cbv zeta in HT, HS. cbv zeta. unfold progress_count. split.
  - rewrite HT, Hsum. reflexivity.
  - intros s. rewrite HS. specialize (Hcnt s). cbn in Hcnt.
    destruct (group_count _ s) as [c|] eqn:E; cbn in Hcnt |- *.
    + exact Hcnt.
    + transitivity 0; [now destruct s | lia].
Qed.

(** ** Frame rules for the monad *)

Section Frame.

Variable R : World -> World -> Prop.
Hypothesis R_refl : forall w, R w w.
Hypothesis R_trans : forall w1 w2 w3, R w1 w2 -> R w2 w3 -> R w1 w3.
Hypothesis R_faults : forall w fs, R w (with_faults fs w).

Lemma keeps_ret {A} (a : A) : keeps R (ret a).
Proof. intros w. apply R_refl. Qed.

Lemma keeps_throw {A} (e : Err) : keeps R (@throw A e).
Proof. intros w. apply R_refl. Qed.

Lemma keeps_get {A} (f : World -> A) : keeps R (get f).
Proof. intros w. apply R_refl. Qed.

Lemma keeps_modify (f : World -> World) : (forall w, R w (f w)) -> keeps R (modify f).
Proof. intros H w. apply H. Qed.

Lemma keeps_bind {A B} (m : M A) (k : A -> M B) :
  keeps R m -> (forall a, keeps R (k a)) -> keeps R (bind m k).
Proof.
  intros Hm Hk w. unfold bind. specialize (Hm w).
  destruct (m w) as [[a|e] w1]; cbn in *; [|exact Hm].
  eapply R_trans; [exact Hm | apply Hk].
Qed.

Lemma keeps_try_catch {A} (m : M A) (h : Err -> M A) :
  keeps R m -> (forall e, keeps R (h e)) -> keeps R (try_catch m h).
Proof.
  intros Hm Hh w. unfold try_catch. specialize (Hm w).
  destruct (m w) as [[a|e] w1]; cbn in *; [exact Hm|].
  eapply R_trans; [exact Hm | apply Hh].
Qed.

Lemma keeps_io {A} (op : M A) : keeps R op -> keeps R (io op).
Proof.
  intros Hop w. unfold io. destruct (faults w) as [|[|] fs]; cbn.
  - apply Hop.
  - apply R_faults.
  - eapply R_trans; [apply R_faults | apply Hop].
Qed.

Lemma keeps_for_each {A} (xs : list A) (body : A -> M unit) :
  (forall x, keeps R (body x)) -> keeps R (for_each xs body).
Proof.
  intros H. induction xs as [|x xs IH]; simpl.
  - apply keeps_ret.
  - apply keeps_bind; [apply H | intros _; exact IH].
Qed.

End Frame.

(** ** The counters are touched by [processMainTask] only *)

Lemma same_counters_refl (w : World) : same_counters w w.
Proof. split; reflexivity. Qed.

Lemma same_counters_trans (w1 w2 w3 : World) :
  same_counters w1 w2 -> same_counters w2 w3 -> same_counters w1 w3.
Proof. intros [H1 H2] [H3 H4]. split; congruence. Qed.

Lemma same_counters_faults (w : World) (fs : list bool) :
  same_counters w (with_faults fs w).
Proof. split; reflexivity. Qed.

Create HintDb frame.

(** Discharge [keeps same_counters m] by walking through [m]; the lemmas
    already proved for the functions it calls are in the database. *)
Ltac frame_step :=
  first
    [ solve [ auto with frame ]
    | apply (keeps_ret same_counters same_counters_refl)
    | apply (keeps_throw same_counters same_counters_refl)
    | apply (keeps_get same_counters same_counters_refl)
    | apply (keeps_modify same_counters); intros ?; split; reflexivity
    | apply (keeps_io same_counters same_counters_trans same_counters_faults)
    | apply (keeps_bind same_counters same_counters_trans); [ | intros ? ]
    | apply (keeps_try_catch same_counters same_counters_trans); [ | intros ? ]
    | apply (keeps_for_each same_counters same_counters_refl same_counters_trans);
      intros ?
    | match goal with
      | |- keeps _ (if ?c then _ else _) => destruct c
      | |- keeps _ (match ?x with _ => _ end) => destruct x
      end ].

Ltac frame := repeat frame_step.

(** The same for a call written directly as a function of the world. *)
Ltac frame_raw :=
  let w := fresh "w" in
  intros w; cbn;
  repeat match goal with
         | |- context [match ?x with _ => _ end] => destruct x; cbn
         end;
  split; reflexivity.

Lemma keeps_pushToQueue q t : keeps same_counters (redisClient.pushToQueue q t).
Proof. unfold redisClient.pushToQueue. frame; try frame_raw. Qed.

Lemma keeps_pushToQueue_dimension q t :
  keeps same_counters (redisClient.pushToQueue_dimension q t).
Proof. unfold redisClient.pushToQueue_dimension. frame; try frame_raw. Qed.

Lemma keeps_popFromQueue q timeout : keeps same_counters (redisClient.popFromQueue q timeout).
Proof. unfold redisClient.popFromQueue. frame; try frame_raw. Qed.

Lemma keeps_popFromQueue_result q timeout :
  keeps same_counters (redisClient.popFromQueue_result q timeout).
Proof. unfold redisClient.popFromQueue_result. frame; try frame_raw. Qed.

Lemma keeps_uuidv4 : keeps same_counters uuidv4.
Proof. frame_raw. Qed.

Lemma keeps_insertEvaluation e : keeps same_counters (dbClient.insertEvaluation e).
Proof. unfold dbClient.insertEvaluation. frame; try frame_raw. Qed.

#[local] Hint Resolve keeps_pushToQueue keeps_pushToQueue_dimension keeps_popFromQueue
  keeps_popFromQueue_result keeps_uuidv4 keeps_insertEvaluation : frame.

Lemma keeps_setWorkerStatus wid st : keeps same_counters (redisClient.setWorkerStatus wid st).
Proof. unfold redisClient.setWorkerStatus. frame. Qed.

Lemma keeps_updateResponseStatus rid st :
  keeps same_counters (dbClient.updateResponseStatus rid st).
Proof. unfold dbClient.updateResponseStatus. frame. Qed.

Lemma keeps_updateBatchStatus bid st p :
  keeps same_counters (dbClient.updateBatchStatus bid st p).
Proof. unfold dbClient.updateBatchStatus. frame. Qed.

Lemma keeps_getResponseById rid : keeps same_counters (dbClient.getResponseById rid).
Proof. unfold dbClient.getResponseById. frame. Qed.

Lemma keeps_getBatchProgress bid : keeps same_counters (dbClient.getBatchProgress bid).
Proof. unfold dbClient.getBatchProgress. frame. Qed.

Lemma keeps_deletePartialResults taskId :
  keeps same_counters (redisClient.deletePartialResults taskId).
Proof. unfold redisClient.deletePartialResults. frame. Qed.

Lemma keeps_getPartialResults taskId :
  keeps same_counters (redisClient.getPartialResults taskId).
Proof. unfold redisClient.getPartialResults. frame. Qed.

Lemma keeps_setPartialResult taskId d p :
  keeps same_counters (redisClient.setPartialResult taskId d p).
Proof. unfold redisClient.setPartialResult. frame. Qed.

#[local] Hint Resolve keeps_setWorkerStatus keeps_updateResponseStatus
  keeps_updateBatchStatus keeps_getResponseById keeps_getBatchProgress
  keeps_deletePartialResults keeps_getPartialResults keeps_setPartialResult : frame.

Lemma keeps_addMainTask t : keeps same_counters (redisClient.addMainTask t).
Proof. unfold redisClient.addMainTask. frame. Qed.

#[local] Hint Resolve keeps_addMainTask : frame.

Lemma keeps_requeueMainTask t : keeps same_counters (redisClient.requeueMainTask t).
Proof. unfold redisClient.requeueMainTask. frame. Qed.

#[local] Hint Resolve keeps_requeueMainTask : frame.

Lemma keeps_handleTaskFailure t e :
  keeps same_counters (masterOrchestrator.handleTaskFailure t e).
Proof. unfold masterOrchestrator.handleTaskFailure. frame. Qed.

#[local] Hint Resolve keeps_handleTaskFailure : frame.

Lemma keeps_processMainTask_try t :
  keeps same_counters (masterOrchestrator.processMainTask_try t).
Proof.
  unfold masterOrchestrator.processMainTask_try, masterOrchestrator.activeTasks_set,
    masterOrchestrator.activeTasks_delete, redisClient.addDimensionTask.
  cbv zeta. frame.
Qed.

Lemma keeps_updateBatchProgress bid :
  keeps same_counters (masterOrchestrator.updateBatchProgress bid).
Proof. unfold masterOrchestrator.updateBatchProgress. frame. Qed.

#[local] Hint Resolve keeps_updateBatchProgress : frame.

Lemma keeps_finalizeTaskWithInfo taskId taskInfo :
  keeps same_counters (masterOrchestrator.finalizeTaskWithInfo taskId taskInfo).
Proof.
  unfold masterOrchestrator.finalizeTaskWithInfo, masterOrchestrator.activeTasks_delete.
  cbv zeta. frame.
Qed.

#[local] Hint Resolve keeps_finalizeTaskWithInfo : frame.

Lemma keeps_processDimensionResult result :
  keeps same_counters (masterOrchestrator.processDimensionResult result).
Proof.
  unfold masterOrchestrator.processDimensionResult, masterOrchestrator.finalizeTask,
    masterOrchestrator.finalizeTaskById, masterOrchestrator.activeTasks_set.
  cbv zeta. frame.
Qed.

Lemma keeps_checkTaskTimeouts : keeps same_counters masterOrchestrator.checkTaskTimeouts.
Proof.
  unfold masterOrchestrator.checkTaskTimeouts, masterOrchestrator.handle_timeout,
    masterOrchestrator.activeTasks_delete.
  frame.
Qed.

Lemma keeps_getMainTask timeout : keeps same_counters (redisClient.getMainTask timeout).
Proof. unfold redisClient.getMainTask. frame; try frame_raw. Qed.

Lemma keeps_popDimensionResult timeout :
  keeps same_counters (redisClient.popDimensionResult timeout).
Proof. unfold redisClient.popDimensionResult. frame; try frame_raw. Qed.

(** ** The invariant of the dispatch loop *)

Lemma step_invariant (cap : Z) (e : Event) (s : System) :
  dispatch_invariant cap s -> dispatch_invariant cap (step e s).
Proof.
  intros H. pose proof H as (Hcap & Hrun & Hpop & Hle).
  assert (Hfin : forall w' l d,
            maxConcurrentTasks (this w') = cap ->
            runningTasks (this w') = Z.of_nat (length d) ->
            (l = AtPop -> runningTasks (this w') < cap) ->
            (0 <= cap -> runningTasks (this w') <= cap) ->
            dispatch_invariant cap (mkSystem w' l d)).
  { intros w' l d H1 H2 H3 H4. repeat split; assumption. }
  destruct e; unfold step.
  - (* the guard *)
    destruct (loop s) eqn:Hloop; [|exact H].
    destruct (negb (isRunning (this (world s)))); [exact H|].
    destruct (guard_blocks (world s)) eqn:Hg; [exact H|].
    unfold guard_blocks in Hg. apply Z.leb_gt in Hg.
    apply Hfin; try assumption. intros _. lia.
  - (* the pop *)
    destruct (loop s) eqn:Hloop; [exact H|].
    specialize (Hpop eq_refl).
    pose proof (keeps_getMainTask 5 (world s)) as [K1 K2].
    destruct (redisClient.getMainTask 5 (world s)) as [[[t|]|err] w1]; cbn [snd] in K1, K2.
    + apply Hfin; cbn.
      * congruence.
      * rewrite length_app. cbn. lia.
      * discriminate.
      * intros _. lia.
    + pose proof (keeps_setWorkerStatus (workerId (this w1)) "idle" w1) as [K3 K4].
      apply Hfin; [congruence | congruence | discriminate | intros _; lia].
    + apply Hfin; [congruence | congruence | discriminate | intros _; lia].
  - (* a pending call runs its try and finally blocks *)
    destruct (dispatching s !! i) as [t|] eqn:Hi; [|exact H].
    pose proof (keeps_processMainTask_try t (world s)) as [K1 K2].
    unfold try_finally.
    destruct (masterOrchestrator.processMainTask_try t (world s)) as [r w1].
    cbn [snd] in K1, K2. cbn [masterOrchestrator.processMainTask_finally modify snd].
    pose proof (lookup_lt_Some _ _ _ Hi) as Hlt.
    apply Hfin; cbn.
    + congruence.
    + rewrite length_delete by eauto. lia.
    + intros Hl. specialize (Hpop Hl). lia.
    + intros H0. specialize (Hle H0). lia.
  - (* a pending call reaches its finally block *)
    destruct (dispatching s !! i) as [t|] eqn:Hi; [|exact H].
    cbn [masterOrchestrator.processMainTask_finally modify snd].
    pose proof (lookup_lt_Some _ _ _ Hi) as Hlt.
    apply Hfin; cbn.
    + congruence.
    + rewrite length_delete by eauto. lia.
    + intros Hl. specialize (Hpop Hl). lia.
    + intros H0. specialize (Hle H0). lia.
  - (* the collector *)
    pose proof (keeps_popDimensionResult 1 (world s)) as [K1 K2].
    destruct (redisClient.popDimensionResult 1 (world s)) as [[[result|]|err] w1];
      cbn [snd] in K1, K2.
    + pose proof (keeps_processDimensionResult result w1) as [K3 K4].
      apply Hfin; [congruence | congruence | |].
      * intros Hl. specialize (Hpop Hl). lia.
      * intros H0. specialize (Hle H0). lia.
    + apply Hfin; [congruence | congruence | |].
      * intros Hl. specialize (Hpop Hl). lia.
      * intros H0. specialize (Hle H0). lia.
    + apply Hfin; [congruence | congruence | |].
      * intros Hl. specialize (Hpop Hl). lia.
      * intros H0. specialize (Hle H0). lia.
  - (* the timeout monitor *)
    pose proof (keeps_checkTaskTimeouts (world s)) as [K1 K2].
    apply Hfin; [congruence | congruence | |].
    + intros Hl. specialize (Hpop Hl). lia.
    + intros H0. specialize (Hle H0). lia.
  - (* elsewhere *)
    apply Hfin; cbn; assumption.
Qed.

Lemma exec_invariant (cap : Z) (trace : list Event) (s : System) :
  dispatch_invariant cap s -> dispatch_invariant cap (exec trace s).
Proof.
  revert s. induction trace as [|e trace IH]; intros s H; [exact H|].
  apply IH. now apply step_invariant.
Qed.

(** * Further properties of the code *)

(** ** Bounds of the weighted sums *)

Lemma Qsum_weighted_bounds (h : Hash) (ds : list string) :
  (forall d, d ∈ ds -> (0 <= stored_score h d <= 1)%Q) ->
  (0 <= Qsum (map (fun d => stored_score h d * masterOrchestrator.weight_of d) ds)
   <= Qsum (map masterOrchestrator.weight_of ds))%Q.
Proof.
  induction ds as [|d ds IH]; intros Hr; simpl.
  - split; apply Qle_refl.
  - destruct (Hr d) as [H0 H1]; [left|].
    destruct IH as [I0 I1]; [intros d' Hd'; apply Hr; now right|].
    pose proof (weight_of_pos d) as Hw. apply Qlt_le_weak in Hw.
    split.
    + replace 0%Q with (0 + 0)%Q by reflexivity.
      apply Qplus_le_compat; [now apply Qmult_le_0_compat | exact I0].
    + apply Qplus_le_compat; [|exact I1].
      apply Qle_trans with (1 * masterOrchestrator.weight_of d)%Q;
        [now apply Qmult_le_compat_r | rewrite Qmult_1_l; apply Qle_refl].
Qed.

Lemma stored_scores_of_filter (h : Hash) (P : Q -> Prop) :
  (forall d, d ∈ config.DIMENSIONS -> P (stored_score h d)) ->
  forall d, d ∈ List.filter (has_result h) config.DIMENSIONS -> P (stored_score h d).
Proof.
  intros H d Hd. apply H. apply list_elem_of_In in Hd. apply filter_In in Hd.
  apply list_elem_of_In. tauto.
Qed.

Lemma normalize_in_range (h : Hash) :
  (forall d, d ∈ config.DIMENSIONS -> (0 <= stored_score h d <= 1)%Q) ->
  (0 <= masterOrchestrator.normalize (masterOrchestrator.aggregate h) <= 1)%Q.
Proof.
  intros Hr. unfold masterOrchestrator.normalize.
  destruct (Qlt_le_dec 0 _) as [Hpos|_]; [|split; [apply Qle_refl | discriminate]].
  pose proof (Qsum_weighted_bounds h (List.filter (has_result h) config.DIMENSIONS)
                (stored_scores_of_filter h (fun q => (0 <= q <= 1)%Q) Hr)) as [B0 B1].
  unfold masterOrchestrator.aggregate, masterOrchestrator.aggregate_over in *.
  pose proof (aggregate_finalScore h config.DIMENSIONS
                (mkAggregate 0 0 ∅ false [])) as Hfs.
  pose proof (aggregate_totalWeight h config.DIMENSIONS
                (mkAggregate 0 0 ∅ false [])) as Htw.
  cbn [finalScore totalWeight] in Hfs, Htw.
  rewrite Qplus_0_l in Hfs, Htw.
  split.
  - apply Qle_shift_div_l; [exact Hpos|]. rewrite Qmult_0_l, Hfs. exact B0.
  - apply Qle_shift_div_r; [exact Hpos|]. rewrite Qmult_1_l, Hfs, Htw. exact B1.
Qed.

(** ** Fields of a hash *)

Lemma hGet_hSet_other (h : Hash) (field other : string) (v : PartialResult) :
  field <> other -> hGet (hSet h field v) other = hGet h other.
Proof.
  intros Hne. induction h as [|[f v'] h IH]; simpl.
  - apply String.eqb_neq in Hne. now rewrite Hne.
  - destruct (String.eqb f field) eqn:E; simpl.
    + apply String.eqb_eq in E. subst f.
      apply String.eqb_neq in Hne. now rewrite Hne.
    + destruct (String.eqb f other); [reflexivity | exact IH].
Qed.

Lemma hLen_hSet (h : Hash) (field : string) (v : PartialResult) :
  hLen (hSet h field v) = if has_result h field then hLen h else hLen h + 1.
Proof.
  unfold hLen, has_result. induction h as [|[f v'] h IH]; simpl.
  - reflexivity.
  - destruct (String.eqb f field) eqn:E; simpl; [reflexivity|].
    destruct (hGet h field); simpl in *; lia.
Qed.

Lemma hash_of_hSet_results (w : World) (key field : string) (v : PartialResult) :
  redisClient.hash_of (redisClient.hSet_results key field v w) key
  = hSet (redisClient.hash_of w key) field v.
Proof.
  unfold redisClient.hash_of at 1, redisClient.hSet_results. cbn.
  now rewrite lookup_insert_eq.
Qed.

(** ** A finalisation that has nothing to do *)


Lemma finalized_faults (w : World) (taskId : string) (taskInfo : option TaskInfo) :
  faults (finalized taskId taskInfo w) = faults w.
Proof. reflexivity. Qed.


Lemma finalized_active (w : World) (taskId : string) (taskInfo : option TaskInfo) :
  activeTasks (this (finalized taskId taskInfo w)) !! taskId = None.
Proof.
  unfold finalized, redisClient.del_results, masterOrchestrator.drop_task. cbn.
  now rewrite lookup_delete_eq.
Qed.

(** ** The counters that decide the status of a batch *)

Lemma progress_of_settled (docs : list Response) (s : Status) :
  s = pending \/ s = processing \/ s = completed \/ s = failed ->
  pGet (dbClient.progress_of (dbClient.group_by_status docs)) (PStatus s)
  = Some (count_status s docs).
Proof.
  intros Hs. unfold dbClient.progress_of, dbClient.group_by_status.
  destruct (group_by_status_spec docs [] (NoDup_nil_2)) as (Hnd & Hsum & Hcnt).
  cbv zeta in Hnd, Hsum, Hcnt.
  destruct (progress_fold_spec _ dbClient.empty_progress Hnd) as [HT HS].
  cbv zeta in HS. rewrite HS. specialize (Hcnt s). cbn in Hcnt.
  destruct (group_count _ s) as [c|] eqn:E; cbn in Hcnt.
  - now rewrite Hcnt.
  - replace (count_status s docs) with 0 by lia.
    now destruct Hs as [->|[->|[->| ->]]].
Qed.

(** ** Walking through the code for an arbitrary frame *)

Section FrameRules.

Context (R : World -> World -> Prop) `{!Frame R}.

Lemma frame_ret {A} (a : A) : keeps R (ret a).
Proof. apply keeps_ret, frame_refl. Qed.

Lemma frame_throw {A} (e : Err) : keeps R (@throw A e).
Proof. apply keeps_throw, frame_refl. Qed.

Lemma frame_get {A} (f : World -> A) : keeps R (get f).
Proof. apply keeps_get, frame_refl. Qed.

Lemma frame_modify (f : World -> World) : (forall w, R w (f w)) -> keeps R (modify f).
Proof. apply keeps_modify. Qed.

Lemma frame_bind {A B} (m : M A) (k : A -> M B) :
  keeps R m -> (forall a, keeps R (k a)) -> keeps R (bind m k).
Proof. apply keeps_bind, frame_trans. Qed.

Lemma frame_try_catch {A} (m : M A) (h : Err -> M A) :
  keeps R m -> (forall e, keeps R (h e)) -> keeps R (try_catch m h).
Proof. apply keeps_try_catch, frame_trans. Qed.

Lemma frame_try_finally {A} (m : M A) (fin : M unit) :
  keeps R m -> keeps R fin -> keeps R (try_finally m fin).
Proof.
  intros Hm Hfin w. unfold try_finally. specialize (Hm w).
  destruct (m w) as [r w1]. specialize (Hfin w1). cbn in Hm.
  destruct (fin w1) as [[[]|e] w2]; cbn in *; eapply frame_trans; eassumption.
Qed.

Lemma frame_io {A} (op : M A) : keeps R op -> keeps R (io op).
Proof. apply keeps_io; [apply frame_trans | apply frame_faults]. Qed.

Lemma frame_for_each {A} (xs : list A) (body : A -> M unit) :
  (forall x, keeps R (body x)) -> keeps R (for_each xs body).
Proof. apply keeps_for_each; [apply frame_refl | apply frame_trans]. Qed.

End FrameRules.

Create HintDb model.

#[export] Hint Unfold
  Date_now uuidv4 redisClient.connect
  redisClient.pushToQueue redisClient.pushToQueue_dimension redisClient.pushToQueue_result
  redisClient.popFromQueue redisClient.popFromQueue_result redisClient.popFromQueue_dimension
  redisClient.getMainTask redisClient.addMainTask redisClient.requeueMainTask
  redisClient.addTask redisClient.getTask redisClient.requeueTask
  redisClient.addDimensionTask redisClient.getDimensionTask
  redisClient.pushDimensionResult redisClient.popDimensionResult
  redisClient.setPartialResult redisClient.getPartialResults
  redisClient.deletePartialResults redisClient.setWorkerStatus redisClient.clearQueue
  dbClient.getResponseById dbClient.updateResponseStatus dbClient.insertEvaluation
  dbClient.updateBatchStatus dbClient.getBatchProgress dbClient.getEvaluationByResponseId
  masterOrchestrator.updateBatchProgress masterOrchestrator.handleTaskFailure
  masterOrchestrator.activeTasks_set masterOrchestrator.activeTasks_delete
  masterOrchestrator.processMainTask_enter masterOrchestrator.processMainTask_try
  masterOrchestrator.processMainTask_finally masterOrchestrator.processMainTask
  masterOrchestrator.finalizeTaskWithInfo masterOrchestrator.finalizeTask
  masterOrchestrator.finalizeTaskById masterOrchestrator.processDimensionResult
  masterOrchestrator.handle_timeout masterOrchestrator.checkTaskTimeouts
  masterOrchestrator.start
  taskEnqueue.enqueueBatch taskEnqueue.requeueFailedResponse taskEnqueue.enqueueResponse
  taskEnqueue.clearQueue taskEnqueue.pauseProcessing taskEnqueue.resumeProcessing
  taskEnqueue.retryFailedTasks
  dimensionWorker.processTask dimensionWorker.processLoop_round : model.

(** One step through a computation, for any frame. *)
Ltac walk_step :=
  lazymatch goal with
  | |- keeps ?R (ret _) => apply (frame_ret R)
  | |- keeps ?R (throw _) => apply (frame_throw R)
  | |- keeps ?R (get _) => apply (frame_get R)
  | |- keeps ?R (io _) => apply (frame_io R)
  | |- keeps ?R (bind _ _) => apply (frame_bind R); [ | intros ? ]
  | |- keeps ?R (try_catch _ _) => apply (frame_try_catch R); [ | intros ? ]
  | |- keeps ?R (try_finally _ _) => apply (frame_try_finally R)
  | |- keeps ?R (for_each _ _) => apply (frame_for_each R); intros ?
  | |- keeps ?R (modify _) => apply (frame_modify R); intros ?
  | |- keeps _ (if ?c then _ else _) => destruct c
  | |- keeps _ (match ?x with _ => _ end) => destruct x
  end.

(** What is left of a call written directly as a function of the world:
    the world it returns, in each of its cases. *)
Ltac walk_raw :=
  try (let w := fresh "w" in intros w);
  cbn;
  repeat match goal with
         | |- context [match ?x with _ => _ end] => destruct x; cbn
         end.

(** Walk through [m] to prove [keeps R m]; [solve_world] deals with the
    single reads and writes that are left. *)
Ltac walk solve_world :=
  autounfold with model; cbv zeta;
  repeat walk_step;
  solve_world.

(** ** The frames used below *)

#[export] Instance main_queue_kept_frame : Frame main_queue_kept.
Proof.
  split; unfold main_queue_kept.
  - reflexivity.
  - intros w1 w2 w3 H1 H2. congruence.
  - reflexivity.
Qed.

#[export] Instance legacy_queue_kept_frame : Frame legacy_queue_kept.
Proof.
  split; unfold legacy_queue_kept.
  - reflexivity.
  - intros w1 w2 w3 H1 H2. congruence.
  - reflexivity.
Qed.

#[export] Instance evaluations_grow_frame : Frame evaluations_grow.
Proof.
  split; unfold evaluations_grow.
  - intros w. split; [reflexivity | tauto].
  - intros w1 w2 w3 [P1 N1] [P2 N2]. split; [now transitivity (evaluations (store w2)) | tauto].
  - intros w fs. split; [reflexivity | tauto].
Qed.

#[export] Instance only_batches_frame : Frame only_batches.
Proof.
  split; unfold only_batches.
  - intros w. repeat split.
  - intros w1 w2 w3 (A1 & B1 & C1 & D1) (A2 & B2 & C2 & D2).
    repeat split; congruence.
  - intros w fs. repeat split.
Qed.

(** ** What every event of the orchestrator keeps *)

Lemma step_keeps (R : World -> World -> Prop) `{!Frame R} (e : Event) (s : System) :
  orchestrator_keeps R ->
  orchestrator_event e = true ->
  R (world s) (world (step e s)).
Proof.
  intros (Hget & Henter & Hfin & Htry & Hstat & Hpop & Hres & Hsweep) He.
  destruct e as [| | i | i | | | w']; cbn [step]; try discriminate He.
  - destruct (loop s); [|apply frame_refl].
    destruct (negb _); [apply frame_refl|].
    destruct (guard_blocks _); apply frame_refl.
  - destruct (loop s); [apply frame_refl|].
    pose proof (Hget 5 (world s)) as H1.
    destruct (redisClient.getMainTask 5 (world s)) as [[[t|]|err] w1]; cbn in *.
    + eapply frame_trans; [exact H1 | apply Henter].
    + eapply frame_trans; [exact H1 | apply Hstat].
    + exact H1.
  - destruct (dispatching s !! i); [|apply frame_refl]. cbn.
    apply (frame_try_finally R); [apply Htry | apply Hfin].
  - destruct (dispatching s !! i); [|apply frame_refl]. cbn. apply Hfin.
  - pose proof (Hpop 1 (world s)) as H1.
    destruct (redisClient.popDimensionResult 1 (world s)) as [[[r|]|err] w1]; cbn in *;
      try exact H1.
    eapply frame_trans; [exact H1 | apply Hres].
  - cbn. apply Hsweep.
Qed.

Lemma exec_keeps (R : World -> World -> Prop) `{!Frame R} (trace : list Event)
    (s : System) :
  orchestrator_keeps R ->
  forallb orchestrator_event trace = true ->
  R (world s) (world (exec trace s)).
Proof.
  intros HR. revert s. induction trace as [|e trace IH]; intros s Ht.
  - apply frame_refl.
  - cbn in Ht. apply andb_true_iff in Ht as [He Ht].
    change (exec (e :: trace) s) with (exec trace (step e s)).
    eapply frame_trans; [apply (step_keeps R e s HR He) | apply IH; exact Ht].
Qed.

(** The loops of the enqueue facade, for any frame. *)
Lemma frame_retry_each (R : World -> World -> Prop) `{!Frame R}
    (failedResponses : list (string * Response)) (retriedCount : Z) :
  (forall responseId reason,
     keeps R (taskEnqueue.requeueFailedResponse responseId reason)) ->
  keeps R (taskEnqueue.retry_each failedResponses retriedCount).
Proof.
  intros H. revert retriedCount.
  induction failedResponses as [|r rs IH]; intros n; simpl.
  - apply (frame_ret R).
  - apply (frame_bind R); [|intros ?; apply IH].
    apply (frame_try_catch R); [|intros ?; apply (frame_ret R)].
    apply (frame_bind R); [apply H | intros ?; apply (frame_ret R)].
Qed.

(** A write leaves a queue of main tasks alone when it goes elsewhere. *)
Ltac unfold_writes :=
  unfold redisClient.rPush, redisClient.hSet_results, redisClient.del_results,
    redisClient.set_status_key, redisClient.del_key,
    dbClient.set_response_status, dbClient.set_batch_status, dbClient.add_evaluation,
    masterOrchestrator.put_task, masterOrchestrator.drop_task,
    masterOrchestrator.runningTasks_incr, masterOrchestrator.runningTasks_decr.

Ltac queue_kept :=
  walk_raw;
  unfold legacy_queue_kept, legacy_queue, main_queue_kept, main_queue, redisClient.list_of;
  unfold_writes; cbn;
  rewrite ?lookup_insert_ne by discriminate; reflexivity.

Lemma legacy_queue_orchestrator : orchestrator_keeps legacy_queue_kept.
Proof. unfold orchestrator_keeps. split_and!; intros; walk queue_kept. Qed.

Lemma main_queue_requeueFailedResponse (responseId reason : string) :
  keeps main_queue_kept (taskEnqueue.requeueFailedResponse responseId reason).
Proof. walk queue_kept. Qed.

Lemma main_queue_enqueueResponse (responseId : string) :
  keeps main_queue_kept (taskEnqueue.enqueueResponse responseId).
Proof. walk queue_kept. Qed.

Lemma main_queue_retryFailedTasks (batchId : string) (limit : Z) :
  keeps main_queue_kept (taskEnqueue.retryFailedTasks batchId limit).
Proof.
  unfold taskEnqueue.retryFailedTasks.
  apply (frame_try_catch main_queue_kept); [|intros ?; apply (frame_throw main_queue_kept)].
  apply (frame_bind main_queue_kept);
    [apply (frame_io main_queue_kept), (frame_get main_queue_kept)|intros ?].
  apply (frame_bind main_queue_kept); [|intros ?; apply (frame_ret main_queue_kept)].
  apply (frame_retry_each main_queue_kept). apply main_queue_requeueFailedResponse.
Qed.

(** ** Evaluations are only ever added *)

Lemma evaluations_grow_insert (e : Evaluation) :
  keeps evaluations_grow
    (fun w =>
       if existsb (fun e' => String.eqb (ev_response_id e') (ev_response_id e))
            (evaluations (store w))
       then (Throw DuplicateKey, w)
       else (Ok tt, dbClient.add_evaluation e w)).
Proof.
  intros w. destruct (existsb _ _) eqn:E.
  - apply (frame_refl w).
  - change (evaluations_grow w (dbClient.add_evaluation e w)).
    unfold evaluations_grow.
    change (evaluations (store (dbClient.add_evaluation e w)))
      with (evaluations (store w) ++ [e])%list.
    split; [now apply prefix_app_r|].
    intros Hnd. rewrite fmap_app. apply NoDup_app. split; [exact Hnd|].
    split; [|apply NoDup_singleton].
    intros x Hx Hx'. apply list_elem_of_singleton in Hx'. subst x.
    apply list_elem_of_fmap in Hx as (e' & He' & Hin).
    apply not_true_iff_false in E. apply E.
    apply existsb_exists. exists e'. split; [now apply list_elem_of_In|].
    apply String.eqb_eq. congruence.
Qed.

Lemma evaluations_grow_same (w w' : World) :
  evaluations (store w') = evaluations (store w) -> evaluations_grow w w'.
Proof. intros H. unfold evaluations_grow. rewrite H. split; [reflexivity | tauto]. Qed.

Ltac evaluations_kept :=
  first
    [ apply evaluations_grow_insert
    | walk_raw; apply evaluations_grow_same; reflexivity ].

Lemma evaluations_grow_orchestrator : orchestrator_keeps evaluations_grow.
Proof. unfold orchestrator_keeps. split_and!; intros; walk evaluations_kept. Qed.

(** ** Running the dispatch loop's pop *)

Lemma run_getMainTask (w : World) (timeout : Z) :
  faults w = [] ->
  redisClient.getMainTask timeout w
  = match main_queue w with
    | [] => (Ok None, w)
    | t :: rest => (Ok (Some t), popped_main rest w)
    end.
Proof.
  intros Hf. unfold redisClient.getMainTask, redisClient.popFromQueue.
  change (truthy config.MAIN_QUEUE_NAME) with true. cbn [negb].
  await_ok ltac:(now apply run_connect).
  unfold try_catch. rewrite io_no_fault by assumption.
  unfold main_queue. now destruct (redisClient.list_of _ _).
Qed.

(** ** Pausing and resuming a batch *)

Ltac batches_only :=
  walk_raw; unfold only_batches; unfold_writes; split_and!; reflexivity.

Lemma only_batches_pauseProcessing (batchId : string) :
  keeps only_batches (taskEnqueue.pauseProcessing batchId).
Proof. walk batches_only. Qed.

Lemma only_batches_resumeProcessing (batchId : string) :
  keeps only_batches (taskEnqueue.resumeProcessing batchId).
Proof. walk batches_only. Qed.

Lemma only_batches_updateBatchProgress (batchId : string) :
  keeps only_batches (masterOrchestrator.updateBatchProgress batchId).
Proof. walk batches_only. Qed.

Lemma run_pauseProcessing (w : World) (batchId : string) :
  faults w = [] ->
  taskEnqueue.pauseProcessing batchId w
  = (Ok tt, dbClient.set_batch_status batchId BPaused None w).
Proof.
  intros Hf. unfold taskEnqueue.pauseProcessing. apply try_catch_ok.
  now apply run_updateBatchStatus.
Qed.

Lemma run_resumeProcessing (w : World) (batchId : string) :
  faults w = [] ->
  taskEnqueue.resumeProcessing batchId w
  = (Ok tt, dbClient.set_batch_status batchId BProcessing None w).
Proof.
  intros Hf. unfold taskEnqueue.resumeProcessing. apply try_catch_ok.
  now apply run_updateBatchStatus.
Qed.

(** ** The sweep and the tasks that are still in time *)

#[export] Instance active_kept_frame (taskId : string) : Frame (active_kept taskId).
Proof.
  split; unfold active_kept.
  - reflexivity.
  - intros w1 w2 w3 H1 H2. congruence.
  - reflexivity.
Qed.

Lemma active_kept_handle_timeout (taskId : string) (entry : string * TaskInfo) :
  fst entry <> taskId ->
  keeps (active_kept taskId) (masterOrchestrator.handle_timeout entry).
Proof.
  intros Hne.
  walk ltac:(walk_raw; unfold active_kept; unfold_writes; cbn;
             rewrite ?lookup_delete_ne by exact Hne; reflexivity).
Qed.

Lemma frame_for_each_in (R : World -> World -> Prop) `{!Frame R} {A}
    (xs : list A) (body : A -> M unit) :
  (forall x, x ∈ xs -> keeps R (body x)) -> keeps R (for_each xs body).
Proof.
  induction xs as [|x xs IH]; intros H; simpl.
  - apply (frame_ret R).
  - apply (frame_bind R); [apply H; now left | intros _; apply IH].
    intros y Hy. apply H. now right.
Qed.

Lemma handle_timeout_returns (entry : string * TaskInfo) (w : World) :
  fst (masterOrchestrator.handle_timeout entry w) = Ok tt.
Proof.
  unfold masterOrchestrator.handle_timeout, try_catch.
  destruct (bind _ _ w) as [[[]|e] w1]; reflexivity.
Qed.

Lemma for_each_handle_timeout_returns (entries : list (string * TaskInfo)) (w : World) :
  fst (for_each entries masterOrchestrator.handle_timeout w) = Ok tt.
Proof.
  revert w. induction entries as [|e entries IH]; intros w; simpl; [reflexivity|].
  unfold bind. pose proof (handle_timeout_returns e w) as H.
  destruct (masterOrchestrator.handle_timeout e w) as [r w1]. cbn in H. subst r.
  apply IH.
Qed.

(** ** The fan-out of a dispatch *)

Lemma dimension_queue_inj (d d' : string) :
  redisClient.dimension_queue d = redisClient.dimension_queue d' -> d = d'.
Proof. unfold redisClient.dimension_queue. cbn. intros H. now simplify_eq. Qed.

Lemma dimension_list_push (w : World) (d d' : string) (t : DimensionTask) :
  dimension_list (push_dimension d t w) d'
  = if bool_decide (d = d') then (dimension_list w d ++ [t])%list else dimension_list w d'.
Proof.
  unfold dimension_list at 1, push_dimension, redisClient.list_of. cbn.
  case_bool_decide as E.
  - subst d'. now rewrite lookup_insert_eq.
  - rewrite lookup_insert_ne; [reflexivity|].
    intros H. now apply dimension_queue_inj in H.
Qed.

Lemma dimension_list_fold (t : MainTask) (ds : list string) (w : World) (d : string) :
  NoDup ds ->
  dimension_list
    (fold_left (fun w d => push_dimension d (masterOrchestrator.dimensionTask t d) w) ds w) d
  = (dimension_list w d
     ++ if bool_decide (d ∈ ds) then [masterOrchestrator.dimensionTask t d] else [])%list.
Proof.
  revert w. induction ds as [|d0 ds IH]; intros w Hnd; cbn [fold_left].
  - now rewrite app_nil_r.
  - apply NoDup_cons in Hnd as [Hn Hnd]. rewrite IH by exact Hnd.
    rewrite dimension_list_push.
    destruct (decide (d0 = d)) as [->|Hne].
    + rewrite bool_decide_eq_true_2 by reflexivity.
      rewrite (bool_decide_eq_false_2 (d ∈ ds)) by exact Hn.
      rewrite (bool_decide_eq_true_2 (d ∈ d :: ds)) by now left.
      now rewrite app_nil_r.
    + rewrite bool_decide_eq_false_2 by exact Hne.
      destruct (decide (d ∈ ds)) as [Hin|Hin].
      * rewrite !bool_decide_eq_true_2; [reflexivity | now right | exact Hin].
      * rewrite !bool_decide_eq_false_2; [reflexivity | | exact Hin].
        intros H. apply elem_of_cons in H as [->|H]; [now apply Hne | now apply Hin].
Qed.

Lemma run_addDimensionTask (w : World) (d : string) (t : DimensionTask) :
  faults w = [] ->
  exists len, redisClient.addDimensionTask d t w = (Ok len, push_dimension d t w).
Proof.
  intros Hf. unfold redisClient.addDimensionTask, redisClient.pushToQueue_dimension.
  rewrite io_no_fault by exact Hf. eexists. reflexivity.
Qed.

Lemma run_fan_out (t : MainTask) (ds : list string) (w : World) :
  faults w = [] ->
  for_each ds (fun dimension =>
    await _ <- redisClient.addDimensionTask dimension
                 (masterOrchestrator.dimensionTask t dimension);
    ret tt) w
  = (Ok tt,
     fold_left (fun w d => push_dimension d (masterOrchestrator.dimensionTask t d) w) ds w).
Proof.
  revert w. induction ds as [|d ds IH]; intros w Hf; cbn [for_each fold_left].
  - reflexivity.
  - destruct (run_addDimensionTask w d (masterOrchestrator.dimensionTask t d) Hf)
      as [len Hpush].
    await_ok ltac:(await_ok ltac:(exact Hpush); reflexivity).
    now apply IH.
Qed.

Lemma run_processMainTask_try (w : World) (t : MainTask) :
  faults w = [] ->
  masterOrchestrator.processMainTask_try t w = (Ok tt, fanned_out t w).
Proof.
  intros Hf. unfold masterOrchestrator.processMainTask_try. cbv zeta.
  apply try_catch_ok.
  await_ok ltac:(reflexivity).
  await_ok ltac:(now apply run_setWorkerStatus).
  await_ok ltac:(now apply run_updateResponseStatus).
  await_ok ltac:(reflexivity).
  await_ok ltac:(reflexivity).
  now apply run_fan_out.
Qed.

Lemma run_processMainTask (w : World) (t : MainTask) :
  faults w = [] ->
  masterOrchestrator.processMainTask t w
  = (Ok tt,
     masterOrchestrator.runningTasks_decr
       (fanned_out t (masterOrchestrator.runningTasks_incr w))).
Proof.
  intros Hf. unfold masterOrchestrator.processMainTask.
  await_ok ltac:(reflexivity).
  unfold try_finally. now rewrite run_processMainTask_try.
Qed.

Lemma NoDup_DIMENSIONS : NoDup config.DIMENSIONS.
Proof. apply (bool_decide_unpack _). vm_compute. exact I. Qed.

(** ** One round of a worker *)

#[export] Instance dimension_lists_kept_frame : Frame dimension_lists_kept.
Proof.
  split; unfold dimension_lists_kept.
  - reflexivity.
  - intros w1 w2 w3 H1 H2. congruence.
  - reflexivity.
Qed.

Lemma dimension_lists_processTask (dimension workerId : string) (task : DimensionTask)
    (run : PythonRun) :
  keeps dimension_lists_kept (dimensionWorker.processTask dimension workerId task run).
Proof. walk ltac:(walk_raw; reflexivity). Qed.

Lemma run_getDimensionTask (w : World) (dimension : string) (timeout : Z) :
  faults w = [] ->
  redisClient.getDimensionTask dimension timeout w
  = match dimension_list w dimension with
    | [] => (Ok None, w)
    | task :: rest => (Ok (Some task), popped_dimension dimension rest w)
    end.
Proof.
  intros Hf. unfold redisClient.getDimensionTask, redisClient.popFromQueue_dimension.
  change (truthy (redisClient.dimension_queue dimension)) with true. cbn [negb].
  await_ok ltac:(now apply run_connect).
  unfold try_catch. rewrite io_no_fault by assumption.
  unfold dimension_list. now destruct (redisClient.list_of _ _).
Qed.

(** ** Requeueing on the legacy queue *)

Lemma run_requeueTask (w : World) (t : MainTask) :
  faults w = [] ->
  redisClient.requeueTask t w
  = if Z.leb (default 0 (mt_retry_count t) + 1) (MAX_RETRIES w)
    then (Ok (Pushed (redisClient.lLen config.TASK_QUEUE_NAME
                        (redisClient.rPush config.TASK_QUEUE_NAME
                           (redisClient.updatedTask t (clock w)) w))),
          redisClient.rPush config.TASK_QUEUE_NAME (redisClient.updatedTask t (clock w)) w)
    else (Ok NotPushed, w).
Proof.
  intros Hf. unfold redisClient.requeueTask.
  await_ok ltac:(reflexivity). cbv zeta. await_ok ltac:(reflexivity).
  change (default 0 (mt_retry_count (redisClient.updatedTask t (clock w))))
    with (default 0 (mt_retry_count t) + 1).
  destruct (Z.leb _ _); [|reflexivity].
  await_ok ltac:(now apply run_pushToQueue). reflexivity.
Qed.

Lemma legacy_queue_rPush (w : World) (t : MainTask) :
  legacy_queue (redisClient.rPush config.TASK_QUEUE_NAME t w) = (legacy_queue w ++ [t])%list.
Proof. apply list_of_rPush. Qed.

(** ** Retrying the failed records of a batch *)

Lemma status_after_requeue (w : World) (responseId other : string) (t : MainTask) :
  status_of (dbClient.set_response_status responseId queued
               (redisClient.rPush config.TASK_QUEUE_NAME t w)) other
  = if bool_decide (responseId = other)
    then (fun _ => queued) <$> status_of w other
    else status_of w other.
Proof.
  case_bool_decide as E.
  - subst other. now rewrite status_after_set.
  - now rewrite status_after_set_other.
Qed.

Lemma run_retry_each (failedResponses : list (string * Response)) (n : Z) (w : World) :
  faults w = [] ->
  1 <= MAX_RETRIES w ->
  (forall e, e ∈ failedResponses -> is_Some (status_of w (fst e))) ->
  exists w',
    taskEnqueue.retry_each failedResponses n w
    = (Ok (n + Z.of_nat (length failedResponses)), w') /\
    (forall id, status_of w' id
                = if bool_decide (id ∈ map fst failedResponses)
                  then (fun _ => queued) <$> status_of w id
                  else status_of w id) /\
    length (legacy_queue w') = (length (legacy_queue w) + length failedResponses)%nat.
Proof.
  revert n w. induction failedResponses as [|[id r0] l IH]; intros n w Hf Hmax Hex.
  - exists w. split.
    { replace (n + Z.of_nat (length (@nil (string * Response)))) with n by (cbn; lia).
      reflexivity. }
    split; [reflexivity | cbn; lia].
  - assert (Hid : is_Some (status_of w id)) by (apply (Hex (id, r0)); now left).
    unfold status_of in Hid. destruct (responses (store w) !! id) as [r|] eqn:Hr;
      [|now destruct Hid as [? ?]].
    set (t := redisClient.updatedTask
                (taskEnqueue.task_of id r (rs_batch_id r) "manual_retry" (clock w))
                (clock w)).
    set (w1 := dbClient.set_response_status id queued
                 (redisClient.rPush config.TASK_QUEUE_NAME t w)).
    assert (Hst : forall x, status_of w1 x
                            = if bool_decide (id = x)
                              then (fun _ => queued) <$> status_of w x
                              else status_of w x)
      by (intros x; apply status_after_requeue).
    destruct (IH (n + 1) w1) as (w' & Hrun & Hstatus & Hlen).
    { exact Hf. }
    { exact Hmax. }
    { intros e He. rewrite Hst. case_bool_decide.
      - apply fmap_is_Some. apply Hex. now right.
      - apply Hex. now right. }
    exists w'. split.
    { cbn [taskEnqueue.retry_each fst].
      eapply bind_ok_then.
      { apply try_catch_ok.
        await_ok ltac:(now apply (requeueFailedResponse_always_queues w id "manual_retry" r)).
        reflexivity. }
      fold t w1. rewrite Hrun.
      replace (n + 1 + Z.of_nat (length l)) with (n + Z.of_nat (length ((id, r0) :: l)))
        by (cbn [length]; lia).
      reflexivity. }
    split.
    { intros x. rewrite Hstatus, Hst. cbn [map fst].
      destruct (decide (id = x)) as [->|Hne].
      - rewrite (bool_decide_eq_true_2 (x = x)) by reflexivity.
        rewrite (bool_decide_eq_true_2 (x ∈ x :: map fst l)) by now left.
        case_bool_decide; [|reflexivity]. now destruct (status_of w x).
      - rewrite (bool_decide_eq_false_2 (id = x)) by exact Hne.
        destruct (decide (x ∈ map fst l)) as [Hin|Hin].
        + rewrite !bool_decide_eq_true_2; [reflexivity | now right | exact Hin].
        + rewrite !bool_decide_eq_false_2; [reflexivity | | exact Hin].
          intros H. apply elem_of_cons in H as [->|H]; [now apply Hne | now apply Hin]. }
    rewrite Hlen. unfold w1.
    change (legacy_queue (dbClient.set_response_status id queued ?x)) with (legacy_queue x).
    rewrite legacy_queue_rPush, length_app. cbn. lia.
Qed.

Lemma find_failed_found (batchId : string) (limit : Z) (rs : gmap string Response)
    (e : string * Response) :
  e ∈ taskEnqueue.find_failed batchId limit rs ->
  rs !! fst e = Some (snd e) /\ rs_batch_id (snd e) = batchId /\ rs_status (snd e) = failed.
Proof.
  unfold taskEnqueue.find_failed. intros He.
  assert (Hin : e ∈ List.filter
                      (fun e => String.eqb (rs_batch_id (snd e)) batchId
                                && bool_decide (rs_status (snd e) = failed))
                      (map_to_list rs)).
  { destruct (Z.eqb limit 0); [exact He|].
    rewrite <- (take_drop (Z.abs_nat limit)). apply elem_of_app. now left. }
  apply list_elem_of_In, filter_In in Hin as [Hin Hc].
  apply andb_true_iff in Hc as [Hb Hs].
  apply String.eqb_eq in Hb. apply bool_decide_eq_true in Hs.
  apply list_elem_of_In in Hin. destruct e as [id r].
  apply elem_of_map_to_list in Hin. auto.
Qed.

(** ** Reading an evaluation back *)

Lemma find_after_insert {A} (f : A -> bool) (l : list A) (x : A) :
  existsb f l = false -> f x = true -> List.find f (l ++ [x]) = Some x.
Proof.
  induction l as [|y l IH]; cbn; intros Hl Hx.
  - now rewrite Hx.
  - apply orb_false_iff in Hl as [Hy Hl]. rewrite Hy. now apply IH.
Qed.

Lemma find_none_of_existsb {A} (f : A -> bool) (l : list A) :
  existsb f l = false -> List.find f l = None.
Proof.
  induction l as [|y l IH]; cbn; intros Hl; [reflexivity|].
  apply orb_false_iff in Hl as [Hy Hl]. rewrite Hy. now apply IH.
Qed.

(** ** Clearing the queues *)

Lemma run_clearQueue (w : World) (queueName : string) :
  faults w = [] ->
  redisClient.clearQueue queueName w
  = (Ok (if redisClient.key_exists queueName w then 1 else 0),
     redisClient.del_key queueName w).
Proof. intros Hf. unfold redisClient.clearQueue. now rewrite io_no_fault. Qed.

Lemma run_clear_dimensions (ds : list string) (c : Z) (w : World) :
  faults w = [] ->
  exists n,
    taskEnqueue.clear_dimensions ds c w
    = (Ok n,
       fold_left (fun w d => redisClient.del_key (redisClient.dimension_queue d) w) ds w) /\
    c <= n <= c + Z.of_nat (length ds).
Proof.
  revert c w. induction ds as [|d ds IH]; intros c w Hf; cbn [taskEnqueue.clear_dimensions].
  - exists c. split; [reflexivity | cbn; lia].
  - destruct (IH (c + (if redisClient.key_exists (redisClient.dimension_queue d) w
                       then 1 else 0))
                (redisClient.del_key (redisClient.dimension_queue d) w) Hf)
      as (n & Hrun & Hn).
    exists n. split.
    + await_ok ltac:(now apply run_clearQueue). exact Hrun.
    + cbn [length]. destruct (redisClient.key_exists _ w); lia.
Qed.

Lemma task_list_del_key (w : World) (q q' : string) :
  redisClient.list_of (task_lists (broker (redisClient.del_key q w))) q'
  = if bool_decide (q = q') then [] else redisClient.list_of (task_lists (broker w)) q'.
Proof.
  unfold redisClient.list_of, redisClient.del_key. cbn. case_bool_decide as E.
  - subst q'. now rewrite lookup_delete_eq.
  - now rewrite lookup_delete_ne.
Qed.

Lemma dimension_list_del_key (w : World) (q q' : string) :
  redisClient.list_of (dimension_lists (broker (redisClient.del_key q w))) q'
  = if bool_decide (q = q') then [] else redisClient.list_of (dimension_lists (broker w)) q'.
Proof.
  unfold redisClient.list_of, redisClient.del_key. cbn. case_bool_decide as E.
  - subst q'. now rewrite lookup_delete_eq.
  - now rewrite lookup_delete_ne.
Qed.

Lemma result_list_del_key (w : World) (q q' : string) :
  redisClient.list_of (result_lists (broker (redisClient.del_key q w))) q'
  = if bool_decide (q = q') then [] else redisClient.list_of (result_lists (broker w)) q'.
Proof.
  unfold redisClient.list_of, redisClient.del_key. cbn. case_bool_decide as E.
  - subst q'. now rewrite lookup_delete_eq.
  - now rewrite lookup_delete_ne.
Qed.

Lemma hash_del_key (w : World) (q q' : string) :
  redisClient.hash_of (redisClient.del_key q w) q'
  = if bool_decide (q = q') then [] else redisClient.hash_of w q'.
Proof.
  unfold redisClient.hash_of, redisClient.del_key. cbn. case_bool_decide as E.
  - subst q'. now rewrite lookup_delete_eq.
  - now rewrite lookup_delete_ne.
Qed.

(** The keys of the partial results are no queue names. *)
Lemma results_key_is_no_queue (taskId : string) :
  config.MAIN_QUEUE_NAME <> redisClient.results_key taskId /\
  config.RESULTS_QUEUE_NAME <> redisClient.results_key taskId /\
  forall d, redisClient.dimension_queue d <> redisClient.results_key taskId.
Proof. split_and!; [| |intros d]; cbn; discriminate. Qed.

(** ** Popping in a row *)

Lemma run_pop_main (n : nat) (w : World) :
  faults w = [] ->
  exists w',
    pop_main n w = (Ok (take n (main_queue w)), w') /\
    main_queue w' = drop n (main_queue w) /\
    faults w' = [].
Proof.
  revert w. induction n as [|n IH]; intros w Hf; cbn [pop_main].
  - exists w. repeat split; assumption.
  - unfold bind at 1. rewrite run_getMainTask by exact Hf.
    destruct (main_queue w) as [|t rest] eqn:Hq.
    + exists w. cbn. rewrite Hq. repeat split; assumption.
    + destruct (IH (popped_main rest w) Hf) as (w' & Hrun & Hq' & Hf').
      assert (Hrest : main_queue (popped_main rest w) = rest).
      { unfold main_queue, popped_main, redisClient.list_of. cbn.
        now rewrite lookup_insert_eq. }
      rewrite Hrest in Hrun, Hq'.
      exists w'. split; [|split; assumption].
      unfold bind. now rewrite Hrun.
Qed.

(** ** Reading a result backwards *)

Lemma bind_inv {A B} (m : M A) (k : A -> M B) (w w' : World) (b : B) :
  bind m k w = (Ok b, w') ->
  exists a w1, m w = (Ok a, w1) /\ k a w1 = (Ok b, w').
Proof.
  unfold bind. destruct (m w) as [[a|e] w1]; intros H; [|discriminate].
  now exists a, w1.
Qed.

Lemma io_inv {A} (op : M A) (w w' : World) (a : A) :
  io op w = (Ok a, w') -> exists fs, op (with_faults fs w) = (Ok a, w').
Proof.
  unfold io. destruct w as [b s o mr c u fs]. cbn.
  destruct fs as [|[|] fs]; intros H.
  - now exists [].
  - discriminate.
  - now exists fs.
Qed.

Lemma updateResponseStatus_inv (w w' : World) (responseId : string) (st : Status) :
  dbClient.updateResponseStatus responseId st w = (Ok tt, w') ->
  exists fs, w' = dbClient.set_response_status responseId st (with_faults fs w).
Proof.
  intros H. apply io_inv in H as [fs H]. exists fs. now inversion H.
Qed.

Lemma updateBatchStatus_inv (w w' : World) (batchId : string) (st : BatchStatus)
    (p : option Progress) :
  dbClient.updateBatchStatus batchId st p w = (Ok tt, w') ->
  exists fs, w' = dbClient.set_batch_status batchId st p (with_faults fs w).
Proof.
  intros H. apply io_inv in H as [fs H]. exists fs. now inversion H.
Qed.

#[export] Instance store_kept_frame : Frame store_kept.
Proof.
  split; unfold store_kept.
  - reflexivity.
  - intros w1 w2 w3 H1 H2. congruence.
  - reflexivity.
Qed.

Lemma store_kept_addMainTask (t : MainTask) : keeps store_kept (redisClient.addMainTask t).
Proof. walk ltac:(walk_raw; reflexivity). Qed.

(** ** Enqueueing a batch *)

Lemma enqueue_tasks_inv (tasks : list MainTask) (c n : Z) (w w' : World) :
  taskEnqueue.enqueue_tasks tasks c w = (Ok n, w') ->
  n = c + Z.of_nat (length tasks) /\
  (exists ts,
     main_queue w' = (main_queue w ++ ts)%list /\
     map mt_response_id ts = map mt_response_id tasks /\
     Forall (fun t => mt_retry_count t = Some 0 /\ truthy (mt_task_id t) = true) ts) /\
  batches (store w') = batches (store w) /\
  evaluations (store w') = evaluations (store w) /\
  forall id, status_of w' id
             = if bool_decide (id ∈ map mt_response_id tasks)
               then (fun _ => queued) <$> status_of w id
               else status_of w id.
Proof.
  revert c w. induction tasks as [|t tasks IH]; intros c w H.
  - cbn in H. inversion H; subst. split; [cbn; lia|].
    split; [exists []; now rewrite app_nil_r|]. repeat split.
  - cbn [taskEnqueue.enqueue_tasks] in H.
    apply bind_inv in H as (tid & w1 & Hid & H).
    inversion Hid; subst tid w1; clear Hid.
    apply bind_inv in H as (len & w2 & Hadd & H).
    apply bind_inv in H as ([] & w3 & Hupd & H).
    pose proof (store_kept_addMainTask
                  (taskEnqueue.with_task_id (uuid_of (uuids w)) t)
                  (with_uuids (S (uuids w)) w)) as Hstore.
    rewrite Hadd in Hstore. unfold store_kept in Hstore. cbn in Hstore.
    apply addMainTask_resets in Hadd as (t' & Hq & Hrc & Htid & Hrid).
    apply updateResponseStatus_inv in Hupd as [fs ->].
    apply IH in H as (Hn & (ts & Hts & Hids & Hall) & Hb & He & Hst).
    split; [cbn [length]; lia|].
    split.
    { exists (t' :: ts). split.
      - rewrite Hts.
        change (main_queue (dbClient.set_response_status _ _ (with_faults fs w2)))
          with (main_queue w2).
        rewrite Hq, <- app_assoc. reflexivity.
      - split; [cbn [map]; now rewrite Hrid, Hids|].
        constructor; [now split | exact Hall]. }
    split.
    { rewrite Hb. cbn. now rewrite Hstore. }
    split.
    { rewrite He. cbn. now rewrite Hstore. }
    intros id. rewrite Hst.
    assert (Hw : forall x,
              status_of (dbClient.set_response_status (mt_response_id t) queued
                           (with_faults fs w2)) x
              = if bool_decide (mt_response_id t = x)
                then (fun _ => queued) <$> status_of w x
                else status_of w x).
    { intros x.
      assert (Hsame : status_of (with_faults fs w2) x = status_of w x).
      { unfold status_of. cbn. now rewrite Hstore. }
      case_bool_decide as E.
      - subst x. now rewrite status_after_set, Hsame.
      - now rewrite status_after_set_other, Hsame. }
    rewrite Hw. cbn [map].
    destruct (decide (mt_response_id t = id)) as [<-|Hne].
    + rewrite (bool_decide_eq_true_2 (mt_response_id t = mt_response_id t)) by reflexivity.
      rewrite (bool_decide_eq_true_2 (mt_response_id t ∈ mt_response_id t :: _))
        by now left.
      case_bool_decide; [|reflexivity]. now destruct (status_of w (mt_response_id t)).
    + rewrite (bool_decide_eq_false_2 (mt_response_id t = id)) by exact Hne.
      destruct (decide (id ∈ map mt_response_id tasks)) as [Hin|Hin].
      * rewrite !bool_decide_eq_true_2; [reflexivity | now right | exact Hin].
      * rewrite !bool_decide_eq_false_2; [reflexivity | | exact Hin].
        intros Hc. apply elem_of_cons in Hc as [->|Hc]; [now apply Hne | now apply Hin].
Qed.

Lemma task_of_response_ids (batchId : string) (now : Z)
    (responses : list (string * Response)) :
  map mt_response_id (map (fun r => taskEnqueue.task_of (fst r) (snd r) batchId "" now)
                        responses)
  = map fst responses.
Proof. rewrite map_map. now apply map_ext. Qed.

Lemma enqueue_tasks_returns (tasks : list MainTask) (c : Z) (w : World) :
  faults w = [] ->
  exists n w', taskEnqueue.enqueue_tasks tasks c w = (Ok n, w') /\ faults w' = [].
Proof.
  revert c w. induction tasks as [|t tasks IH]; intros c w Hf.
  - now exists c, w.
  - cbn [taskEnqueue.enqueue_tasks].
    set (t1 := taskEnqueue.with_task_id (uuid_of (uuids w)) t).
    set (w1 := with_uuids (S (uuids w)) w).
    pose proof (run_addMainTask w1 t1 Hf (truthy_uuid (uuids w))) as Hadd.
    set (w2 := redisClient.rPush _ _ w1) in Hadd.
    destruct (IH (c + 1) (dbClient.set_response_status (mt_response_id t) queued w2) Hf)
      as (n & w' & Hrun & Hf').
    exists n, w'. split; [|exact Hf'].
    await_ok ltac:(reflexivity). fold t1 w1.
    await_ok ltac:(exact Hadd).
    await_ok ltac:(now apply run_updateResponseStatus).
    exact Hrun.
Qed.

Lemma enqueueBatch_inv (w w' : World) (batchId : string)
    (responses : list (string * Response)) (n : Z) :
  taskEnqueue.enqueueBatch batchId responses w = (Ok n, w') ->
  exists w1 fs,
    taskEnqueue.enqueue_tasks
      (map (fun r => taskEnqueue.task_of (fst r) (snd r) batchId "" (clock w)) responses)
      0 w = (Ok n, w1) /\
    w' = dbClient.set_batch_status batchId BProcessing
           (Some (enqueued_progress (Z.of_nat (length responses)) n))
           (with_faults fs w1).
Proof.
  unfold taskEnqueue.enqueueBatch, try_catch. intros H.
  destruct (bind Date_now _ w) as [[m|e] w1] eqn:Hbody.
  2:{ unfold bind in H. destruct (dbClient.updateBatchStatus _ _ _ w1) as [[[]|e'] w2];
        discriminate. }
  inversion H; subst m w1; clear H.
  apply bind_inv in Hbody as (now & w0 & Hnow & Hbody).
  inversion Hnow; subst now w0; clear Hnow.
  apply bind_inv in Hbody as (c & w1 & Hloop & Hbody).
  apply bind_inv in Hbody as ([] & w2 & Hupd & Hret).
  inversion Hret; subst c w2; clear Hret.
  apply updateBatchStatus_inv in Hupd as [fs ->].
  now exists w1, fs.
Qed.

Lemma enqueueBatch_queue (w w' : World) (batchId : string)
    (responses : list (string * Response)) (n : Z) :
  taskEnqueue.enqueueBatch batchId responses w = (Ok n, w') ->
  n = Z.of_nat (length responses) /\
  exists ts,
    main_queue w' = (main_queue w ++ ts)%list /\
    map mt_response_id ts = map fst responses.
Proof.
  intros H. apply enqueueBatch_inv in H as (w1 & fs & Hloop & ->).
  apply enqueue_tasks_inv in Hloop as (Hn & (ts & Hts & Hids & _) & _).
  rewrite length_map in Hn. rewrite task_of_response_ids in Hids.
  split; [lia|]. now exists ts.
Qed.

(** ** Calls that fail *)

Lemma io_pass {A} (op : M A) (w : World) (fs : list bool) :
  faults w = false :: fs -> io op w = op (with_faults fs w).
Proof. intros H. unfold io. now rewrite H. Qed.

Lemma addMainTask_pass (w : World) (t : MainTask) (fs : list bool) :
  faults w = false :: fs ->
  truthy (mt_task_id t) = true ->
  exists len t',
    redisClient.addMainTask t w
    = (Ok len, redisClient.rPush config.MAIN_QUEUE_NAME t' (with_faults fs w)).
Proof.
  intros Hf Hid. unfold redisClient.addMainTask. rewrite Hid.
  do 2 eexists.
  await_ok ltac:(reflexivity). await_ok ltac:(reflexivity).
  unfold redisClient.pushToQueue. rewrite (io_pass _ w fs Hf). reflexivity.
Qed.

Lemma addMainTask_fault (w : World) (t : MainTask) (fs : list bool) :
  faults w = true :: fs ->
  truthy (mt_task_id t) = true ->
  redisClient.addMainTask t w = (Throw IoError, with_faults fs w).
Proof.
  intros Hf Hid. unfold redisClient.addMainTask. rewrite Hid.
  eapply bind_throw_then; [reflexivity|]. eapply bind_throw_then; [reflexivity|].
  unfold redisClient.pushToQueue. now apply io_fault.
Qed.

(** The loop of [enqueueBatch] when the call number [k] (from 0) is the
    one that fails: either the loop is cut short, or the failure is still
    to come. *)
Lemma enqueue_tasks_one_fault (tasks : list MainTask) (k : nat) (c : Z) (w : World) :
  faults w = (replicate k false ++ [true])%list ->
  exists r w',
    taskEnqueue.enqueue_tasks tasks c w = (r, w') /\
    batches (store w') = batches (store w) /\
    clock w' = clock w /\
    if decide (k < 2 * length tasks)%nat
    then r = Throw IoError /\ faults w' = [] /\
         length (main_queue w') = (length (main_queue w) + (k + 1) / 2)%nat
    else r = Ok (c + Z.of_nat (length tasks)) /\
         faults w' = (replicate (k - 2 * length tasks) false ++ [true])%list /\
         length (main_queue w') = (length (main_queue w) + length tasks)%nat.
Proof.
  revert k c w. induction tasks as [|t tasks IH]; intros k c w Hf.
  - exists (Ok c), w. cbn [taskEnqueue.enqueue_tasks length].
    do 3 (split; [reflexivity|]).
    rewrite decide_False by lia. cbn. rewrite Z.add_0_r, Nat.sub_0_r, Nat.add_0_r.
    now repeat split.
  - cbn [taskEnqueue.enqueue_tasks].
    set (t1 := taskEnqueue.with_task_id (uuid_of (uuids w)) t).
    set (w1 := with_uuids (S (uuids w)) w).
    assert (Hid : truthy (mt_task_id t1) = true) by apply truthy_uuid.
    destruct k as [|[|k]].
    + (* the push fails *)
      exists (Throw IoError), (with_faults [] w1). split.
      { eapply bind_throw_then; [reflexivity|]. eapply bind_throw.
        now apply addMainTask_fault. }
      do 2 (split; [reflexivity|]). rewrite decide_True by (cbn [length]; lia).
      do 2 (split; [reflexivity|]).
      change (main_queue (with_faults [] w1)) with (main_queue w).
      cbn. lia.
    + (* the status write fails *)
      destruct (addMainTask_pass w1 t1 [true] Hf Hid) as (len & t' & Hadd).
      exists (Throw IoError),
             (with_faults [] (redisClient.rPush config.MAIN_QUEUE_NAME t'
                                (with_faults [true] w1))).
      split.
      { eapply bind_throw_then; [reflexivity|].
        eapply bind_throw_then; [exact Hadd|]. eapply bind_throw.
        unfold dbClient.updateResponseStatus. now apply io_fault. }
      do 2 (split; [reflexivity|]). rewrite decide_True by (cbn [length]; lia).
      do 2 (split; [reflexivity|]).
      change (main_queue (with_faults [] ?x)) with (main_queue x).
      rewrite main_queue_rPush, length_app.
      change (main_queue (with_faults [true] w1)) with (main_queue w).
      change ((1 + 1) / 2)%nat with 1%nat. cbn [length]. lia.
    + (* both calls succeed *)
      destruct (addMainTask_pass w1 t1 (false :: replicate k false ++ [true])%list Hf Hid)
        as (len & t' & Hadd).
      set (w2 := redisClient.rPush config.MAIN_QUEUE_NAME t' (with_faults _ w1)) in Hadd.
      set (w3 := dbClient.set_response_status (mt_response_id t) queued
                   (with_faults (replicate k false ++ [true])%list w2)).
      destruct (IH k (c + 1) w3 eq_refl) as (r & w' & Hrun & Hb & Hc & Hcase).
      exists r, w'. split.
      { await_ok ltac:(reflexivity). fold t1 w1.
        await_ok ltac:(exact Hadd).
        await_ok ltac:(unfold dbClient.updateResponseStatus;
                       rewrite (io_pass _ w2 (replicate k false ++ [true])%list eq_refl);
                       reflexivity).
        exact Hrun. }
      split; [rewrite Hb; reflexivity|]. split; [rewrite Hc; reflexivity|].
      assert (Hq3 : length (main_queue w3) = S (length (main_queue w))).
      { unfold w3. change (main_queue (dbClient.set_response_status _ _ ?x))
          with (main_queue x).
        change (main_queue (with_faults _ w2)) with (main_queue w2).
        unfold w2. rewrite main_queue_rPush, length_app.
        change (main_queue (with_faults _ w1)) with (main_queue w).
        cbn [length]. lia. }
      cbn [length].
      destruct (decide (k < 2 * length tasks)%nat) as [Hk|Hk].
      * rewrite decide_True by lia. destruct Hcase as (-> & Hf' & Hlen).
        split; [reflexivity|]. split; [exact Hf'|]. rewrite Hlen, Hq3.
        replace (S (S k) + 1)%nat with (k + 1 + 1 * 2)%nat by lia.
        rewrite Nat.div_add by lia. lia.
      * rewrite decide_False by lia. destruct Hcase as (-> & Hf' & Hlen).
        split; [f_equal; lia|]. split.
        { rewrite Hf'. do 2 f_equal. lia. }
        rewrite Hlen, Hq3. lia.
Qed.

(** ** The result that completes a task *)

Lemma resolved_known (ti : TaskInfo) (h : Hash) :
  truthy (mt_response_id (ti_mainTask ti)) = true ->
  resolved_response_id (Some ti) h = mt_response_id (ti_mainTask ti).
Proof.
  intros H. unfold resolved_response_id. cbn [masterOrchestrator.task_field].
  now rewrite H.
Qed.

Lemma Qsum_all_weights :
  (Qsum (map masterOrchestrator.weight_of config.DIMENSIONS) == 1)%Q.
Proof. vm_compute. reflexivity. Qed.

(** ** Taking a task off the legacy queue *)

Lemma run_getTask (w : World) (timeout : Z) :
  faults w = [] ->
  redisClient.getTask timeout w
  = match legacy_queue w with
    | [] => (Ok None, w)
    | t :: rest =>
        (Ok (Some t),
         with_broker (set_task_lists
           (<[config.TASK_QUEUE_NAME := rest]> (task_lists (broker w)))) w)
    end.
Proof.
  intros Hf. unfold redisClient.getTask, redisClient.popFromQueue.
  change (truthy config.TASK_QUEUE_NAME) with true. cbn [negb].
  await_ok ltac:(now apply run_connect).
  unfold try_catch. rewrite io_no_fault by assumption.
  unfold legacy_queue. now destruct (redisClient.list_of _ _).
Qed.

(** ** What a pop of the main queue can do *)

Lemma pop_head_cases (w0 : World) :
  exists r w',
    match redisClient.list_of (task_lists (broker w0)) config.MAIN_QUEUE_NAME with
    | [] => (Ok None, w0)
    | x :: l => (Ok (Some x), popped_main l w0)
    end = (Ok r, w') /\
    match r with
    | Some t => main_queue w0 = t :: main_queue w'
    | None => w' = w0
    end /\
    legacy_queue w' = legacy_queue w0 /\ store w' = store w0 /\ faults w' = faults w0.
Proof.
  unfold main_queue at 1.
  destruct (redisClient.list_of _ _) as [|x l] eqn:Hq.
  - exists None, w0. repeat split.
  - exists (Some x), (popped_main l w0). split; [reflexivity|].
    split; [|split; [|split; reflexivity]].
    + unfold main_queue, popped_main, redisClient.list_of. cbn.
      now rewrite lookup_insert_eq.
    + unfold legacy_queue, popped_main, redisClient.list_of. cbn.
      now rewrite lookup_insert_ne by discriminate.
Qed.

(** ** What a sweep does under any fault plan *)

#[export] Instance sweep_kept_frame : Frame sweep_kept.
Proof.
  split; unfold sweep_kept.
  - tauto.
  - intros w1 w2 w3 (A1 & B1 & C1 & D1) (A2 & B2 & C2 & D2). split_and!; congruence.
  - intros w fs. cbn. tauto.
Qed.

Lemma sweep_kept_checkTaskTimeouts : keeps sweep_kept masterOrchestrator.checkTaskTimeouts.
Proof. walk ltac:(walk_raw; unfold sweep_kept; unfold_writes; cbn; tauto). Qed.

Section MarkedBeforeRemoved.

Variable taskId : string.
Variable taskInfo : TaskInfo.

Lemma marked_with_faults (fs : list bool) (w : World) :
  marked_before_removed taskId taskInfo w ->
  marked_before_removed taskId taskInfo (with_faults fs w).
Proof. exact id. Qed.

Lemma marked_del_results (key : string) (w : World) :
  marked_before_removed taskId taskInfo w ->
  marked_before_removed taskId taskInfo (redisClient.del_results key w).
Proof. exact id. Qed.

Lemma marked_set_failed (responseId : string) (w : World) :
  marked_before_removed taskId taskInfo w ->
  marked_before_removed taskId taskInfo (dbClient.set_response_status responseId failed w).
Proof.
  intros [Hsome Hm]. unfold marked_before_removed, status_of, dbClient.set_response_status.
  cbn. destruct (decide (responseId = mt_response_id (ti_mainTask taskInfo))) as [->|Hne].
  - rewrite lookup_alter_eq. destruct Hsome as [r Hr]. rewrite Hr. cbn.
    split; [eauto|]. destruct Hm as [Hm|[Hm _]]; [now left | now right].
  - rewrite lookup_alter_ne by exact Hne. split; [exact Hsome|exact Hm].
Qed.

Lemma marked_drop_other (id : string) (w : World) :
  id <> taskId ->
  marked_before_removed taskId taskInfo w ->
  marked_before_removed taskId taskInfo (masterOrchestrator.drop_task id w).
Proof.
  intros Hne [Hsome Hm]. unfold marked_before_removed, status_of, masterOrchestrator.drop_task.
  cbn. rewrite lookup_delete_ne by exact Hne. split; [exact Hsome|exact Hm].
Qed.

Lemma marked_drop_failed (w : World) :
  marked_before_removed taskId taskInfo w ->
  marked_before_removed taskId taskInfo
    (masterOrchestrator.drop_task taskId
       (dbClient.set_response_status (mt_response_id (ti_mainTask taskInfo)) failed w)).
Proof.
  intros [[r Hr] _]. unfold marked_before_removed, status_of, masterOrchestrator.drop_task,
    dbClient.set_response_status.
  cbn. rewrite lookup_delete_eq, lookup_alter_eq, Hr. cbn. split; [eauto|]. now right.
Qed.

Lemma handle_timeout_marks_first (entry : string * TaskInfo) (w : World) :
  (fst entry = taskId -> snd entry = taskInfo) ->
  truthy (mt_response_id (ti_mainTask taskInfo)) = true ->
  marked_before_removed taskId taskInfo w ->
  marked_before_removed taskId taskInfo (snd (masterOrchestrator.handle_timeout entry w)).
Proof.
  intros Hsame Hrid Hm. destruct entry as [id ti]. cbn [fst snd] in Hsame.
  assert (Hdrop : forall w0, marked_before_removed taskId taskInfo w0 ->
            marked_before_removed taskId taskInfo
              (masterOrchestrator.drop_task id
                 (dbClient.set_response_status (mt_response_id (ti_mainTask ti)) failed w0))).
  { intros w0 H0. destruct (decide (id = taskId)) as [->|Hne].
    - rewrite (Hsame eq_refl). now apply marked_drop_failed.
    - now apply marked_drop_other, marked_set_failed. }
  unfold masterOrchestrator.handle_timeout. cbn [fst snd].
  destruct (truthy (mt_response_id (ti_mainTask ti))) eqn:Et.
  - unfold try_catch, bind, dbClient.updateResponseStatus, masterOrchestrator.activeTasks_delete,
      redisClient.deletePartialResults, io, modify, ret.
    destruct (faults w) as [|[] fs] eqn:Ef; cbn [fst snd faults with_faults].
    + cbn. rewrite Ef. cbn. now apply marked_del_results, Hdrop.
    + cbn. now apply marked_with_faults.
    + cbn. destruct fs as [|[] fs0]; cbn.
      * now apply marked_del_results, Hdrop, marked_with_faults.
      * now apply marked_with_faults, Hdrop, marked_with_faults.
      * now apply marked_del_results, marked_with_faults, Hdrop, marked_with_faults.
  - assert (Hne : id <> taskId).
    { intros ->. rewrite (Hsame eq_refl) in Et. congruence. }
    unfold try_catch, bind, masterOrchestrator.activeTasks_delete,
      redisClient.deletePartialResults, io, modify, ret.
    cbn. destruct (faults w) as [|[] fs] eqn:Ef; cbn.
    + now apply marked_del_results, marked_drop_other.
    + now apply marked_with_faults, marked_drop_other.
    + now apply marked_del_results, marked_with_faults, marked_drop_other.
Qed.

Lemma for_each_marks_first (entries : list (string * TaskInfo)) (w : World) :
  (forall e, e ∈ entries -> fst e = taskId -> snd e = taskInfo) ->
  truthy (mt_response_id (ti_mainTask taskInfo)) = true ->
  marked_before_removed taskId taskInfo w ->
  marked_before_removed taskId taskInfo
    (snd (for_each entries masterOrchestrator.handle_timeout w)).
Proof.
  intros Hsame Hrid. revert w.
  induction entries as [|e entries IH]; intros w Hm; simpl; [exact Hm|].
  unfold bind.
  pose proof (handle_timeout_returns e w) as Hret.
  pose proof (handle_timeout_marks_first e w (Hsame e ltac:(now left)) Hrid Hm) as Hstep.
  destruct (masterOrchestrator.handle_timeout e w) as [r w1]. cbn in Hret, Hstep. subst r.
  apply IH; [|exact Hstep]. intros e' He'. apply Hsame. now right.
Qed.

Lemma checkTaskTimeouts_marks_first (w : World) :
  activeTasks (this w) !! taskId = Some taskInfo ->
  truthy (mt_response_id (ti_mainTask taskInfo)) = true ->
  is_Some (responses (store w) !! mt_response_id (ti_mainTask taskInfo)) ->
  marked_before_removed taskId taskInfo (snd (masterOrchestrator.checkTaskTimeouts w)).
Proof.
  intros Hact Hrid Hsome.
  change (masterOrchestrator.checkTaskTimeouts w)
    with (for_each (timed_out_entries w) masterOrchestrator.handle_timeout w).
  apply for_each_marks_first; [|exact Hrid|split; [exact Hsome|now left]].
  intros [id ti] He. cbn. intros ->.
  unfold timed_out_entries in He. apply list_elem_of_In, filter_In in He as [He _].
  apply list_elem_of_In, elem_of_map_to_list in He. congruence.
Qed.

End MarkedBeforeRemoved.

(** ** Failed dispatches and the retry ceiling *)








(** ** The ceiling of a quotient of doubles *)

(** For integers below 2^53 the rounding of the quotient does not change
    its ceiling: the integer part of the scaled quotient is at least
    2^52, so the quotient is rounded by less than its distance to the
    integer below it. *)
Lemma ceil_div_exact (a b : Z) :
  0 <= a < 2 ^ 53 -> 0 < b < 2 ^ 53 ->
  (float64.ceil_div a b - 1) * b < a <= float64.ceil_div a b * b.
Proof.
  intros Ha Hb. unfold float64.ceil_div.
  destruct (Z.eqb_spec a 0) as [->|Hne]; [lia|].
  assert (Hapos : 0 < a) by lia.
  rewrite (Z.abs_eq a), (Z.abs_eq b) by lia.
  rewrite (Z.sgn_pos a), (Z.sgn_pos b) by lia. cbn [Z.mul Z.ltb Z.compare Pos.mul].
  change (0 <? 1 * 1)%Z with true. cbv iota.
  unfold float64.div_pos. cbn [fst snd].
  set (e := float64.exponent a b).
  assert (Hman : 2 ^ 52 <= fst (float64.scaled a b e) / snd (float64.scaled a b e)).
  { unfold e, float64.exponent.
    destruct (Z.leb_spec (2 ^ 52)
                (fst (float64.scaled a b (Z.log2 a - Z.log2 b - 52))
                 / snd (float64.scaled a b (Z.log2 a - Z.log2 b - 52)))) as [H|H];
      [exact H|].
    pose proof (Z.log2_spec a Hapos) as [Hla1 Hla2].
    pose proof (Z.log2_spec b ltac:(lia)) as [Hlb1 Hlb2].
    pose proof (Z.log2_nonneg b) as Hlb0.
    assert (Hla : Z.log2 a < 53).
    { apply Z.log2_lt_pow2; lia. }
    unfold float64.scaled.
    destruct (Z.leb_spec 0 (Z.log2 a - Z.log2 b - 52 - 1)) as [Hge|Hlt]; [lia|].
    cbn [fst snd].
    replace (- (Z.log2 a - Z.log2 b - 52 - 1)) with (53 + Z.log2 b - Z.log2 a) by lia.
    apply Z.div_le_lower_bound; [lia|].
    assert (Hpow : 2 ^ Z.log2 a * 2 ^ (53 + Z.log2 b - Z.log2 a) = 2 ^ 52 * 2 ^ Z.succ (Z.log2 b)).
    { pose proof (Z.log2_nonneg a).
      rewrite <- (Z.pow_add_r 2 (Z.log2 a)) by lia.
      rewrite <- (Z.pow_add_r 2 52) by lia. f_equal. lia. }
    assert (0 < 2 ^ (53 + Z.log2 b - Z.log2 a)) by (apply Z.pow_pos_nonneg; lia).
    nia. }
  unfold float64.ceil, float64.scaled in *.
  destruct (Z.leb_spec 0 e) as [He|He]; cbn [fst snd] in *.
  - assert (Hp : 1 <= 2 ^ e) by (apply (Z.pow_le_mono_r 2 0 e); lia).
    assert (Hq : 2 ^ 52 * (b * 2 ^ e) <= a).
    { pose proof (Z.mul_div_le a (b * 2 ^ e) ltac:(nia)). nia. }
    assert (b * 2 ^ e = 1) by nia.
    assert (b = 1) by nia. subst b.
    assert (H2 : 2 ^ e = 1) by lia. rewrite H2 in *.
    unfold float64.nearest_even. cbv zeta.
    rewrite Z.mul_1_l, Z.div_1_r, Z.mod_1_r.
    change (2 * 0 <? 1)%Z with true. cbv iota. lia.
  - set (s := 2 ^ (- e)) in *.
    assert (Hs : 2 <= s).
    { unfold s. apply (Z.pow_le_mono_r 2 1 (- e)); lia. }
    set (m := float64.nearest_even (a * s) b).
    set (q := a * s / b) in *. 
    pose proof (Z.div_mod (a * s) b ltac:(lia)) as Hdm.
    pose proof (Z.mod_pos_bound (a * s) b ltac:(lia)) as Hr.
    fold q in Hdm.
    set (r := (a * s) mod b) in *.
    assert (Hb2 : b < 2 * s) by nia.
    assert (Hm : (m = q /\ 2 * r <= b) \/ (m = q + 1 /\ b <= 2 * r)).
    { unfold m, float64.nearest_even. cbv zeta. fold q r.
      destruct (Z.ltb_spec (2 * r) b); [left; lia|].
      destruct (Z.ltb_spec b (2 * r)); [right; lia|].
      destruct (Z.even q); [left | right]; lia. }
    set (c := - ((- m) / s)).
    assert (Hc : (c - 1) * s < m <= c * s).
    { unfold c. pose proof (Z.div_mod (- m) s ltac:(lia)).
      pose proof (Z.mod_pos_bound (- m) s ltac:(lia)). nia. }
    set (c' := - ((- a) / b)).
    assert (Hc' : (c' - 1) * b < a <= c' * b).
    { unfold c'. pose proof (Z.div_mod (- a) b ltac:(lia)).
      pose proof (Z.mod_pos_bound (- a) b ltac:(lia)). nia. }
    assert (c = c'); [|lia].
    assert (Hup : m <= c' * s).
    { destruct Hm as [[-> _]|[-> Hrr]].
      - nia.
      - destruct (Z.eq_dec a (c' * b)) as [E|E].
        + assert (Hd : r = b * (c' * s - q)) by (rewrite E in Hdm; lia).
          assert (c' * s - q = 0) by nia. lia.
        + assert (a + 1 <= c' * b) by lia.
          assert (q * b < c' * s * b) by nia.
          assert (q < c' * s) by nia. lia. }
    assert (Hlo : (c' - 1) * s < m).
    { assert (Has : (c' - 1) * s * b + s <= a * s) by nia.
      destruct Hm as [[-> Hrr]|[-> _]].
      - assert (r < s) by lia.
        assert ((c' - 1) * s * b < q * b) by nia. nia.
      - assert ((c' - 1) * s * b < (q + 1) * b) by nia. nia. }
    nia.
Qed.

(** ** The messages of a worker *)






(** ** Counting the keys that are cleared *)

Lemma key_exists_del_key (w : World) (q q' : string) :
  q <> q' ->
  redisClient.key_exists q' (redisClient.del_key q w) = redisClient.key_exists q' w.
Proof.
  intros Hne. unfold redisClient.key_exists, redisClient.list_of, redisClient.hash_of,
    redisClient.del_key. cbn.
  now rewrite !lookup_delete_ne by exact Hne.
Qed.

Lemma key_exists_del_key_same (w : World) (q : string) :
  redisClient.key_exists q (redisClient.del_key q w) = false.
Proof.
  unfold redisClient.key_exists, redisClient.list_of, redisClient.hash_of,
    redisClient.del_key. cbn.
  now rewrite !lookup_delete_eq.
Qed.

Lemma key_exists_gone (key : string) (keys : list string) (w : World) :
  redisClient.key_exists key w = false ->
  List.filter (fun key => redisClient.key_exists key w) (key :: keys)
  = List.filter (fun key => redisClient.key_exists key w) keys.
Proof. intros H. cbn [List.filter]. now rewrite H. Qed.

Lemma keys_present_cons (key : string) (keys : list string) (w : World) :
  keys_present (key :: keys) w
  = (if redisClient.key_exists key w then 1 else 0) + keys_present keys w.
Proof.
  unfold keys_present. cbn [List.filter].
  destruct (redisClient.key_exists key w); cbn [length]; lia.
Qed.

Lemma keys_present_del_key (w : World) (q : string) (keys : list string) :
  q ∉ keys ->
  keys_present keys (redisClient.del_key q w) = keys_present keys w.
Proof.
  intros Hq. induction keys as [|k keys IH]; [reflexivity|].
  rewrite !keys_present_cons, IH by (intros H; apply Hq; now right).
  rewrite key_exists_del_key; [reflexivity|]. intros ->. apply Hq. now left.
Qed.

Lemma keys_present_app (ks ks' : list string) (w : World) :
  keys_present (ks ++ ks') w = keys_present ks w + keys_present ks' w.
Proof.
  unfold keys_present. rewrite List.filter_app, length_app. lia.
Qed.

Lemma key_exists_clear_dimensions (ds : list string) (q : string) (w : World) :
  q ∉ map redisClient.dimension_queue ds ->
  redisClient.key_exists q
    (fold_left (fun w d => redisClient.del_key (redisClient.dimension_queue d) w) ds w)
  = redisClient.key_exists q w.
Proof.
  revert w. induction ds as [|d ds IH]; intros w Hq; [reflexivity|]. cbn [fold_left].
  rewrite IH by (intros H; apply Hq; now right).
  apply key_exists_del_key. intros E. apply Hq. rewrite <- E. now left.
Qed.

(** The dimension queues are cleared one after the other; each reply counts
    the key if it was there before the first of them was cleared. *)
Lemma run_clear_dimensions_count (ds : list string) (c : Z) (w : World) :
  faults w = [] ->
  NoDup ds ->
  taskEnqueue.clear_dimensions ds c w
  = (Ok (c + keys_present (map redisClient.dimension_queue ds) w),
     fold_left (fun w d => redisClient.del_key (redisClient.dimension_queue d) w) ds w).
Proof.
  revert c w. induction ds as [|d ds IH]; intros c w Hf Hnd;
    cbn [taskEnqueue.clear_dimensions map fold_left].
  - unfold keys_present. cbn. now rewrite Z.add_0_r.
  - apply NoDup_cons in Hnd as [Hd Hnd].
    await_ok ltac:(now apply run_clearQueue).
    rewrite IH by (exact Hf || exact Hnd).
    rewrite keys_present_cons, keys_present_del_key, Z.add_assoc; [reflexivity|].
    intros Hin. apply Hd. apply list_elem_of_In, in_map_iff in Hin as (d' & E & Hd').
    apply dimension_queue_inj in E. subst d'. now apply list_elem_of_In.
Qed.

Lemma cleared_keys_distinct : NoDup cleared_keys.
Proof. apply (bool_decide_unpack _). vm_compute. exact I. Qed.

(** * The claims *)

(** ** C1: the final score *)

(** C1, as stated, fails in the "mixed errors" scenario: instruction 0.9,
    hallucination failing with score 0, assumption 1.0, coherence 0.6,
    accuracy 0.8. The set of error-free dimensions is not empty and the
    formula of the claim gives 0.84, but the evaluation that the finaliser
    writes carries 0.63: the weight of the failed dimension stays in the
    denominator. *)
Lemma C1_counterexample :
  exists e,
    evaluations (store (Examples.after (masterOrchestrator.finalizeTask "uuid-0")
                          Examples.mixed_ready)) = [e] /\
    evaluations (store (world Examples.mixed_final)) = [e] /\
    List.filter (error_free Examples.mixed_hash) config.DIMENSIONS <> [] /\
    (spec_final_score Examples.mixed_hash == 0.84)%Q /\
    (ev_final_score e == 0.63)%Q /\
    ~ (ev_final_score e == spec_final_score Examples.mixed_hash)%Q.
Proof.
  eexists. split; [vm_compute; reflexivity|].
  split; [vm_compute; reflexivity|].
  split; [vm_compute; discriminate|].
  split; [vm_compute; reflexivity|].
  split; [vm_compute; reflexivity|].
  intros H. vm_compute in H. discriminate.
Qed.

(** C1, amended: when a task is finalised and at least one dimension has a
    stored result, the final score written into the evaluation is the
    weighted sum of the stored scores of every dimension that has a result,
    failed ones included, divided by the sum of the weights of those
    dimensions; only a dimension with no stored result is left out of the
    denominator (its score is recorded as 0). Every dimension that is
    missing or carries an error adds one entry to the processing errors.
    In the "mixed errors" scenario the final score is 0.63. *)
Theorem C1_final_score_over_stored_results :
  (forall (w : World) (taskId : string) (taskInfo : option TaskInfo),
     faults w = [] ->
     5 <= hLen (redisClient.hash_of w (redisClient.results_key taskId)) ->
     truthy (resolved_response_id taskInfo
               (redisClient.hash_of w (redisClient.results_key taskId))) = true ->
     has_evaluation w (resolved_response_id taskInfo
               (redisClient.hash_of w (redisClient.results_key taskId))) = false ->
     List.filter (has_result (redisClient.hash_of w (redisClient.results_key taskId)))
       config.DIMENSIONS <> [] ->
     exists e w',
       let h := redisClient.hash_of w (redisClient.results_key taskId) in
       masterOrchestrator.finalizeTaskWithInfo taskId taskInfo w = (Ok tt, w') /\
       evaluations (store w') = (evaluations (store w) ++ [e])%list /\
       (ev_final_score e == present_final_score h)%Q /\
       (forall d, d ∈ config.DIMENSIONS -> ev_scores e !! d = Some (stored_score h d)) /\
       ev_processing_errors e = omap (error_entry h) config.DIMENSIONS)
  /\ (present_final_score Examples.mixed_hash == 0.63)%Q.
Proof.
  split; [|vm_compute; reflexivity].
  intros w taskId taskInfo Hf Hlen Hrid Hnew Hsome.
  exists (evaluation_of taskId taskInfo w), (finalized taskId taskInfo w).
  cbv zeta. split; [now apply finalize_writes|].
  split; [reflexivity|].
  split; [now apply normalize_aggregate|].
  split.
  - intros d Hd. cbn [evaluation_of ev_scores].
    unfold masterOrchestrator.aggregate, masterOrchestrator.aggregate_over.
    rewrite aggregate_scores. now rewrite bool_decide_eq_true_2.
  - apply processing_errors_of_aggregate.
Qed.

Lemma C1_final_score_over_stored_results_witness :
  faults Examples.mixed_ready = [] /\
  5 <= hLen Examples.mixed_hash /\
  exists e w',
    masterOrchestrator.finalizeTaskWithInfo "uuid-0" Examples.mixed_info Examples.mixed_ready
      = (Ok tt, w') /\
    evaluations (store w') = (evaluations (store Examples.mixed_ready) ++ [e])%list /\
    (ev_final_score e == present_final_score Examples.mixed_hash)%Q /\
    (forall d, d ∈ config.DIMENSIONS ->
               ev_scores e !! d = Some (stored_score Examples.mixed_hash d)) /\
    ev_processing_errors e = omap (error_entry Examples.mixed_hash) config.DIMENSIONS.
Proof.
  split; [reflexivity|]. split; [vm_compute; discriminate|].
  apply (proj1 C1_final_score_over_stored_results
           Examples.mixed_ready "uuid-0" Examples.mixed_info).
  - reflexivity.
  - vm_compute; discriminate.
  - vm_compute; reflexivity.
  - vm_compute; reflexivity.
  - vm_compute; discriminate.
Defined.

(** ** C2: every dimension fails *)

(** C2, as stated, fails when the five workers crash: the five stored
    results carry an error, the evaluation gets final score 0 and five
    processing errors, and the record is set to [completed], not to
    [failed]. *)
Lemma C2_counterexample :
  (forall d, d ∈ config.DIMENSIONS -> has_error Examples.failing_hash d = true) /\
  (exists e,
     evaluations (store (world Examples.failing_final)) = [e] /\
     (ev_final_score e == 0)%Q /\
     length (ev_processing_errors e) = 5%nat) /\
  status_of (world Examples.failing_final) "r1" = Some completed /\
  status_of (world Examples.failing_final) "r1" <> Some failed.
Proof.
  split.
  - intros d Hd. unfold config.DIMENSIONS in Hd.
    repeat (apply elem_of_cons in Hd; destruct Hd as [->|Hd]; [vm_compute; reflexivity|]).
    now apply elem_of_nil in Hd.
  - split.
    { eexists. split; [vm_compute; reflexivity|].
      split; vm_compute; reflexivity. }
    split; [vm_compute; reflexivity|]. vm_compute. discriminate.
Qed.

(** C2, amended: for every task in which all five stored dimension results
    carry an error, finalisation writes an evaluation whose processing
    errors have five entries and whose final score is the weighted mean of
    the five stored scores, hence 0 when the failed results carry score 0
    as the error results of the workers do; the record's status is set to
    [completed]. *)
Theorem C2_all_failed_is_completed
    (w : World) (taskId : string) (taskInfo : option TaskInfo) :
  faults w = [] ->
  5 <= hLen (redisClient.hash_of w (redisClient.results_key taskId)) ->
  truthy (resolved_response_id taskInfo
            (redisClient.hash_of w (redisClient.results_key taskId))) = true ->
  has_evaluation w (resolved_response_id taskInfo
            (redisClient.hash_of w (redisClient.results_key taskId))) = false ->
  (forall d, d ∈ config.DIMENSIONS ->
     has_error (redisClient.hash_of w (redisClient.results_key taskId)) d = true) ->
  exists e w',
    let h := redisClient.hash_of w (redisClient.results_key taskId) in
    let responseId := resolved_response_id taskInfo h in
    masterOrchestrator.finalizeTaskWithInfo taskId taskInfo w = (Ok tt, w') /\
    evaluations (store w') = (evaluations (store w) ++ [e])%list /\
    length (ev_processing_errors e) = 5%nat /\
    (ev_final_score e == weighted_mean (fun _ => true) h)%Q /\
    ((forall d, d ∈ config.DIMENSIONS -> (stored_score h d == 0)%Q) ->
     (ev_final_score e == 0)%Q) /\
    status_of w' responseId = (fun _ => completed) <$> status_of w responseId.
Proof.
  intros Hf Hlen Hrid Hnew Herr.
  set (h := redisClient.hash_of w (redisClient.results_key taskId)) in *.
  exists (evaluation_of taskId taskInfo w), (finalized taskId taskInfo w).
  cbv zeta. fold h.
  assert (Hall : List.filter (has_result h) config.DIMENSIONS = config.DIMENSIONS).
  { apply filter_all_true. intros d Hd. now apply has_error_result, Herr. }
  assert (Hscore : (ev_final_score (evaluation_of taskId taskInfo w)
                    == weighted_mean (fun _ => true) h)%Q).
  { cbn [evaluation_of ev_final_score]. fold h.
    rewrite normalize_aggregate by (rewrite Hall; discriminate).
    unfold present_final_score, weighted_mean. rewrite Hall. reflexivity. }
  split; [now apply finalize_writes|].
  split; [reflexivity|].
  split.
  { cbn [evaluation_of ev_processing_errors]. fold h.
    rewrite processing_errors_of_aggregate.
    rewrite omap_all_Some; [reflexivity|].
    intros d Hd. now apply has_error_entry, Herr. }
  split; [exact Hscore|].
  split.
  { intros Hzero. rewrite Hscore. unfold weighted_mean.
    change (List.filter (fun _ => true) config.DIMENSIONS) with config.DIMENSIONS.
    rewrite Qsum_zero_scores by assumption.
    unfold Qdiv. ring. }
  apply finalized_status.
Qed.

Lemma C2_all_failed_is_completed_witness :
  faults Examples.failing_ready = [] /\
  (forall d, d ∈ config.DIMENSIONS ->
     has_error (redisClient.hash_of Examples.failing_ready
                  (redisClient.results_key "uuid-0")) d = true) /\
  exists e w',
    let h := redisClient.hash_of Examples.failing_ready
               (redisClient.results_key "uuid-0") in
    let responseId := resolved_response_id Examples.failing_info h in
    masterOrchestrator.finalizeTaskWithInfo "uuid-0" Examples.failing_info
      Examples.failing_ready = (Ok tt, w') /\
    evaluations (store w') = (evaluations (store Examples.failing_ready) ++ [e])%list /\
    length (ev_processing_errors e) = 5%nat /\
    (ev_final_score e == weighted_mean (fun _ => true) h)%Q /\
    ((forall d, d ∈ config.DIMENSIONS -> (stored_score h d == 0)%Q) ->
     (ev_final_score e == 0)%Q) /\
    status_of w' responseId
    = (fun _ => completed) <$> status_of Examples.failing_ready responseId.
Proof.
  assert (Herr : forall d, d ∈ config.DIMENSIONS ->
                   has_error (redisClient.hash_of Examples.failing_ready
                                (redisClient.results_key "uuid-0")) d = true).
  { intros d Hd. unfold config.DIMENSIONS in Hd.
    repeat (apply elem_of_cons in Hd; destruct Hd as [->|Hd]; [vm_compute; reflexivity|]).
    now apply elem_of_nil in Hd. }
  split; [reflexivity|]. split; [exact Herr|].
  apply (C2_all_failed_is_completed Examples.failing_ready "uuid-0" Examples.failing_info).
  - reflexivity.
  - vm_compute; discriminate.
  - vm_compute; reflexivity.
  - vm_compute; reflexivity.
  - exact Herr.
Defined.

(** ** C3: finalising a record that already has an evaluation *)

(** C3, as stated, fails under duplicate delivery: the task is finalised,
    the broker delivers the main task again, it is dispatched and answered
    again, and the finaliser runs a second time for the same task id. The
    insert is rejected by the unique index, and the record, whose
    evaluation is stored, is marked [failed]. *)
Lemma C3_counterexample :
  has_evaluation Examples.again_ready "r1" = true /\
  status_of Examples.again_ready "r1" = Some processing /\
  status_of (Examples.after (masterOrchestrator.finalizeTask "uuid-0") Examples.again_ready)
    "r1" = Some failed /\
  status_of (world Examples.again_final) "r1" = Some failed /\
  length (evaluations (store (world Examples.again_final))) = 1%nat.
Proof. repeat split; vm_compute; reflexivity. Qed.

(** C3, amended: the finaliser runs while the store and the broker answer.
    (1) The task is complete and the finaliser can determine the record id,
    from the in-flight entry or else from a [response_id] in the details
    of a stored result, and that record already has an evaluation: the
    insert is rejected by the unique index and the rejection is caught; no
    second evaluation is written, the partial results are deleted and the
    in-flight entry is removed. The record's status is left unchanged when
    the finaliser runs without in-flight information for the task
    ([finalizeTaskById]); when the in-flight entry names the record, the
    record is marked [failed].
    (2) The finaliser cannot determine the record id: it returns before the
    insert, and nothing is written, rejected, caught or deleted.
    (3) That is the case on the late-result path ([taskInfo] absent) when
    no stored result's details carry a [response_id]. *)
Theorem C3_conflict_is_caught
    (w : World) (taskId : string) (taskInfo : option TaskInfo) :
  faults w = [] ->
  (5 <= hLen (redisClient.hash_of w (redisClient.results_key taskId)) ->
   truthy (resolved_response_id taskInfo
             (redisClient.hash_of w (redisClient.results_key taskId))) = true ->
   has_evaluation w (resolved_response_id taskInfo
             (redisClient.hash_of w (redisClient.results_key taskId))) = true ->
   exists w',
     masterOrchestrator.finalizeTaskWithInfo taskId taskInfo w = (Ok tt, w') /\
     evaluations (store w') = evaluations (store w) /\
     partial_results (broker w') !! redisClient.results_key taskId = None /\
     activeTasks (this w') !! taskId = None /\
     (taskInfo = None -> responses (store w') = responses (store w)) /\
     (forall ti, taskInfo = Some ti ->
        truthy (mt_response_id (ti_mainTask ti)) = true ->
        status_of w' (mt_response_id (ti_mainTask ti))
        = (fun _ => failed) <$> status_of w (mt_response_id (ti_mainTask ti)))) /\
  (truthy (resolved_response_id taskInfo
             (redisClient.hash_of w (redisClient.results_key taskId))) = false ->
   masterOrchestrator.finalizeTaskWithInfo taskId taskInfo w = (Ok tt, w)) /\
  (taskInfo = None ->
   (forall fr, In fr (redisClient.hash_of w (redisClient.results_key taskId)) ->
      truthy (obj_get (pr_details (snd fr)) "response_id") = false) ->
   masterOrchestrator.finalizeTaskWithInfo taskId taskInfo w = (Ok tt, w)).
Proof.
  intros Hf. split; [|split].
  - intros Hlen Hrid Hold.
    exists (finalize_caught taskId taskInfo w).
    split; [now apply finalize_conflict|].
    split.
    { unfold finalize_caught.
      now destruct (truthy (masterOrchestrator.task_field mt_response_id taskInfo)). }
    split; [apply lookup_delete_eq|].
    split; [apply lookup_delete_eq|].
    split.
    + intros ->. reflexivity.
    + intros ti -> Ht. now apply caught_status.
  - intros Hrid. now apply finalize_unknown.
  - intros -> Hnone. apply finalize_unknown; [exact Hf|].
    now rewrite resolved_of_results, response_id_of_results_none.
Qed.

Lemma C3_conflict_is_caught_witness :
  (faults Examples.again_ready = [] /\
   has_evaluation Examples.again_ready "r1" = true /\
   exists w',
     masterOrchestrator.finalizeTaskWithInfo "uuid-0" Examples.again_info
       Examples.again_ready = (Ok tt, w') /\
     evaluations (store w') = evaluations (store Examples.again_ready) /\
     partial_results (broker w') !! redisClient.results_key "uuid-0" = None /\
     activeTasks (this w') !! "uuid-0" = None /\
     (Examples.again_info = None ->
      responses (store w') = responses (store Examples.again_ready)) /\
     (forall ti, Examples.again_info = Some ti ->
        truthy (mt_response_id (ti_mainTask ti)) = true ->
        status_of w' (mt_response_id (ti_mainTask ti))
        = (fun _ => failed)
            <$> status_of Examples.again_ready (mt_response_id (ti_mainTask ti)))) /\
  (activeTasks (this Examples.named_ready) !! "uuid-0" = None /\
   has_evaluation Examples.named_ready "r1" = true /\
   status_of Examples.named_ready "r1" = Some completed /\
   exists w',
     masterOrchestrator.finalizeTaskWithInfo "uuid-0" None Examples.named_ready
     = (Ok tt, w') /\
     evaluations (store w') = evaluations (store Examples.named_ready) /\
     partial_results (broker w') !! redisClient.results_key "uuid-0" = None /\
     responses (store w') = responses (store Examples.named_ready)) /\
  (hLen (redisClient.hash_of (world Examples.late_final)
           (redisClient.results_key "uuid-0")) = 5 /\
   masterOrchestrator.finalizeTaskWithInfo "uuid-0" None (world Examples.late_final)
   = (Ok tt, world Examples.late_final)).
Proof.
  split; [|split].
  - split; [reflexivity|]. split; [vm_compute; reflexivity|].
    apply (C3_conflict_is_caught Examples.again_ready "uuid-0" Examples.again_info).
    + reflexivity.
    + vm_compute; discriminate.
    + vm_compute; reflexivity.
    + vm_compute; reflexivity.
  - split; [vm_compute; reflexivity|]. split; [vm_compute; reflexivity|].
    split; [vm_compute; reflexivity|].
    destruct (proj1 (C3_conflict_is_caught Examples.named_ready "uuid-0" None
                       ltac:(vm_compute; reflexivity)))
      as (w' & Hrun & Hev & Hpart & _ & Hresp & _).
    + vm_compute; discriminate.
    + vm_compute; reflexivity.
    + vm_compute; reflexivity.
    + exists w'. repeat split; [exact Hrun | exact Hev | exact Hpart | now apply Hresp].
  - split; [vm_compute; reflexivity|].
    apply (C3_conflict_is_caught (world Examples.late_final) "uuid-0" None).
    + vm_compute; reflexivity.
    + reflexivity.
    + intros fr Hin. apply negb_true_iff. revert fr Hin.
      apply (proj1 (forallb_forall
                      (fun fr : string * PartialResult =>
                         negb (truthy (obj_get (pr_details (snd fr)) "response_id"))) _)).
      vm_compute; reflexivity.
Defined.

(** ** C4: retry exhaustion in the enqueue facade *)

(** C4 at a failing input, with MAX_RETRIES = 3: the record of a timed-out
    task has been requeued four times and has failed each time. The fifth
    call of [requeueFailedResponse] is accepted all the same: it answers
    [success: true], pushes a fifth task (again with retry count 1) onto
    the task queue and sets the record to [queued]. *)
Theorem C4_requeue_is_never_exhausted :
  MAX_RETRIES Examples.requeued_four_times = 3 /\
  status_of Examples.requeued_four_times "r1" = Some failed /\
  length (redisClient.list_of (task_lists (broker Examples.requeued_four_times))
            config.TASK_QUEUE_NAME) = 4%nat /\
  fst (taskEnqueue.requeueFailedResponse "r1" "manual_retry" Examples.requeued_four_times)
  = Ok (mkRequeueReply true "") /\
  mt_retry_count
    <$> redisClient.list_of
          (task_lists (broker (Examples.after
             (taskEnqueue.requeueFailedResponse "r1" "manual_retry")
             Examples.requeued_four_times)))
          config.TASK_QUEUE_NAME
  = [Some 1; Some 1; Some 1; Some 1; Some 1] /\
  status_of (Examples.after (taskEnqueue.requeueFailedResponse "r1" "manual_retry")
               Examples.requeued_four_times) "r1" = Some queued.
Proof. repeat split; vm_compute; reflexivity. Qed.

(** ** C5: the concurrency cap of the dispatch loop *)

(** C5, as stated, fails with [maxConcurrentTasks = 1] and two enqueued
    records: once the first task is fanned out, its counter is released
    although the task is still in flight, so the loop pops the second task
    while one task is in flight, and both records are in [processing] at
    the same time. *)
Lemma C5_counterexample :
  started Examples.capped /\
  maxConcurrentTasks (this (world Examples.capped)) = 1 /\
  pops EvPop Examples.capped_before_second_pop /\
  in_flight (world Examples.capped_before_second_pop)
  = maxConcurrentTasks (this (world Examples.capped_before_second_pop)) /\
  length (records_in processing (world Examples.capped_after_second_dispatch)) = 2%nat /\
  in_flight (world Examples.capped_after_second_dispatch) = 2.
Proof.
  split; [repeat split; vm_compute; reflexivity|].
  split; [reflexivity|].
  split.
  { split; [reflexivity|]. split; [vm_compute; reflexivity|].
    do 2 eexists. vm_compute. reflexivity. }
  repeat split; vm_compute; reflexivity.
Qed.

(** C5, amended: what the dispatch loop caps is [runningTasks], the number
    of calls of [processMainTask] that have started and not yet finished
    fanning out: in every state reachable from a freshly started
    orchestrator, however its activities interleave, that counter equals
    the number of pending calls, the loop pops from the main queue only
    while it is below [maxConcurrentTasks], and it never exceeds a
    non-negative cap. The counter is released at the
    end of the fan-out, not when the task is finalised, timed out or
    failed, so neither the number of in-flight tasks nor the number of
    records in [processing] is bounded by the cap. *)
Theorem C5_cap_on_running_dispatches (s0 : System) (trace : list Event) :
  started s0 ->
  maxConcurrentTasks (this (world (exec trace s0)))
  = maxConcurrentTasks (this (world s0)) /\
  runningTasks (this (world (exec trace s0)))
  = Z.of_nat (length (dispatching (exec trace s0))) /\
  (forall e, pops e (exec trace s0) ->
     runningTasks (this (world (exec trace s0)))
     < maxConcurrentTasks (this (world (exec trace s0)))) /\
  (0 <= maxConcurrentTasks (this (world s0)) ->
   runningTasks (this (world (exec trace s0))) <= maxConcurrentTasks (this (world s0))).
Proof.
  intros (Hrun & Hdisp & Hloop).
  assert (Hinit : dispatch_invariant (maxConcurrentTasks (this (world s0))) s0).
  { repeat split.
    - now rewrite Hrun, Hdisp.
    - rewrite Hloop. discriminate.
    - intros H. now rewrite Hrun. }
  destruct (exec_invariant _ trace s0 Hinit) as (H1 & H2 & H3 & H4).
  split; [exact H1|]. split; [exact H2|]. split; [|exact H4].
  intros e (_ & Hpop & _). rewrite H1. now apply H3.
Qed.

Lemma C5_cap_on_running_dispatches_witness :
  started Examples.capped /\
  maxConcurrentTasks
    (this (world (exec [EvGuard; EvPop; EvDispatch 0%nat; EvGuard] Examples.capped)))
  = maxConcurrentTasks (this (world Examples.capped)) /\
  runningTasks
    (this (world (exec [EvGuard; EvPop; EvDispatch 0%nat; EvGuard] Examples.capped)))
  = Z.of_nat (length (dispatching
                        (exec [EvGuard; EvPop; EvDispatch 0%nat; EvGuard] Examples.capped))) /\
  (forall e, pops e (exec [EvGuard; EvPop; EvDispatch 0%nat; EvGuard] Examples.capped) ->
     runningTasks
       (this (world (exec [EvGuard; EvPop; EvDispatch 0%nat; EvGuard] Examples.capped)))
     < maxConcurrentTasks
         (this (world (exec [EvGuard; EvPop; EvDispatch 0%nat; EvGuard] Examples.capped)))) /\
  (0 <= maxConcurrentTasks (this (world Examples.capped)) ->
   runningTasks
     (this (world (exec [EvGuard; EvPop; EvDispatch 0%nat; EvGuard] Examples.capped)))
   <= maxConcurrentTasks (this (world Examples.capped))).
Proof.
  assert (Hs : started Examples.capped) by (repeat split; vm_compute; reflexivity).
  split; [exact Hs|].
  apply (C5_cap_on_running_dispatches Examples.capped
           [EvGuard; EvPop; EvDispatch 0%nat; EvGuard]).
  exact Hs.
Defined.

(** ** C6: the batch progress identity *)




(** ** C7: results that arrive for a task no longer in flight *)

(** C7 at a failing input: the task is swept by the timeout monitor and
    then its five results arrive, each message carrying the record id
    [r1], a score and no error. The hash holds all five dimensions, the
    record is in the store, and yet the finaliser cannot determine the
    record id, because the collector does not copy it into the stored
    partial results: no evaluation is written and the partial results are
    left behind. *)
Theorem C7_late_results_write_no_evaluation :
  activeTasks (this (world Examples.late_answered)) !! "uuid-0" = None /\
  dr_response_id
    <$> redisClient.list_of (result_lists (broker (world Examples.late_answered)))
          config.RESULTS_QUEUE_NAME
  = ["r1"; "r1"; "r1"; "r1"; "r1"] /\
  is_Some (responses (store (world Examples.late_answered)) !! "r1") /\
  hLen (redisClient.hash_of (world Examples.late_final) (redisClient.results_key "uuid-0"))
  = 5 /\
  masterOrchestrator.response_id_of_results
    (redisClient.hash_of (world Examples.late_final) (redisClient.results_key "uuid-0"))
  = "" /\
  evaluations (store (world Examples.late_final)) = [] /\
  status_of (world Examples.late_final) "r1" = Some failed.
Proof.
  split; [vm_compute; reflexivity|].
  split; [vm_compute; reflexivity|].
  split; [vm_compute; eauto|].
  repeat split; vm_compute; reflexivity.
Qed.

(** ** C8: the timeout monitor *)

(** C8, as stated, fails when the store does not answer during the sweep:
    at the first call of the monitor after the task's deadline, which
    comes exactly task timeout plus sweep interval after the monitor was
    armed, the call that marks the record fails; the error is caught, the
    record stays [processing] and the task stays in flight with none of
    its partial results recorded. The record is failed by the next call,
    one more interval later. *)
Lemma C8_counterexample :
  let w := with_faults [true] Examples.at_first_sweep in
  let w1 := Examples.after masterOrchestrator.checkTaskTimeouts w in
  let w2 := Examples.after masterOrchestrator.checkTaskTimeouts
              (with_clock (clock w + masterOrchestrator.SWEEP_INTERVAL) w1) in
  activeTasks (this w) !! "uuid-0" = Some Examples.dispatched_info /\
  hLen (redisClient.hash_of w (redisClient.results_key "uuid-0")) = 0 /\
  taskTimeout (this w) < clock w - ti_startTime Examples.dispatched_info /\
  clock w = punctual 0 5 /\
  first_sweep_after (punctual 0)
    (ti_startTime Examples.dispatched_info + taskTimeout (this w)) 5 /\
  status_of w1 "r1" = Some processing /\
  activeTasks (this w1) !! "uuid-0" = Some Examples.dispatched_info /\
  status_of w2 "r1" = Some failed /\
  ti_startTime Examples.dispatched_info + taskTimeout (this w)
  + masterOrchestrator.SWEEP_INTERVAL < clock w2.
Proof.
  cbv zeta. split_and!; try (vm_compute; reflexivity).
  split; [vm_compute; reflexivity|].
  intros m Hm. do 5 (destruct m as [|m]; [vm_compute; discriminate|]). lia.
Qed.

(** C8, amended. (1) Whenever the sweeper runs at a time when the age of an
    in-flight task exceeds the task timeout, the task names a record that
    exists, and the store and the broker answer during the run, the
    sweeper marks the record failed, deletes the partial results and
    removes the in-flight entry, however many partial results are
    recorded. (2) The monitor, armed no later than the deadline (start
    time plus task timeout), makes a first call after the deadline, and
    that call comes no later than the deadline plus the sweep interval
    plus the lateness of the interval timer. (3) Whatever fails, the
    sweeper returns normally, puts nothing on any queue (it does not
    requeue the task) and writes no evaluation. (4) Whatever fails, after
    a run the task is still in flight, or its entry is gone and its record
    is marked failed: the entry is removed only after the record has been
    marked. *)
Theorem C8_sweep_fails_timed_out_task :
  (forall (w : World) (taskId : string) (taskInfo : TaskInfo),
     faults w = [] ->
     activeTasks (this w) !! taskId = Some taskInfo ->
     truthy (mt_response_id (ti_mainTask taskInfo)) = true ->
     is_Some (responses (store w) !! mt_response_id (ti_mainTask taskInfo)) ->
     taskTimeout (this w) < clock w - ti_startTime taskInfo ->
     exists w',
       masterOrchestrator.checkTaskTimeouts w = (Ok tt, w') /\
       status_of w' (mt_response_id (ti_mainTask taskInfo)) = Some failed /\
       partial_results (broker w') !! redisClient.results_key taskId = None /\
       activeTasks (this w') !! taskId = None /\
       task_lists (broker w') = task_lists (broker w) /\
       dimension_lists (broker w') = dimension_lists (broker w) /\
       evaluations (store w') = evaluations (store w)) /\
  (forall (started_at lateness deadline : Z) (fires : nat -> Z),
     masterOrchestrator.timeoutMonitor_schedule started_at lateness fires ->
     started_at <= deadline ->
     (exists n, first_sweep_after fires deadline n) /\
     (forall n, first_sweep_after fires deadline n ->
        deadline < fires n <= deadline + masterOrchestrator.SWEEP_INTERVAL + lateness)) /\
  (forall w : World,
     fst (masterOrchestrator.checkTaskTimeouts w) = Ok tt /\
     sweep_kept w (snd (masterOrchestrator.checkTaskTimeouts w))) /\
  (forall (w : World) (taskId : string) (taskInfo : TaskInfo),
     activeTasks (this w) !! taskId = Some taskInfo ->
     truthy (mt_response_id (ti_mainTask taskInfo)) = true ->
     is_Some (responses (store w) !! mt_response_id (ti_mainTask taskInfo)) ->
     marked_before_removed taskId taskInfo (snd (masterOrchestrator.checkTaskTimeouts w))).
Proof.
  split_and!.
  - intros w taskId taskInfo Hf Hact Hrid [r Hr] Hage.
    eexists. split; [now apply run_checkTaskTimeouts|].
    assert (Hin : (taskId, taskInfo) ∈ timed_out_entries w).
    { unfold timed_out_entries. apply list_elem_of_In, filter_In. split.
      - apply list_elem_of_In, elem_of_map_to_list. exact Hact.
      - unfold masterOrchestrator.timed_out. cbn [snd]. apply Z.ltb_lt. lia. }
    destruct (sweep_entry_effect taskId (mt_response_id (ti_mainTask taskInfo)) taskInfo
                (timed_out_entries w) w Hin eq_refl Hrid) as (H1 & H2 & H3).
    destruct (sweep_keeps_queues (timed_out_entries w) w) as (Q1 & Q2 & _ & Q4).
    cbv zeta in H3. split.
    { rewrite H3. unfold status_of. now rewrite Hr. }
    repeat split; assumption.
  - intros started_at lateness deadline fires Hs Harmed. split.
    + exact (first_sweep_after_exists started_at lateness fires Hs deadline).
    + intros n Hn. split; [apply Hn|].
      exact (first_sweep_after_bound started_at lateness fires Hs deadline n Harmed Hn).
  - intros w. split; [|apply sweep_kept_checkTaskTimeouts].
    change (masterOrchestrator.checkTaskTimeouts w)
      with (for_each (timed_out_entries w) masterOrchestrator.handle_timeout w).
    apply for_each_handle_timeout_returns.
  - intros w taskId taskInfo. apply checkTaskTimeouts_marks_first.
Qed.

Lemma C8_sweep_fails_timed_out_task_witness :
  (faults Examples.at_first_sweep = [] /\
   activeTasks (this Examples.at_first_sweep) !! "uuid-0" = Some Examples.dispatched_info /\
   exists w',
     masterOrchestrator.checkTaskTimeouts Examples.at_first_sweep = (Ok tt, w') /\
     status_of w' (mt_response_id (ti_mainTask Examples.dispatched_info)) = Some failed /\
     partial_results (broker w') !! redisClient.results_key "uuid-0" = None /\
     activeTasks (this w') !! "uuid-0" = None /\
     task_lists (broker w') = task_lists (broker Examples.at_first_sweep) /\
     dimension_lists (broker w') = dimension_lists (broker Examples.at_first_sweep) /\
     evaluations (store w') = evaluations (store Examples.at_first_sweep)) /\
  ((exists n, first_sweep_after (punctual 0) 301000 n) /\
   (forall n, first_sweep_after (punctual 0) 301000 n ->
      301000 < punctual 0 n <= 301000 + masterOrchestrator.SWEEP_INTERVAL + 0)) /\
  marked_before_removed "uuid-0" Examples.dispatched_info
    (snd (masterOrchestrator.checkTaskTimeouts
            (with_faults [true] Examples.at_first_sweep))).
Proof.
  pose proof C8_sweep_fails_timed_out_task as (Heffect & Htimer & _ & Hmarked).
  split_and!.
  - reflexivity.
  - vm_compute; reflexivity.
  - apply (Heffect Examples.at_first_sweep "uuid-0" Examples.dispatched_info).
    + reflexivity.
    + vm_compute; reflexivity.
    + reflexivity.
    + vm_compute; eauto.
    + vm_compute; reflexivity.
  - apply (Htimer 0 0 301000 (punctual 0)); [apply punctual_schedule | lia].
  - apply (Htimer 0 0 301000 (punctual 0)); [apply punctual_schedule | lia].
  - apply (Hmarked (with_faults [true] Examples.at_first_sweep) "uuid-0"
             Examples.dispatched_info).
    + vm_compute; reflexivity.
    + reflexivity.
    + vm_compute; eauto.
Defined.

(** ** C9: scores outside [0,1] *)




(** ** C10: the retry count of main tasks *)




(** * Further verified properties *)

(** ** X1: the final score stays in the unit interval *)

(** X1. When every stored score of a complete task lies in [0,1], the
    evaluation that [finalizeTaskWithInfo] writes has a final score in
    [0,1]: the score is a convex combination of the stored scores, the
    weights being positive and the sum being divided by their total. *)
Theorem X1_final_score_in_unit_interval
    (w : World) (taskId : string) (taskInfo : option TaskInfo) :
  faults w = [] ->
  5 <= hLen (redisClient.hash_of w (redisClient.results_key taskId)) ->
  truthy (resolved_response_id taskInfo
            (redisClient.hash_of w (redisClient.results_key taskId))) = true ->
  has_evaluation w (resolved_response_id taskInfo
            (redisClient.hash_of w (redisClient.results_key taskId))) = false ->
  (forall d, d ∈ config.DIMENSIONS ->
     (0 <= stored_score (redisClient.hash_of w (redisClient.results_key taskId)) d <= 1)%Q) ->
  exists e w',
    masterOrchestrator.finalizeTaskWithInfo taskId taskInfo w = (Ok tt, w') /\
    evaluations (store w') = (evaluations (store w) ++ [e])%list /\
    (0 <= ev_final_score e <= 1)%Q.
Proof.
  intros Hf Hlen Hrid Hnew Hr.
  exists (evaluation_of taskId taskInfo w), (finalized taskId taskInfo w).
  split; [now apply finalize_writes|].
  split; [reflexivity|].
  cbn [evaluation_of ev_final_score]. now apply normalize_in_range.
Qed.

Lemma X1_final_score_in_unit_interval_witness :
  exists e w',
    masterOrchestrator.finalizeTaskWithInfo "uuid-0" Examples.mixed_info Examples.mixed_ready
    = (Ok tt, w') /\
    evaluations (store w') = (evaluations (store Examples.mixed_ready) ++ [e])%list /\
    (0 <= ev_final_score e <= 1)%Q.
Proof.
  apply (X1_final_score_in_unit_interval Examples.mixed_ready "uuid-0" Examples.mixed_info).
  - reflexivity.
  - vm_compute; discriminate.
  - vm_compute; reflexivity.
  - vm_compute; reflexivity.
  - intros d Hd. unfold config.DIMENSIONS in Hd.
    repeat (apply elem_of_cons in Hd; destruct Hd as [->|Hd];
            [split; vm_compute; discriminate|]).
    now apply elem_of_nil in Hd.
Defined.

(** ** X3: what a worker sends *)



(** ** X4: the completion estimate *)

(** X4. [estimateCompletionTime] returns [null] exactly when no worker is
    active. For a backlog and a number of workers below 2^53, the counts
    that doubles hold exactly, it returns the least number of minutes [m]
    with [m * workers >= remaining], so that an empty backlog gives 0.
    Beyond that range the quotient is rounded before its ceiling is
    taken: 18014398509481996 tasks and 3 workers give 6004799503160665,
    one less than the least such [m]. *)
Theorem X4_estimate_is_ceiling (remaining workers : Z) :
  (taskEnqueue.estimateCompletionTime remaining workers = None <-> workers = 0) /\
  (0 <= remaining < 2 ^ 53 ->
   0 < workers < 2 ^ 53 ->
   exists m,
     taskEnqueue.estimateCompletionTime remaining workers = Some m /\
     (m - 1) * workers < remaining <= m * workers /\
     (remaining = 0 -> m = 0)) /\
  taskEnqueue.estimateCompletionTime 18014398509481996 3 = Some 6004799503160665.
Proof.
  unfold taskEnqueue.estimateCompletionTime. split; [|split].
  - destruct (Z.eqb_spec workers 0); split; intros; try discriminate; congruence.
  - intros Hr Hw. destruct (Z.eqb_spec workers 0) as [->|_]; [lia|].
    rewrite Z.mul_1_r.
    exists (float64.ceil_div remaining workers).
    pose proof (ceil_div_exact remaining workers Hr Hw) as Hbounds.
    split; [reflexivity|]. split; [exact Hbounds|].
    intros ->. nia.
  - vm_compute; reflexivity.
Qed.

Lemma X4_estimate_is_ceiling_witness :
  exists m,
    taskEnqueue.estimateCompletionTime 7 3 = Some m /\
    (m - 1) * 3 < 7 <= m * 3 /\
    (7 = 0 -> m = 0).
Proof. apply (proj1 (proj2 (X4_estimate_is_ceiling 7 3))); lia. Defined.

(** ** X5: the hash of partial results *)

(** X5. [setPartialResult] keys the stored results by dimension: the
    result of the dimension is replaced or added, the results of the
    other dimensions stay, and the count it returns is the number of
    distinct dimensions stored, so that a second result for a dimension
    does not bring the task closer to finalisation. *)
Theorem X5_partial_results_are_keyed_by_dimension
    (w : World) (taskId dimension : string) (p : PartialResult) :
  faults w = [] ->
  exists n w',
    let h := redisClient.hash_of w (redisClient.results_key taskId) in
    let h' := redisClient.hash_of w' (redisClient.results_key taskId) in
    redisClient.setPartialResult taskId dimension p w = (Ok n, w') /\
    hGet h' dimension = Some p /\
    (forall d, d <> dimension -> hGet h' d = hGet h d) /\
    n = hLen h' /\
    n = (if has_result h dimension then hLen h else hLen h + 1).
Proof.
  intros Hf. eexists _, _. cbv zeta.
  split; [now apply run_setPartialResult|].
  rewrite hash_of_hSet_results.
  split; [apply hGet_hSet|].
  split; [intros d Hd; apply hGet_hSet_other; congruence|].
  split; [reflexivity | apply hLen_hSet].
Qed.

Lemma X5_partial_results_are_keyed_by_dimension_witness :
  exists n w',
    let h := redisClient.hash_of Examples.mixed_ready (redisClient.results_key "uuid-0") in
    let h' := redisClient.hash_of w' (redisClient.results_key "uuid-0") in
    redisClient.setPartialResult "uuid-0" "coherence"
      (mkPartialResult (JNum 0.7) [] None 0) Examples.mixed_ready = (Ok n, w') /\
    hGet h' "coherence" = Some (mkPartialResult (JNum 0.7) [] None 0) /\
    (forall d, d <> "coherence" -> hGet h' d = hGet h d) /\
    n = hLen h' /\
    n = (if has_result h "coherence" then hLen h else hLen h + 1).
Proof.
  apply (X5_partial_results_are_keyed_by_dimension Examples.mixed_ready "uuid-0"
           "coherence" (mkPartialResult (JNum 0.7) [] None 0)).
  reflexivity.
Defined.

(** ** X6: a finalisation that has nothing to do *)



(** ** X7: the status that [updateBatchProgress] gives a batch *)

(** X7. [updateBatchProgress] sets the batch to [completed] exactly when
    no record of the batch is [pending] or [processing], and to
    [processing] otherwise, whatever the status of the batch was (a
    paused, failed or cancelled batch is overwritten) and however many
    records are still [queued]. The progress object it stores holds, per
    status, the number of records in that status, and the records are
    left as they are. *)
Theorem X7_batch_status_follows_pending_and_processing
    (w : World) (batchId : string) (b : Batch) :
  faults w = [] ->
  batches (store w) !! batchId = Some b ->
  exists b' w' p,
    let docs := dbClient.match_batch batchId (responses (store w)) in
    masterOrchestrator.updateBatchProgress batchId w = (Ok tt, w') /\
    batches (store w') !! batchId = Some b' /\
    bt_status b'
    = (if Z.eqb (count_status pending docs) 0 && Z.eqb (count_status processing docs) 0
       then BCompleted else BProcessing) /\
    bt_progress b' = Some p /\
    progress_count p PTotal = Z.of_nat (length docs) /\
    (forall s, progress_count p (PStatus s) = count_status s docs) /\
    responses (store w') = responses (store w) /\
    evaluations (store w') = evaluations (store w).
Proof.
  intros Hf Hb.
  set (docs := dbClient.match_batch batchId (responses (store w))).
  set (p := dbClient.progress_of (dbClient.group_by_status docs)).
  set (st := if Z.eqb (count_status pending docs) 0
                && Z.eqb (count_status processing docs) 0
             then BCompleted else BProcessing).
  exists (mkBatch st (Some p) (clock w)), (batch_projected batchId w), p.
  cbv zeta. fold docs. fold st.
  split; [now apply run_updateBatchProgress|].
  assert (Hst : (if bool_decide (pGet p (PStatus pending) = Some 0)
                    && bool_decide (pGet p (PStatus processing) = Some 0)
                 then BCompleted else BProcessing) = st).
  { unfold p, st. rewrite !progress_of_settled by tauto.
    destruct (Z.eqb_spec (count_status pending docs) 0) as [Hp|Hp];
      destruct (Z.eqb_spec (count_status processing docs) 0) as [Hq|Hq];
      repeat case_bool_decide; cbn; try reflexivity; congruence. }
  split.
  { unfold batch_projected. fold docs. fold p. rewrite Hst.
    unfold dbClient.set_batch_status. cbn.
    rewrite lookup_alter_eq, Hb. reflexivity. }
  split; [reflexivity|]. split; [reflexivity|].
  destruct (progress_of_counts docs) as [HT HS]. cbv zeta in HT, HS. fold p in HT, HS.
  split; [exact HT|]. split; [exact HS|].
  split; reflexivity.
Qed.

Lemma X7_batch_status_follows_pending_and_processing_witness :
  exists b' w' p,
    let docs := dbClient.match_batch "b1" (responses (store Scenarios.fresh_batch)) in
    masterOrchestrator.updateBatchProgress "b1" Scenarios.fresh_batch = (Ok tt, w') /\
    batches (store w') !! "b1" = Some b' /\
    bt_status b'
    = (if Z.eqb (count_status pending docs) 0 && Z.eqb (count_status processing docs) 0
       then BCompleted else BProcessing) /\
    bt_progress b' = Some p /\
    progress_count p PTotal = Z.of_nat (length docs) /\
    (forall s, progress_count p (PStatus s) = count_status s docs) /\
    responses (store w') = responses (store Scenarios.fresh_batch) /\
    evaluations (store w') = evaluations (store Scenarios.fresh_batch).
Proof.
  apply (X7_batch_status_follows_pending_and_processing Scenarios.fresh_batch "b1"
           (default (mkBatch BProcessing None 0)
              (batches (store Scenarios.fresh_batch) !! "b1"))).
  - reflexivity.
  - vm_compute; reflexivity.
Defined.

(** ** X8: the legacy queue and the orchestrator *)

(** X8. No event of the orchestrator (the dispatch loop, a dispatch, the
    collector, the timeout monitor), under any fault plan, pops from or
    pushes to the legacy queue [evaluation_tasks]: what [addTask] and
    [requeueTask] put there is never dispatched by the orchestrator. *)
Theorem X8_orchestrator_never_touches_the_legacy_queue
    (trace : list Event) (s : System) :
  forallb orchestrator_event trace = true ->
  legacy_queue (world (exec trace s)) = legacy_queue (world s).
Proof.
  intros Ht. apply (exec_keeps legacy_queue_kept trace s); [|exact Ht].
  apply legacy_queue_orchestrator.
Qed.

Lemma X8_orchestrator_never_touches_the_legacy_queue_witness :
  legacy_queue (world (exec Scenarios.some_events Scenarios.with_retries))
  = legacy_queue (world Scenarios.with_retries).
Proof.
  apply (X8_orchestrator_never_touches_the_legacy_queue Scenarios.some_events
           Scenarios.with_retries).
  reflexivity.
Defined.

(** ** X9: the retries of the enqueue facade *)

(** X9. Under any fault plan, and whether they return or throw,
    [requeueFailedResponse], [enqueueResponse] and [retryFailedTasks]
    leave the main queue, which the dispatch loop pops from, as it is:
    they push to the legacy queue only. *)
Theorem X9_facade_retries_never_reach_the_main_queue
    (w : World) (responseId reason batchId : string) (limit : Z) :
  main_queue (snd (taskEnqueue.requeueFailedResponse responseId reason w)) = main_queue w /\
  main_queue (snd (taskEnqueue.enqueueResponse responseId w)) = main_queue w /\
  main_queue (snd (taskEnqueue.retryFailedTasks batchId limit w)) = main_queue w.
Proof.
  split; [apply main_queue_requeueFailedResponse|].
  split; [apply main_queue_enqueueResponse | apply main_queue_retryFailedTasks].
Qed.

(** ** X10: evaluations are only ever added *)

(** X10. Along any run of the orchestrator's own events, under any fault
    plan, the evaluations already stored stay in place unchanged, new
    ones are appended after them, and if no record had two evaluations
    before, none has two afterwards. *)
Theorem X10_evaluations_are_append_only_and_unique
    (trace : list Event) (s : System) :
  forallb orchestrator_event trace = true ->
  evaluations (store (world s)) `prefix_of` evaluations (store (world (exec trace s))) /\
  (NoDup (ev_response_id <$> evaluations (store (world s))) ->
   NoDup (ev_response_id <$> evaluations (store (world (exec trace s))))).
Proof.
  intros Ht. apply (exec_keeps evaluations_grow trace s); [|exact Ht].
  apply evaluations_grow_orchestrator.
Qed.

Lemma X10_evaluations_are_append_only_and_unique_witness :
  evaluations (store (world Examples.mixed_answered))
    `prefix_of` evaluations (store (world (exec (repeat EvCollect 5)
                                             Examples.mixed_answered))) /\
  (NoDup (ev_response_id <$> evaluations (store (world Examples.mixed_answered))) ->
   NoDup (ev_response_id
            <$> evaluations (store (world (exec (repeat EvCollect 5)
                                             Examples.mixed_answered))))).
Proof.
  apply (X10_evaluations_are_append_only_and_unique (repeat EvCollect 5)
           Examples.mixed_answered).
  reflexivity.
Defined.

(** ** X11: pausing a batch *)

(** X11. [pauseProcessing] and [resumeProcessing] write the status of the
    batch document and nothing else: the queues, the records, the
    evaluations and the orchestrator are as before, and the progress
    object of the batch is kept. So the task at the head of the main
    queue is still handed to the dispatch loop after the pause, and a
    resume sets the batch to [processing] whatever its status was. *)
Theorem X11_pause_only_marks_the_batch
    (w : World) (batchId : string) (b : Batch) (t : MainTask) (rest : list MainTask) :
  faults w = [] ->
  batches (store w) !! batchId = Some b ->
  main_queue w = t :: rest ->
  exists w1 w2,
    taskEnqueue.pauseProcessing batchId w = (Ok tt, w1) /\
    only_batches w w1 /\
    batches (store w1) !! batchId = Some (mkBatch BPaused (bt_progress b) (clock w)) /\
    fst (redisClient.getMainTask 5 w1) = Ok (Some t) /\
    taskEnqueue.resumeProcessing batchId w1 = (Ok tt, w2) /\
    only_batches w w2 /\
    batches (store w2) !! batchId = Some (mkBatch BProcessing (bt_progress b) (clock w)).
Proof.
  intros Hf Hb Hq.
  exists (dbClient.set_batch_status batchId BPaused None w),
         (dbClient.set_batch_status batchId BProcessing None
            (dbClient.set_batch_status batchId BPaused None w)).
  split; [now apply run_pauseProcessing|].
  split; [unfold only_batches; split_and!; reflexivity|].
  split.
  { unfold dbClient.set_batch_status. cbn. now rewrite lookup_alter_eq, Hb. }
  split.
  { rewrite run_getMainTask by exact Hf.
    change (main_queue (dbClient.set_batch_status batchId BPaused None w))
      with (main_queue w).
    now rewrite Hq. }
  split; [now apply run_resumeProcessing|].
  split; [unfold only_batches; split_and!; reflexivity|].
  unfold dbClient.set_batch_status. cbn. now rewrite !lookup_alter_eq, Hb.
Qed.

Lemma X11_pause_only_marks_the_batch_witness :
  exists w1 w2,
    taskEnqueue.pauseProcessing "b1" Scenarios.fresh_batch = (Ok tt, w1) /\
    only_batches Scenarios.fresh_batch w1 /\
    batches (store w1) !! "b1"
    = Some (mkBatch BPaused
              (bt_progress (default (mkBatch BProcessing None 0)
                              (batches (store Scenarios.fresh_batch) !! "b1")))
              (clock Scenarios.fresh_batch)) /\
    fst (redisClient.getMainTask 5 w1) = Ok (Some Examples.enqueued_task) /\
    taskEnqueue.resumeProcessing "b1" w1 = (Ok tt, w2) /\
    only_batches Scenarios.fresh_batch w2 /\
    batches (store w2) !! "b1"
    = Some (mkBatch BProcessing
              (bt_progress (default (mkBatch BProcessing None 0)
                              (batches (store Scenarios.fresh_batch) !! "b1")))
              (clock Scenarios.fresh_batch)).
Proof.
  apply (X11_pause_only_marks_the_batch Scenarios.fresh_batch "b1"
           (default (mkBatch BProcessing None 0)
              (batches (store Scenarios.fresh_batch) !! "b1"))
           Examples.enqueued_task []).
  - reflexivity.
  - vm_compute; reflexivity.
  - vm_compute; reflexivity.
Defined.

(** ** X12: the sweep and the tasks that are still in time *)

(** X12. Under any fault plan [checkTaskTimeouts] returns normally, and a
    task that has been in flight for no longer than [taskTimeout] (the
    test is strict: exactly [taskTimeout] is still in time) keeps its
    entry in the in-flight table. *)
Theorem X12_sweep_keeps_tasks_in_time
    (w : World) (taskId : string) (taskInfo : TaskInfo) :
  activeTasks (this w) !! taskId = Some taskInfo ->
  clock w - ti_startTime taskInfo <= taskTimeout (this w) ->
  exists w',
    masterOrchestrator.checkTaskTimeouts w = (Ok tt, w') /\
    activeTasks (this w') !! taskId = Some taskInfo.
Proof.
  intros Hin Hage.
  exists (snd (masterOrchestrator.checkTaskTimeouts w)).
  change (masterOrchestrator.checkTaskTimeouts w)
    with (for_each (timed_out_entries w) masterOrchestrator.handle_timeout w).
  split.
  { rewrite (surjective_pairing (for_each _ _ w)) at 1.
    now rewrite for_each_handle_timeout_returns. }
  rewrite <- Hin.
  apply (frame_for_each_in (active_kept taskId)).
  intros [id ti] He. apply active_kept_handle_timeout. cbn. intros ->.
  unfold timed_out_entries in He. apply list_elem_of_In, filter_In in He as [He Hto].
  apply list_elem_of_In, elem_of_map_to_list in He.
  rewrite Hin in He. inversion He; subst ti.
  unfold masterOrchestrator.timed_out in Hto. cbn in Hto.
  apply Z.ltb_lt in Hto. lia.
Qed.

Lemma X12_sweep_keeps_tasks_in_time_witness :
  exists w',
    masterOrchestrator.checkTaskTimeouts (world Examples.dispatched_one) = (Ok tt, w') /\
    activeTasks (this w') !! "uuid-0" = Some Examples.dispatched_info.
Proof.
  apply (X12_sweep_keeps_tasks_in_time (world Examples.dispatched_one) "uuid-0"
           Examples.dispatched_info).
  - vm_compute; reflexivity.
  - vm_compute; discriminate.
Defined.

(** ** X13: a dispatch that succeeds *)

(** X13. When the broker and the store answer, [processMainTask] appends
    exactly one subtask to the queue of each of the five dimensions, built
    from the main task, records the task in the in-flight table with the
    current time as its start, sets the record to [processing], and leaves
    the dispatch counter, the main queue and the results queue as they
    were. *)
Theorem X13_dispatch_fans_out_to_every_dimension (w : World) (t : MainTask) :
  faults w = [] ->
  exists w',
    masterOrchestrator.processMainTask t w = (Ok tt, w') /\
    (forall d,
       dimension_list w' d
       = (dimension_list w d
          ++ if bool_decide (d ∈ config.DIMENSIONS)
             then [masterOrchestrator.dimensionTask t d] else [])%list) /\
    activeTasks (this w') !! mt_task_id t = Some (mkTaskInfo t (clock w) [] 5) /\
    status_of w' (mt_response_id t)
    = (fun _ => processing) <$> status_of w (mt_response_id t) /\
    runningTasks (this w') = runningTasks (this w) /\
    main_queue w' = main_queue w /\
    results_queue w' = results_queue w.
Proof.
  intros Hf. eexists. split; [now apply run_processMainTask|].
  split.
  { intros d.
    change (dimension_list (masterOrchestrator.runningTasks_decr ?x) d)
      with (dimension_list x d).
    unfold fanned_out. rewrite dimension_list_fold by apply NoDup_DIMENSIONS.
    reflexivity. }
  split.
  { unfold fanned_out. cbn. now rewrite lookup_insert_eq. }
  split.
  { rewrite <- (status_after_set w (mt_response_id t) processing). reflexivity. }
  split.
  { unfold fanned_out. cbn. lia. }
  split; reflexivity.
Qed.

Lemma X13_dispatch_fans_out_to_every_dimension_witness :
  exists w',
    masterOrchestrator.processMainTask Examples.enqueued_task Scenarios.fresh_batch
    = (Ok tt, w') /\
    (forall d,
       dimension_list w' d
       = (dimension_list Scenarios.fresh_batch d
          ++ if bool_decide (d ∈ config.DIMENSIONS)
             then [masterOrchestrator.dimensionTask Examples.enqueued_task d] else [])%list) /\
    activeTasks (this w') !! mt_task_id Examples.enqueued_task
    = Some (mkTaskInfo Examples.enqueued_task (clock Scenarios.fresh_batch) [] 5) /\
    status_of w' (mt_response_id Examples.enqueued_task)
    = (fun _ => processing)
        <$> status_of Scenarios.fresh_batch (mt_response_id Examples.enqueued_task) /\
    runningTasks (this w') = runningTasks (this Scenarios.fresh_batch) /\
    main_queue w' = main_queue Scenarios.fresh_batch /\
    results_queue w' = results_queue Scenarios.fresh_batch.
Proof.
  apply (X13_dispatch_fans_out_to_every_dimension Scenarios.fresh_batch
           Examples.enqueued_task).
  reflexivity.
Defined.

(** ** X14: one round of a worker *)

(** X14. When the broker answers, one round of the loop of a dimension
    worker, with the call of [processTask] that it starts run to its end,
    takes the subtask at the head of the queue of its dimension and sends
    exactly one message for it, the result of the run; on an empty queue
    it sends nothing and reports itself idle. *)
Theorem X14_worker_round_answers_the_head_subtask
    (w : World) (dimension workerId : string) (run : PythonRun) :
  faults w = [] ->
  let w' := snd (dimensionWorker.processLoop_round dimension workerId run w) in
  match dimension_list w dimension with
  | task :: rest =>
      dimension_list w' dimension = rest /\
      results_queue w'
      = (results_queue w
         ++ [dimensionWorker.result_of_run dimension workerId task run])%list
  | [] =>
      dimension_list w' dimension = [] /\
      results_queue w' = results_queue w /\
      worker_status w' workerId = Some "idle"
  end.
Proof.
  intros Hf. cbv zeta. unfold dimensionWorker.processLoop_round, try_catch, bind.
  rewrite run_getDimensionTask by exact Hf.
  destruct (dimension_list w dimension) as [|task rest] eqn:Hq; cbv beta iota.
  - rewrite run_setWorkerStatus by exact Hf. cbn [snd].
    split; [exact Hq|]. split; [reflexivity|].
    unfold worker_status, redisClient.set_status_key. cbn. now rewrite lookup_insert_eq.
  - pose proof (processTask_sends (popped_dimension dimension rest w) dimension workerId
                  task run Hf) as Hsend.
    pose proof (dimension_lists_processTask dimension workerId task run
                  (popped_dimension dimension rest w)) as Hkept.
    destruct (dimensionWorker.processTask dimension workerId task run
                (popped_dimension dimension rest w)) as [[[]|e] w1]; cbn [snd] in *.
    all: split; [|exact Hsend].
    all: unfold dimension_lists_kept in Hkept; cbn [ret snd];
      unfold dimension_list, redisClient.list_of; rewrite Hkept;
      unfold popped_dimension; cbn; now rewrite lookup_insert_eq.
Qed.

Lemma X14_worker_round_answers_the_head_subtask_witness :
  let w' := snd (dimensionWorker.processLoop_round "instruction" "worker_instruction"
                   (Examples.scored 0.9) (world Examples.dispatched_one)) in
  match dimension_list (world Examples.dispatched_one) "instruction" with
  | task :: rest =>
      dimension_list w' "instruction" = rest /\
      results_queue w'
      = (results_queue (world Examples.dispatched_one)
         ++ [dimensionWorker.result_of_run "instruction" "worker_instruction" task
               (Examples.scored 0.9)])%list
  | [] =>
      dimension_list w' "instruction" = [] /\
      results_queue w' = results_queue (world Examples.dispatched_one) /\
      worker_status w' "worker_instruction" = Some "idle"
  end.
Proof.
  apply (X14_worker_round_answers_the_head_subtask (world Examples.dispatched_one)
           "instruction" "worker_instruction" (Examples.scored 0.9)).
  reflexivity.
Defined.

(** ** X15: a failed dispatch that cannot be requeued *)

(** X15. [handleTaskFailure] marks the record [failed], and puts nothing
    on the main queue, in two cases: when the task comes with a retry
    count that is already at the ceiling, and when the push of the requeue
    itself fails. *)
Theorem X15_unrequeueable_task_is_marked_failed (w : World) (t : MainTask) (e : Err) :
  (faults w = [] ->
   MAX_RETRIES w < default 0 (mt_retry_count t) + 1 ->
   masterOrchestrator.handleTaskFailure t e w
   = (Ok tt, dbClient.set_response_status (mt_response_id t) failed w)) /\
  (faults w = [true] ->
   truthy (mt_task_id t) = true ->
   default 0 (mt_retry_count t) + 1 <= MAX_RETRIES w ->
   masterOrchestrator.handleTaskFailure t e w
   = (Ok tt, dbClient.set_response_status (mt_response_id t) failed (with_faults [] w))) /\
  (forall w0,
     main_queue (dbClient.set_response_status (mt_response_id t) failed w0) = main_queue w0 /\
     status_of (dbClient.set_response_status (mt_response_id t) failed w0) (mt_response_id t)
     = (fun _ => failed) <$> status_of w0 (mt_response_id t)).
Proof.
  split; [|split].
  - intros Hf Hmax. unfold masterOrchestrator.handleTaskFailure.
    apply try_catch_ok. unfold redisClient.requeueMainTask.
    eapply bind_ok_then.
    { await_ok ltac:(reflexivity). cbv zeta. await_ok ltac:(reflexivity).
      change (default 0 (mt_retry_count (redisClient.updatedTask t (clock w))))
        with (default 0 (mt_retry_count t) + 1).
      replace (Z.leb _ (MAX_RETRIES w)) with false
        by (symmetry; apply Z.leb_gt; exact Hmax).
      reflexivity. }
    cbn [push_truthy negb]. now apply run_updateResponseStatus.
  - intros Hf Hid Hmax. unfold masterOrchestrator.handleTaskFailure.
    erewrite try_catch_throw.
    2:{ eapply bind_throw. unfold redisClient.requeueMainTask.
        await_ok ltac:(reflexivity). cbv zeta. await_ok ltac:(reflexivity).
        change (default 0 (mt_retry_count (redisClient.updatedTask t (clock w))))
          with (default 0 (mt_retry_count t) + 1).
        replace (Z.leb _ (MAX_RETRIES w)) with true
          by (symmetry; apply Z.leb_le; exact Hmax).
        eapply bind_throw. unfold redisClient.addMainTask.
        change (mt_task_id (redisClient.updatedTask t (clock w))) with (mt_task_id t).
        rewrite Hid.
        await_ok ltac:(reflexivity). await_ok ltac:(reflexivity).
        unfold redisClient.pushToQueue. apply io_fault. exact Hf. }
    now apply run_updateResponseStatus.
  - intros w0. split; [reflexivity | apply status_after_set].
Qed.

Lemma X15_unrequeueable_task_is_marked_failed_witness :
  masterOrchestrator.handleTaskFailure (Examples.retried_task 3) IoError
    (Examples.world_with Examples.one_record 10)
  = (Ok tt, dbClient.set_response_status (mt_response_id (Examples.retried_task 3)) failed
              (Examples.world_with Examples.one_record 10)).
Proof.
  apply (proj1 (X15_unrequeueable_task_is_marked_failed
                  (Examples.world_with Examples.one_record 10)
                  (Examples.retried_task 3) IoError)).
  - reflexivity.
  - vm_compute; reflexivity.
Defined.

(** ** X16: the retry ceiling on the legacy queue *)

(** X16. [requeueTask] honours the retry ceiling for a task that carries
    its retry count: of [n] calls in a row, each on the task as the
    previous call updated it, the first [MAX_RETRIES - retry_count] push
    the task, with the count raised by one each time, and every later
    call returns [false] and pushes nothing. *)
Theorem X16_requeueTask_stops_at_the_ceiling (n : nat) (w : World) (t : MainTask) :
  faults w = [] ->
  exists rs w',
    let left := Z.to_nat (MAX_RETRIES w - default 0 (mt_retry_count t)) in
    requeue_chain n t w = (Ok rs, w') /\
    map push_truthy rs
    = (replicate (Nat.min n left) true ++ replicate (n - left) false)%list /\
    exists pushed,
      legacy_queue w' = (legacy_queue w ++ pushed)%list /\
      map mt_retry_count pushed
      = map (fun i => Some (default 0 (mt_retry_count t) + Z.of_nat i + 1))
          (seq 0 (Nat.min n left)).
Proof.
  revert w t. induction n as [|n IH]; intros w t Hf.
  - exists [], w. cbv zeta. split; [reflexivity|]. split; [reflexivity|].
    exists []. split; [now rewrite app_nil_r | reflexivity].
  - cbn [requeue_chain]. unfold bind at 1. cbn [Date_now get].
    unfold bind at 1. rewrite run_requeueTask by exact Hf.
    set (c := default 0 (mt_retry_count t)).
    set (t1 := redisClient.updatedTask t (clock w)).
    assert (Hc1 : default 0 (mt_retry_count t1) = c + 1) by reflexivity.
    destruct (Z.leb_spec (c + 1) (MAX_RETRIES w)) as [Hle|Hgt].
    + destruct (IH (redisClient.rPush config.TASK_QUEUE_NAME t1 w) t1 Hf)
        as (rs & w' & Hrun & Hrs & pushed & Hq & Hcounts).
      cbv zeta in Hrun, Hrs, Hcounts.
      change (MAX_RETRIES (redisClient.rPush config.TASK_QUEUE_NAME t1 w))
        with (MAX_RETRIES w) in *.
      rewrite Hc1 in *.
      exists (Pushed (redisClient.lLen config.TASK_QUEUE_NAME
                        (redisClient.rPush config.TASK_QUEUE_NAME t1 w)) :: rs), w'.
      cbv zeta.
      replace (Z.to_nat (MAX_RETRIES w - c))
        with (S (Z.to_nat (MAX_RETRIES w - (c + 1)))) by lia.
      split; [unfold bind; now rewrite Hrun|].
      split.
      { cbn [map]. rewrite rPush_truthy, Hrs. reflexivity. }
      exists (t1 :: pushed). split.
      { rewrite Hq, legacy_queue_rPush, <- app_assoc. reflexivity. }
      cbn [Nat.min seq map]. rewrite Hcounts. f_equal.
      { cbn. f_equal. lia. }
      rewrite <- seq_shift, map_map. apply map_ext. intros i. f_equal. lia.
    + destruct (IH w t1 Hf) as (rs & w' & Hrun & Hrs & pushed & Hq & Hcounts).
      cbv zeta in Hrun, Hrs, Hcounts. rewrite Hc1 in *.
      exists (NotPushed :: rs), w'. cbv zeta.
      replace (Z.to_nat (MAX_RETRIES w - c)) with 0%nat by lia.
      replace (Z.to_nat (MAX_RETRIES w - (c + 1))) with 0%nat in * by lia.
      split; [unfold bind; now rewrite Hrun|].
      rewrite Nat.min_0_r in *. rewrite Nat.sub_0_r in *.
      split; [cbn [map push_truthy]; now rewrite Hrs|].
      exists pushed. split; [exact Hq | exact Hcounts].
Qed.

Lemma X16_requeueTask_stops_at_the_ceiling_witness :
  exists rs w',
    let left := Z.to_nat (MAX_RETRIES (Examples.world_with Examples.one_record 10)
                          - default 0 (mt_retry_count (Examples.retried_task 1))) in
    requeue_chain 4 (Examples.retried_task 1) (Examples.world_with Examples.one_record 10)
    = (Ok rs, w') /\
    map push_truthy rs
    = (replicate (Nat.min 4 left) true ++ replicate (4 - left) false)%list /\
    exists pushed,
      legacy_queue w'
      = (legacy_queue (Examples.world_with Examples.one_record 10) ++ pushed)%list /\
      map mt_retry_count pushed
      = map (fun i => Some (default 0 (mt_retry_count (Examples.retried_task 1))
                            + Z.of_nat i + 1))
          (seq 0 (Nat.min 4 left)).
Proof.
  apply (X16_requeueTask_stops_at_the_ceiling 4
           (Examples.world_with Examples.one_record 10) (Examples.retried_task 1)).
  reflexivity.
Defined.

(** ** X17: retrying the failed records of a batch *)

(** X17. When the broker and the store answer and the retry ceiling is at
    least 1, [retryFailedTasks] requeues every failed record of the batch
    that its query returns: it reports as many retries as it found
    records, each of these records ends [queued], the other records keep
    their status, and the tasks go to the legacy queue, one per record,
    while the main queue stays as it is. *)
Theorem X17_retry_requeues_every_failed_record (w : World) (batchId : string) (limit : Z) :
  faults w = [] ->
  1 <= MAX_RETRIES w ->
  exists w',
    let found := taskEnqueue.find_failed batchId limit (responses (store w)) in
    taskEnqueue.retryFailedTasks batchId limit w
    = (Ok (mkRetryReply (Z.of_nat (length found)) (Z.of_nat (length found))), w') /\
    (forall e, e ∈ found -> status_of w (fst e) = Some failed /\
                            status_of w' (fst e) = Some queued) /\
    (forall id, id ∉ map fst found -> status_of w' id = status_of w id) /\
    length (legacy_queue w') = (length (legacy_queue w) + length found)%nat /\
    main_queue w' = main_queue w.
Proof.
  intros Hf Hmax.
  set (found := taskEnqueue.find_failed batchId limit (responses (store w))).
  assert (Hfound : forall e, e ∈ found -> status_of w (fst e) = Some failed).
  { intros e He. apply find_failed_found in He as (Hr & _ & Hs).
    unfold status_of. now rewrite Hr, <- Hs. }
  destruct (run_retry_each found 0 w Hf Hmax) as (w' & Hrun & Hstatus & Hlen).
  { intros e He. rewrite (Hfound e He). now eexists. }
  assert (Hall : taskEnqueue.retryFailedTasks batchId limit w
                 = (Ok (mkRetryReply (Z.of_nat (length found)) (Z.of_nat (length found))),
                    w')).
  { unfold taskEnqueue.retryFailedTasks. apply try_catch_ok.
    await_ok ltac:(rewrite io_no_fault by exact Hf; reflexivity).
    fold found. await_ok ltac:(exact Hrun). reflexivity. }
  exists w'. cbv zeta. fold found.
  split; [exact Hall|].
  split.
  { intros e He. split; [now apply Hfound|].
    rewrite Hstatus. rewrite bool_decide_eq_true_2.
    - now rewrite (Hfound e He).
    - apply list_elem_of_In, in_map, list_elem_of_In, He. }
  split.
  { intros id Hid. rewrite Hstatus. now rewrite bool_decide_eq_false_2. }
  split; [exact Hlen|].
  pose proof (main_queue_retryFailedTasks batchId limit w) as Hq.
  now rewrite Hall in Hq.
Qed.

Lemma X17_retry_requeues_every_failed_record_witness :
  exists w',
    let found := taskEnqueue.find_failed "b1" 100
                   (responses (store Examples.requeued_four_times)) in
    taskEnqueue.retryFailedTasks "b1" 100 Examples.requeued_four_times
    = (Ok (mkRetryReply (Z.of_nat (length found)) (Z.of_nat (length found))), w') /\
    (forall e, e ∈ found -> status_of Examples.requeued_four_times (fst e) = Some failed /\
                            status_of w' (fst e) = Some queued) /\
    (forall id, id ∉ map fst found ->
                status_of w' id = status_of Examples.requeued_four_times id) /\
    length (legacy_queue w')
    = (length (legacy_queue Examples.requeued_four_times) + length found)%nat /\
    main_queue w' = main_queue Examples.requeued_four_times.
Proof.
  apply (X17_retry_requeues_every_failed_record Examples.requeued_four_times "b1" 100).
  - reflexivity.
  - vm_compute; discriminate.
Defined.

(** ** X18: reading an evaluation back *)

(** X18. The evaluation that a finalisation writes is the one that
    [getEvaluationByResponseId] returns for the record afterwards, and it
    carries the id of the task; before the finalisation the lookup
    returns [null]. *)
Theorem X18_written_evaluation_is_read_back
    (w : World) (taskId : string) (taskInfo : option TaskInfo) :
  faults w = [] ->
  5 <= hLen (redisClient.hash_of w (redisClient.results_key taskId)) ->
  truthy (resolved_response_id taskInfo
            (redisClient.hash_of w (redisClient.results_key taskId))) = true ->
  has_evaluation w (resolved_response_id taskInfo
            (redisClient.hash_of w (redisClient.results_key taskId))) = false ->
  exists e w',
    let responseId :=
      resolved_response_id taskInfo
        (redisClient.hash_of w (redisClient.results_key taskId)) in
    masterOrchestrator.finalizeTaskWithInfo taskId taskInfo w = (Ok tt, w') /\
    dbClient.getEvaluationByResponseId responseId w = (Ok None, w) /\
    dbClient.getEvaluationByResponseId responseId w' = (Ok (Some e), w') /\
    ev_response_id e = responseId /\
    ev_task_id e = taskId.
Proof.
  intros Hf Hlen Hrid Hnew.
  exists (evaluation_of taskId taskInfo w), (finalized taskId taskInfo w). cbv zeta.
  split; [now apply finalize_writes|].
  unfold dbClient.getEvaluationByResponseId.
  split.
  { rewrite io_no_fault by exact Hf. unfold get. f_equal. f_equal.
    now apply find_none_of_existsb. }
  split; [|split; reflexivity].
  rewrite io_no_fault by (now rewrite finalized_faults). unfold get. f_equal. f_equal.
  change (evaluations (store (finalized taskId taskInfo w)))
    with (evaluations (store w) ++ [evaluation_of taskId taskInfo w])%list.
  apply find_after_insert; [exact Hnew|]. apply String.eqb_refl.
Qed.

Lemma X18_written_evaluation_is_read_back_witness :
  exists e w',
    let responseId :=
      resolved_response_id Examples.mixed_info
        (redisClient.hash_of Examples.mixed_ready (redisClient.results_key "uuid-0")) in
    masterOrchestrator.finalizeTaskWithInfo "uuid-0" Examples.mixed_info Examples.mixed_ready
    = (Ok tt, w') /\
    dbClient.getEvaluationByResponseId responseId Examples.mixed_ready
    = (Ok None, Examples.mixed_ready) /\
    dbClient.getEvaluationByResponseId responseId w' = (Ok (Some e), w') /\
    ev_response_id e = responseId /\
    ev_task_id e = "uuid-0".
Proof.
  apply (X18_written_evaluation_is_read_back Examples.mixed_ready "uuid-0"
           Examples.mixed_info).
  - reflexivity.
  - vm_compute; discriminate.
  - vm_compute; reflexivity.
  - vm_compute; reflexivity.
Defined.

(** ** X19: starting the orchestrator *)

(** X19. [start] does nothing when the orchestrator is already running.
    It sets [isRunning] before it writes its status to the broker: when
    that write fails, [start] throws before the two loops are started and
    leaves [isRunning] set, so that a later call of [start] on that
    state returns at once without starting them, whatever the broker does
    then. When the write succeeds the loops are started and the status
    of the orchestrator reads [active]. *)
Theorem X19_start_sets_the_flag_before_the_status_write (w : World) :
  (isRunning (this w) = true -> masterOrchestrator.start w = (Ok AlreadyRunning, w)) /\
  (isRunning (this w) = false ->
   forall fs, faults w = true :: fs ->
   exists w',
     masterOrchestrator.start w = (Throw IoError, w') /\
     isRunning (this w') = true /\
     forall fs', masterOrchestrator.start (with_faults fs' w')
                 = (Ok AlreadyRunning, with_faults fs' w')) /\
  (isRunning (this w) = false ->
   faults w = [] ->
   exists w',
     masterOrchestrator.start w = (Ok LoopsStarted, w') /\
     isRunning (this w') = true /\
     worker_status w' (workerId (this w)) = Some "active").
Proof.
  unfold masterOrchestrator.start. split; [|split].
  - intros Hr. unfold bind, get. now rewrite Hr.
  - intros Hr fs Hf. eexists. split.
    { unfold bind at 1, get at 1. rewrite Hr.
      eapply bind_throw_then; [reflexivity|].
      eapply bind_throw_then; [reflexivity|].
      eapply bind_throw. unfold redisClient.setWorkerStatus. apply io_fault.
      exact Hf. }
    split; [reflexivity|].
    intros fs'. reflexivity.
  - intros Hr Hf. eexists. split.
    { unfold bind at 1, get at 1. rewrite Hr.
      await_ok ltac:(reflexivity). await_ok ltac:(reflexivity).
      await_ok ltac:(apply run_setWorkerStatus; exact Hf). reflexivity. }
    split; [reflexivity|].
    unfold worker_status, redisClient.set_status_key. cbn. now rewrite lookup_insert_eq.
Qed.

Lemma X19_start_sets_the_flag_before_the_status_write_witness :
  exists w',
    masterOrchestrator.start Scenarios.before_start = (Throw IoError, w') /\
    isRunning (this w') = true /\
    forall fs', masterOrchestrator.start (with_faults fs' w')
                = (Ok AlreadyRunning, with_faults fs' w').
Proof.
  apply (proj1 (proj2 (X19_start_sets_the_flag_before_the_status_write
                         Scenarios.before_start)) eq_refl [] eq_refl).
Defined.

(** ** X20: clearing the queues *)

(** X20. When the broker answers, [clearQueue] of the enqueue facade
    deletes seven keys: the main queue, the queue of each dimension and
    the results queue. The number it reports as removed items is exactly
    the number of these seven keys that were there, so it is at most 7
    however many items the queues held. Afterwards the seven queues are
    empty and none of the seven keys is there. The legacy queue, the
    partial results, the in-flight table and the store, with the status
    of every record, stay as they are. *)
Theorem X20_clearQueue_empties_the_seven_queues (w : World) :
  faults w = [] ->
  exists n w',
    taskEnqueue.clearQueue w = (Ok n, w') /\
    n = keys_present cleared_keys w /\
    0 <= n <= 7 /\
    main_queue w' = [] /\
    results_queue w' = [] /\
    (forall d, d ∈ config.DIMENSIONS -> dimension_list w' d = []) /\
    keys_present cleared_keys w' = 0 /\
    legacy_queue w' = legacy_queue w /\
    (forall taskId, redisClient.hash_of w' (redisClient.results_key taskId)
                    = redisClient.hash_of w (redisClient.results_key taskId)) /\
    store w' = store w /\
    this w' = this w.
Proof.
  intros Hf.
  pose proof (run_clear_dimensions_count config.DIMENSIONS 0
                (redisClient.del_key config.MAIN_QUEUE_NAME w) Hf NoDup_DIMENSIONS) as Hdims.
  set (w1 := fold_left _ _ _) in Hdims.
  eexists _, (redisClient.del_key config.RESULTS_QUEUE_NAME w1).
  split.
  { unfold taskEnqueue.clearQueue. apply try_catch_ok.
    await_ok ltac:(now apply run_clearQueue).
    await_ok ltac:(exact Hdims).
    await_ok ltac:(now apply run_clearQueue). reflexivity. }
  assert (Hcount : (if redisClient.key_exists config.MAIN_QUEUE_NAME w then 1 else 0)
                   + (0 + keys_present (map redisClient.dimension_queue config.DIMENSIONS)
                            (redisClient.del_key config.MAIN_QUEUE_NAME w))
                   + (if redisClient.key_exists config.RESULTS_QUEUE_NAME w1 then 1 else 0)
                   = keys_present cleared_keys w).
  { unfold cleared_keys. rewrite keys_present_cons, keys_present_app, keys_present_cons.
    rewrite keys_present_del_key by (apply (bool_decide_unpack _); vm_compute; exact I).
    unfold w1. rewrite key_exists_clear_dimensions
      by (apply (bool_decide_unpack _); vm_compute; exact I).
    rewrite key_exists_del_key by discriminate.
    unfold keys_present at 3. cbn [List.filter length Z.of_nat]. lia. }
  split; [exact Hcount|].
  split.
  { rewrite Hcount. unfold keys_present.
    pose proof (filter_length_le (fun key => redisClient.key_exists key w) cleared_keys) as Hle.
    change (length cleared_keys) with 7%nat in Hle. lia. }
  assert (Hmain : main_queue (redisClient.del_key config.RESULTS_QUEUE_NAME w1) = []).
  { unfold w1, config.DIMENSIONS. cbn [fold_left].
    unfold main_queue. rewrite !task_list_del_key. reflexivity. }
  assert (Hres : results_queue (redisClient.del_key config.RESULTS_QUEUE_NAME w1) = []).
  { unfold results_queue. rewrite !result_list_del_key. now rewrite bool_decide_eq_true_2. }
  assert (Hdim : forall d, d ∈ config.DIMENSIONS ->
            dimension_list (redisClient.del_key config.RESULTS_QUEUE_NAME w1) d = []).
  { unfold w1, config.DIMENSIONS. cbn [fold_left].
    intros d Hd. unfold dimension_list. rewrite !dimension_list_del_key.
    repeat (apply elem_of_cons in Hd; destruct Hd as [->|Hd]; [reflexivity|]).
    now apply elem_of_nil in Hd. }
  split; [exact Hmain|]. split; [exact Hres|]. split; [exact Hdim|].
  split.
  { unfold keys_present, cleared_keys, w1, config.DIMENSIONS.
    cbn [fold_left map app].
    do 7 (rewrite key_exists_gone
            by (repeat (first [ apply key_exists_del_key_same
                              | rewrite key_exists_del_key
                                  by (intros E; vm_compute in E; discriminate E) ]))).
    reflexivity. }
  unfold w1, config.DIMENSIONS. cbn [fold_left].
  split.
  { unfold legacy_queue. rewrite !task_list_del_key. reflexivity. }
  split; [|split; reflexivity].
  intros taskId. destruct (results_key_is_no_queue taskId) as (H1 & H2 & H3).
  rewrite !hash_del_key.
  rewrite !bool_decide_eq_false_2; [reflexivity | | | | | | |]; solve [auto].
Qed.

Lemma X20_clearQueue_empties_the_seven_queues_witness :
  keys_present cleared_keys (world Examples.dispatched_one) = 5 /\
  exists n w',
    taskEnqueue.clearQueue (world Examples.dispatched_one) = (Ok n, w') /\
    n = keys_present cleared_keys (world Examples.dispatched_one) /\
    0 <= n <= 7 /\
    main_queue w' = [] /\
    results_queue w' = [] /\
    (forall d, d ∈ config.DIMENSIONS -> dimension_list w' d = []) /\
    keys_present cleared_keys w' = 0 /\
    legacy_queue w' = legacy_queue (world Examples.dispatched_one) /\
    (forall taskId, redisClient.hash_of w' (redisClient.results_key taskId)
                    = redisClient.hash_of (world Examples.dispatched_one)
                        (redisClient.results_key taskId)) /\
    store w' = store (world Examples.dispatched_one) /\
    this w' = this (world Examples.dispatched_one).
Proof.
  split; [vm_compute; reflexivity|].
  apply (X20_clearQueue_empties_the_seven_queues (world Examples.dispatched_one)).
  reflexivity.
Defined.

(** ** X21: a pop hands out the head or nothing *)

(** X21. Under any fault plan [getMainTask] loses no task: it hands out
    the task at the head of the main queue and leaves the rest, or it
    leaves the queue as it is. A failure of [connect()], which
    [popFromQueue] awaits before its [try], is thrown to the caller; a
    failure of the pop command itself is caught and looks like an empty
    queue; when [connect()] does not fail the call returns normally. The
    legacy queue and the store are not touched. *)
Theorem X21_pop_hands_out_the_head_or_nothing (w : World) (timeout : Z) :
  exists r w',
    redisClient.getMainTask timeout w = (r, w') /\
    match r with
    | Ok (Some t) => main_queue w = t :: main_queue w'
    | Ok None => main_queue w' = main_queue w
    | Throw e => e = IoError /\ main_queue w' = main_queue w
    end /\
    legacy_queue w' = legacy_queue w /\
    store w' = store w /\
    (forall fs, faults w = true :: fs -> r = Throw IoError) /\
    (forall fs, faults w = false :: true :: fs -> r = Ok None) /\
    ((forall fs, faults w <> true :: fs) -> exists o, r = Ok o).
Proof.
  unfold redisClient.getMainTask, redisClient.popFromQueue.
  change (truthy config.MAIN_QUEUE_NAME) with true. cbn [negb].
  unfold redisClient.connect, bind, try_catch, io.
  destruct (faults w) as [|[|] fs] eqn:Hfs; cbn [ret].
  - rewrite Hfs.
    destruct (pop_head_cases w) as (r & w' & Hrun & Hr & Hl & Hs & _).
    unfold popped_main in Hrun. rewrite Hrun. exists (Ok r), w'.
    split; [reflexivity|]. split; [destruct r; [exact Hr | now subst w']|].
    split; [exact Hl|]. split; [exact Hs|]. split; [discriminate|].
    split; [discriminate|]. intros _. now exists r.
  - exists (Throw IoError), (with_faults fs w). split; [reflexivity|].
    split; [now split|]. split; [reflexivity|]. split; [reflexivity|].
    split; [reflexivity|]. split; [discriminate|].
    intros H. now contradiction (H fs).
  - change (faults (with_faults fs w)) with fs.
    destruct fs as [|[|] fs'].
    + destruct (pop_head_cases (with_faults [] w)) as (r & w' & Hrun & Hr & Hl & Hs & _).
      unfold popped_main in Hrun. cbn in Hrun |- *. rewrite Hrun. exists (Ok r), w'.
      split; [reflexivity|]. split; [destruct r; [exact Hr | now subst w']|].
      split; [exact Hl|]. split; [exact Hs|]. split; [discriminate|].
      split; [discriminate|]. intros _. now exists r.
    + exists (Ok None), (with_faults fs' (with_faults (true :: fs') w)).
      split; [reflexivity|]. split; [reflexivity|]. split; [reflexivity|].
      split; [reflexivity|]. split; [discriminate|]. split; [reflexivity|].
      intros _. now exists None.
    + destruct (pop_head_cases (with_faults fs' (with_faults (false :: fs') w)))
        as (r & w' & Hrun & Hr & Hl & Hs & _).
      unfold popped_main in Hrun. cbn in Hrun |- *. rewrite Hrun. exists (Ok r), w'.
      split; [reflexivity|]. split; [destruct r; [exact Hr | now subst w']|].
      split; [exact Hl|]. split; [exact Hs|]. split; [discriminate|].
      split; [discriminate|]. intros _. now exists r.
Qed.

Lemma X21_pop_hands_out_the_head_or_nothing_witness :
  fst (redisClient.getMainTask 5 (with_faults [true] Scenarios.fresh_batch))
  = Throw IoError /\
  fst (redisClient.getMainTask 5 (with_faults [false; true] Scenarios.fresh_batch))
  = Ok None.
Proof.
  split.
  - destruct (X21_pop_hands_out_the_head_or_nothing
                (with_faults [true] Scenarios.fresh_batch) 5)
      as (r & w' & Hrun & _ & _ & _ & Hthrow & _).
    rewrite Hrun. exact (Hthrow [] eq_refl).
  - destruct (X21_pop_hands_out_the_head_or_nothing
                (with_faults [false; true] Scenarios.fresh_batch) 5)
      as (r & w' & Hrun & _ & _ & _ & _ & Hnone & _).
    rewrite Hrun. exact (Hnone [] eq_refl).
Defined.

(** ** X22: pops come in the order of the queue *)

(** X22. When the broker answers, [n] pops of the dispatch loop in a row
    hand out the first [n] tasks of the main queue in the order of the
    queue (fewer when the queue is shorter), and leave the rest. *)
Theorem X22_pops_follow_the_queue_order (n : nat) (w : World) :
  faults w = [] ->
  exists w',
    pop_main n w = (Ok (take n (main_queue w)), w') /\
    main_queue w' = drop n (main_queue w).
Proof.
  intros Hf. destruct (run_pop_main n w Hf) as (w' & Hrun & Hq & _).
  now exists w'.
Qed.

Lemma X22_pops_follow_the_queue_order_witness :
  exists w',
    pop_main 2 (world Examples.capped)
    = (Ok (take 2 (main_queue (world Examples.capped))), w') /\
    main_queue w' = drop 2 (main_queue (world Examples.capped)).
Proof.
  apply (X22_pops_follow_the_queue_order 2 (world Examples.capped)).
  reflexivity.
Defined.

(** ** X23: what [enqueueBatch] has done when it returns *)

(** X23. Under any fault plan, when [enqueueBatch] returns (rather than
    throws), it returns the number of records it was given, it has
    appended one task per record to the main queue, in the order of the
    records, each with a task id and a retry count of 0, every record it
    was given is [queued] (if it exists in the store), the evaluations
    are untouched, and the batch is [processing] with a progress object
    whose [total] and [queued] are that number. *)
Theorem X23_enqueueBatch_returns_after_queueing_every_record
    (w w' : World) (batchId : string) (responses : list (string * Response)) (n : Z) :
  taskEnqueue.enqueueBatch batchId responses w = (Ok n, w') ->
  n = Z.of_nat (length responses) /\
  (exists ts,
     main_queue w' = (main_queue w ++ ts)%list /\
     map mt_response_id ts = map fst responses /\
     Forall (fun t => mt_retry_count t = Some 0 /\ truthy (mt_task_id t) = true) ts) /\
  (forall id, id ∈ map fst responses ->
     status_of w' id = (fun _ => queued) <$> status_of w id) /\
  evaluations (store w') = evaluations (store w) /\
  (forall b, batches (store w) !! batchId = Some b ->
     exists b',
       batches (store w') !! batchId = Some b' /\
       bt_status b' = BProcessing /\
       bt_progress b' = Some (enqueued_progress n n)).
Proof.
  intros H. apply enqueueBatch_inv in H as (w1 & fs & Hloop & ->).
  apply enqueue_tasks_inv in Hloop as (Hn & (ts & Hts & Hids & Hall) & Hb & He & Hst).
  rewrite length_map in Hn. rewrite task_of_response_ids in Hids, Hst.
  assert (Hn' : n = Z.of_nat (length responses)) by lia.
  split; [exact Hn'|].
  split; [exists ts; now repeat split|].
  split.
  { intros id Hid. specialize (Hst id).
    rewrite bool_decide_eq_true_2 in Hst by exact Hid. exact Hst. }
  split; [exact He|].
  intros b Hbatch. eexists. split.
  { unfold dbClient.set_batch_status. cbn. rewrite lookup_alter_eq, Hb, Hbatch.
    reflexivity. }
  split; [reflexivity|]. cbn. unfold enqueued_progress. now rewrite <- Hn'.
Qed.

Lemma X23_enqueueBatch_returns_after_queueing_every_record_witness :
  2 = Z.of_nat (length Examples.two_records) /\
  (exists ts,
      main_queue (Examples.enqueued Examples.two_records 1)
      = (main_queue (Examples.world_with Examples.two_records 1) ++ ts)%list /\
      map mt_response_id ts = map fst Examples.two_records /\
      Forall (fun t => mt_retry_count t = Some 0 /\ truthy (mt_task_id t) = true) ts) /\
   (forall id, id ∈ map fst Examples.two_records ->
      status_of (Examples.enqueued Examples.two_records 1) id
      = (fun _ => queued) <$> status_of (Examples.world_with Examples.two_records 1) id) /\
   evaluations (store (Examples.enqueued Examples.two_records 1))
   = evaluations (store (Examples.world_with Examples.two_records 1)) /\
   (forall b, batches (store (Examples.world_with Examples.two_records 1)) !! "b1" = Some b ->
      exists b',
        batches (store (Examples.enqueued Examples.two_records 1)) !! "b1" = Some b' /\
        bt_status b' = BProcessing /\
        bt_progress b' = Some (enqueued_progress 2 2)).
Proof.
  apply (X23_enqueueBatch_returns_after_queueing_every_record
           (Examples.world_with Examples.two_records 1)
           (Examples.enqueued Examples.two_records 1) "b1" Examples.two_records 2).
  vm_compute; reflexivity.
Defined.

(** ** X24: records are dispatched in the order of the upload *)

(** X24. When the broker and the store answer and the main queue is
    empty, [enqueueBatch] returns, and the pops of the dispatch loop that
    follow hand out one task per record of the batch, in the order in
    which the records were given to [enqueueBatch], and empty the queue
    again. *)
Theorem X24_dispatch_order_is_upload_order
    (w : World) (batchId : string) (responses : list (string * Response)) :
  faults w = [] ->
  main_queue w = [] ->
  exists w1 ts w2,
    taskEnqueue.enqueueBatch batchId responses w = (Ok (Z.of_nat (length responses)), w1) /\
    pop_main (length responses) w1 = (Ok ts, w2) /\
    map mt_response_id ts = map fst responses /\
    main_queue w2 = [].
Proof.
  intros Hf Hq.
  destruct (enqueue_tasks_returns
              (map (fun r => taskEnqueue.task_of (fst r) (snd r) batchId "" (clock w))
                 responses) 0 w Hf) as (c & w0 & Hloop & Hf0).
  set (w1 := dbClient.set_batch_status batchId BProcessing
               (Some [(PTotal, Z.of_nat (length responses)); (PStatus queued, c);
                      (PStatus processing, 0); (PStatus completed, 0);
                      (PStatus failed, 0)]) w0).
  assert (Hrun : taskEnqueue.enqueueBatch batchId responses w = (Ok c, w1)).
  { unfold taskEnqueue.enqueueBatch. apply try_catch_ok.
    await_ok ltac:(reflexivity). await_ok ltac:(exact Hloop).
    await_ok ltac:(now apply run_updateBatchStatus). reflexivity. }
  pose proof Hrun as Hinv.
  apply enqueueBatch_queue in Hinv.
  destruct Hinv as (Hc & ts & Hts & Hids).
  rewrite Hq in Hts. cbn [app] in Hts.
  destruct (run_pop_main (length responses) w1 Hf0) as (w2 & Hpop & Hrest & _).
  assert (Hlen : length ts = length responses).
  { rewrite <- (length_map mt_response_id ts), Hids. apply length_map. }
  rewrite Hts in Hpop, Hrest.
  replace (take (length responses) ts) with ts in Hpop
    by (rewrite <- Hlen; symmetry; apply firstn_all).
  replace (drop (length responses) ts) with (@nil MainTask) in Hrest
    by (rewrite <- Hlen; symmetry; apply drop_all).
  exists w1, ts, w2. rewrite <- Hc. now repeat split.
Qed.

Lemma X24_dispatch_order_is_upload_order_witness :
  exists w1 ts w2,
    taskEnqueue.enqueueBatch "b1" Examples.two_records
      (Examples.world_with Examples.two_records 1)
    = (Ok (Z.of_nat (length Examples.two_records)), w1) /\
    pop_main (length Examples.two_records) w1 = (Ok ts, w2) /\
    map mt_response_id ts = map fst Examples.two_records /\
    main_queue w2 = [].
Proof.
  apply (X24_dispatch_order_is_upload_order (Examples.world_with Examples.two_records 1)
           "b1" Examples.two_records).
  - reflexivity.
  - vm_compute; reflexivity.
Defined.

(** ** X25: a dispatch that loses its task *)

(** X25. When three calls in a row fail, the status write at the start of
    the dispatch, the push of the requeue, and the write that would mark
    the record [failed], [processMainTask] throws. Its [finally] block
    still restores the dispatch counter, but the task, which the loop had
    already popped, is neither back on the main queue nor in the
    in-flight table, and the store is untouched: the record keeps the
    status it had. *)
Theorem X25_three_failures_lose_the_task (w : World) (t : MainTask) (fs : list bool) :
  faults w = true :: true :: true :: fs ->
  truthy (mt_task_id t) = true ->
  default 0 (mt_retry_count t) + 1 <= MAX_RETRIES w ->
  exists w',
    masterOrchestrator.processMainTask t w = (Throw IoError, w') /\
    main_queue w' = main_queue w /\
    store w' = store w /\
    activeTasks (this w') = activeTasks (this w) /\
    runningTasks (this w') = runningTasks (this w) /\
    faults w' = fs.
Proof.
  intros Hf Hid Hmax.
  set (w1 := masterOrchestrator.runningTasks_incr w).
  set (w2 := with_faults fs (with_faults (true :: fs) (with_faults (true :: true :: fs) w1))).
  assert (Htry : masterOrchestrator.processMainTask_try t w1 = (Throw IoError, w2)).
  { unfold masterOrchestrator.processMainTask_try. cbv zeta.
    erewrite try_catch_throw.
    2:{ eapply bind_throw_then; [reflexivity|]. eapply bind_throw.
        unfold redisClient.setWorkerStatus. apply io_fault. exact Hf. }
    eapply bind_throw. unfold masterOrchestrator.handleTaskFailure.
    erewrite try_catch_throw.
    2:{ eapply bind_throw. unfold redisClient.requeueMainTask.
        await_ok ltac:(reflexivity). cbv zeta. await_ok ltac:(reflexivity).
        change (default 0 (mt_retry_count (redisClient.updatedTask t ?c)))
          with (default 0 (mt_retry_count t) + 1).
        replace (Z.leb _ _) with true by (symmetry; apply Z.leb_le; exact Hmax).
        eapply bind_throw. unfold redisClient.addMainTask.
        change (mt_task_id (redisClient.updatedTask t ?c)) with (mt_task_id t).
        rewrite Hid.
        await_ok ltac:(reflexivity). await_ok ltac:(reflexivity).
        unfold redisClient.pushToQueue. apply io_fault. reflexivity. }
    unfold dbClient.updateResponseStatus. apply io_fault. reflexivity. }
  exists (masterOrchestrator.runningTasks_decr w2).
  split.
  { unfold masterOrchestrator.processMainTask.
    eapply bind_ok_then; [reflexivity|]. fold w1.
    unfold try_finally. rewrite Htry. reflexivity. }
  split; [reflexivity|]. split; [reflexivity|]. split; [reflexivity|].
  split; [cbn; lia | reflexivity].
Qed.

Lemma X25_three_failures_lose_the_task_witness :
  exists w',
    masterOrchestrator.processMainTask (Examples.retried_task 0)
      (with_faults [true; true; true] (Examples.world_with Examples.one_record 10))
    = (Throw IoError, w') /\
    main_queue w'
    = main_queue (with_faults [true; true; true] (Examples.world_with Examples.one_record 10)) /\
    store w'
    = store (with_faults [true; true; true] (Examples.world_with Examples.one_record 10)) /\
    activeTasks (this w')
    = activeTasks
        (this (with_faults [true; true; true] (Examples.world_with Examples.one_record 10))) /\
    runningTasks (this w')
    = runningTasks
        (this (with_faults [true; true; true] (Examples.world_with Examples.one_record 10))) /\
    faults w' = [].
Proof.
  apply (X25_three_failures_lose_the_task
           (with_faults [true; true; true] (Examples.world_with Examples.one_record 10))
           (Examples.retried_task 0) []).
  - reflexivity.
  - reflexivity.
  - vm_compute; discriminate.
Defined.

(** ** X26: [enqueueBatch] does not roll back *)

(** X26. When exactly one call to the broker or the store fails during
    [enqueueBatch], the call number [k] (counted from 0), then
    [enqueueBatch] rethrows the failure and marks the batch [failed],
    keeping its progress object; but the tasks it had pushed before the
    failure, one for every two calls that were made, stay on the main
    queue, where the dispatch loop will find them. *)
Theorem X26_enqueueBatch_does_not_roll_back
    (w : World) (batchId : string) (responses : list (string * Response)) (k : nat) :
  (k <= 2 * length responses)%nat ->
  faults w = (replicate k false ++ [true])%list ->
  exists w',
    taskEnqueue.enqueueBatch batchId responses w = (Throw IoError, w') /\
    length (main_queue w') = (length (main_queue w) + (k + 1) / 2)%nat /\
    (forall b, batches (store w) !! batchId = Some b ->
       batches (store w') !! batchId = Some (mkBatch BFailed (bt_progress b) (clock w))).
Proof.
  intros Hk Hf.
  set (tasks := map (fun r => taskEnqueue.task_of (fst r) (snd r) batchId "" (clock w))
                  responses).
  destruct (enqueue_tasks_one_fault tasks k 0 w Hf) as (r & w1 & Hloop & Hb & Hc & Hcase).
  assert (Hlen : length tasks = length responses) by apply length_map.
  rewrite Hlen in Hcase.
  assert (Hbody : exists w2,
            (await now <- Date_now;
             let tasks := map (fun r => taskEnqueue.task_of (fst r) (snd r) batchId "" now)
                            responses in
             await enqueuedCount <- taskEnqueue.enqueue_tasks tasks 0;
             await _ <- dbClient.updateBatchStatus batchId BProcessing
               (Some [(PTotal, Z.of_nat (length responses));
                      (PStatus queued, enqueuedCount);
                      (PStatus processing, 0);
                      (PStatus completed, 0);
                      (PStatus failed, 0)]);
             ret enqueuedCount) w = (Throw IoError, w2) /\
            faults w2 = [] /\
            length (main_queue w2) = (length (main_queue w) + (k + 1) / 2)%nat /\
            batches (store w2) = batches (store w) /\
            clock w2 = clock w).
  { destruct (decide (k < 2 * length responses)%nat) as [Hlt|Hge].
    - destruct Hcase as (-> & Hf1 & Hq). exists w1. split; [|now repeat split].
      eapply bind_throw_then; [reflexivity|]. cbv zeta. fold tasks.
      eapply bind_throw. exact Hloop.
    - destruct Hcase as (-> & Hf1 & Hq).
      replace (k - 2 * length responses)%nat with 0%nat in Hf1 by lia.
      exists (with_faults [] w1). split; [|repeat split].
      + eapply bind_throw_then; [reflexivity|]. cbv zeta. fold tasks.
        eapply bind_throw_then; [exact Hloop|]. eapply bind_throw.
        unfold dbClient.updateBatchStatus. apply io_fault. exact Hf1.
      + change (main_queue (with_faults [] w1)) with (main_queue w1). rewrite Hq.
        replace k with (2 * length responses)%nat by lia.
        replace (2 * length responses + 1)%nat
          with (1 + length responses * 2)%nat by lia.
        rewrite Nat.div_add by lia. cbn. lia.
      + exact Hb.
      + exact Hc. }
  destruct Hbody as (w2 & Hthrow & Hf2 & Hq2 & Hb2 & Hc2).
  exists (dbClient.set_batch_status batchId BFailed None w2).
  split.
  { unfold taskEnqueue.enqueueBatch. erewrite try_catch_throw by exact Hthrow.
    eapply bind_throw_then; [now apply run_updateBatchStatus | reflexivity]. }
  split; [exact Hq2|].
  intros b Hbatch. unfold dbClient.set_batch_status. cbn.
  now rewrite lookup_alter_eq, Hb2, Hbatch, Hc2.
Qed.

Lemma X26_enqueueBatch_does_not_roll_back_witness :
  exists w',
    taskEnqueue.enqueueBatch "b1" Examples.two_records
      (with_faults (replicate 2 false ++ [true])%list
         (Examples.world_with Examples.two_records 1))
    = (Throw IoError, w') /\
    length (main_queue w')
    = (length (main_queue (with_faults (replicate 2 false ++ [true])%list
                             (Examples.world_with Examples.two_records 1)))
       + (2 + 1) / 2)%nat /\
    (forall b,
       batches (store (with_faults (replicate 2 false ++ [true])%list
                         (Examples.world_with Examples.two_records 1))) !! "b1" = Some b ->
       batches (store w') !! "b1"
       = Some (mkBatch BFailed (bt_progress b)
                 (clock (with_faults (replicate 2 false ++ [true])%list
                           (Examples.world_with Examples.two_records 1))))).
Proof.
  apply (X26_enqueueBatch_does_not_roll_back
           (with_faults (replicate 2 false ++ [true])%list
              (Examples.world_with Examples.two_records 1))
           "b1" Examples.two_records 2).
  - vm_compute. lia.
  - reflexivity.
Defined.

(** ** X27: the result that completes a task *)

(** X27. When the broker and the store answer, the result that brings the
    stored results of an in-flight task to five makes the collector
    finalise the task within the same call of [processDimensionResult]:
    one evaluation is written for the record of the task, under the id of
    the task, the record becomes [completed], and the task leaves the
    in-flight table and loses its partial results. *)
Theorem X27_the_fifth_result_finalises_the_task
    (w : World) (result : DimensionResult) (taskInfo : TaskInfo) :
  faults w = [] ->
  activeTasks (this w) !! dr_task_id result = Some taskInfo ->
  truthy (mt_response_id (ti_mainTask taskInfo)) = true ->
  has_evaluation w (mt_response_id (ti_mainTask taskInfo)) = false ->
  5 <= hLen (hSet (redisClient.hash_of w (redisClient.results_key (dr_task_id result)))
               (dr_dimension result)
               (masterOrchestrator.partial_of_result result (clock w))) ->
  exists e w',
    masterOrchestrator.processDimensionResult result w = (Ok tt, w') /\
    evaluations (store w') = (evaluations (store w) ++ [e])%list /\
    ev_response_id e = mt_response_id (ti_mainTask taskInfo) /\
    ev_task_id e = dr_task_id result /\
    status_of w' (mt_response_id (ti_mainTask taskInfo))
    = (fun _ => completed) <$> status_of w (mt_response_id (ti_mainTask taskInfo)) /\
    activeTasks (this w') !! dr_task_id result = None /\
    partial_results (broker w') !! redisClient.results_key (dr_task_id result) = None.
Proof.
  intros Hf Hti Hrid Hnew Hlen.
  set (p := masterOrchestrator.partial_of_result result (clock w)) in *.
  set (key := redisClient.results_key (dr_task_id result)) in *.
  set (w1 := redisClient.hSet_results key (dr_dimension result) p w).
  set (ti' := masterOrchestrator.add_completed (dr_dimension result) taskInfo).
  set (w2 := masterOrchestrator.put_task (dr_task_id result) ti' w1).
  assert (Hh : redisClient.hash_of w2 key
               = hSet (redisClient.hash_of w key) (dr_dimension result) p)
    by apply hash_of_hSet_results.
  assert (Hres : resolved_response_id (Some ti') (redisClient.hash_of w2 key)
                 = mt_response_id (ti_mainTask taskInfo))
    by (rewrite resolved_known by exact Hrid; reflexivity).
  assert (Hfin : masterOrchestrator.finalizeTaskWithInfo (dr_task_id result) (Some ti') w2
                 = (Ok tt, finalized (dr_task_id result) (Some ti') w2)).
  { apply finalize_writes.
    - exact Hf.
    - fold key. rewrite Hh. exact Hlen.
    - fold key. rewrite Hres. exact Hrid.
    - fold key. rewrite Hres. exact Hnew. }
  exists (evaluation_of (dr_task_id result) (Some ti') w2),
         (finalized (dr_task_id result) (Some ti') w2).
  split.
  { unfold masterOrchestrator.processDimensionResult. cbv zeta.
    apply try_catch_ok. await_ok ltac:(reflexivity).
    await_ok ltac:(apply run_setPartialResult; exact Hf).
    await_ok ltac:(reflexivity). fold key p w1.
    change (this w1) with (this w). rewrite Hti.
    await_ok ltac:(reflexivity). fold ti' w2.
    change (redisClient.hash_of w1 key) with (redisClient.hash_of w2 key). rewrite Hh.
    replace (Z.leb _ _) with true by (symmetry; apply Z.leb_le; exact Hlen).
    unfold masterOrchestrator.finalizeTask.
    await_ok ltac:(reflexivity).
    replace (activeTasks (this w2) !! dr_task_id result) with (Some ti')
      by (symmetry; apply lookup_insert_eq).
    exact Hfin. }
  split; [reflexivity|].
  split; [cbn [evaluation_of ev_response_id]; fold key; exact Hres|].
  split; [reflexivity|].
  split.
  { rewrite <- Hres. fold key. unfold key. rewrite finalized_status. reflexivity. }
  split; [apply finalized_active|].
  unfold finalized, redisClient.del_results. cbn. apply lookup_delete_eq.
Qed.

Lemma X27_the_fifth_result_finalises_the_task_witness :
  exists e w',
    masterOrchestrator.processDimensionResult Scenarios.fifth_result Scenarios.before_fifth
    = (Ok tt, w') /\
    evaluations (store w') = (evaluations (store Scenarios.before_fifth) ++ [e])%list /\
    ev_response_id e = mt_response_id (ti_mainTask Scenarios.fifth_info) /\
    ev_task_id e = dr_task_id Scenarios.fifth_result /\
    status_of w' (mt_response_id (ti_mainTask Scenarios.fifth_info))
    = (fun _ => completed)
        <$> status_of Scenarios.before_fifth
              (mt_response_id (ti_mainTask Scenarios.fifth_info)) /\
    activeTasks (this w') !! dr_task_id Scenarios.fifth_result = None /\
    partial_results (broker w') !! redisClient.results_key (dr_task_id Scenarios.fifth_result)
    = None.
Proof.
  apply (X27_the_fifth_result_finalises_the_task Scenarios.before_fifth
           Scenarios.fifth_result Scenarios.fifth_info).
  - reflexivity.
  - vm_compute; reflexivity.
  - vm_compute; reflexivity.
  - vm_compute; reflexivity.
  - vm_compute; discriminate.
Defined.

(** ** X28: the weights of the configuration *)

(** X28. The default weights of the five dimensions add up to 1: when a
    result is stored for each of the five dimensions, the division by the
    total weight in [finalizeTaskWithInfo] changes nothing and the final
    score is the plain weighted sum of the five stored scores. *)
Theorem X28_five_results_need_no_normalisation (h : Hash) :
  (forall d, d ∈ config.DIMENSIONS -> has_result h d = true) ->
  (Qsum (map masterOrchestrator.weight_of config.DIMENSIONS) == 1)%Q /\
  (masterOrchestrator.normalize (masterOrchestrator.aggregate h)
   == Qsum (map (fun d => stored_score h d * masterOrchestrator.weight_of d)
              config.DIMENSIONS))%Q.
Proof.
  intros Hall. split; [apply Qsum_all_weights|].
  assert (Hfilter : List.filter (has_result h) config.DIMENSIONS = config.DIMENSIONS)
    by now apply filter_all_true.
  rewrite normalize_aggregate by (rewrite Hfilter; discriminate).
  unfold present_final_score, weighted_mean. cbv zeta. rewrite Hfilter.
  rewrite Qsum_all_weights. unfold Qdiv. change (/ 1)%Q with 1%Q. apply Qmult_1_r.
Qed.

Lemma X28_five_results_need_no_normalisation_witness :
  (Qsum (map masterOrchestrator.weight_of config.DIMENSIONS) == 1)%Q /\
  (masterOrchestrator.normalize (masterOrchestrator.aggregate Examples.mixed_hash)
   == Qsum (map (fun d => stored_score Examples.mixed_hash d * masterOrchestrator.weight_of d)
              config.DIMENSIONS))%Q.
Proof.
  apply (X28_five_results_need_no_normalisation Examples.mixed_hash).
  intros d Hd. unfold config.DIMENSIONS in Hd.
  repeat (apply elem_of_cons in Hd; destruct Hd as [->|Hd]; [vm_compute; reflexivity|]).
  now apply elem_of_nil in Hd.
Defined.

(** ** X29: a result that does not complete the task *)

(** X29. When the broker answers and the stored results of the task,
    with this one, number fewer than five, [processDimensionResult] only
    stores the result, replacing an earlier result of the same dimension:
    the store is untouched, so no evaluation is written and no status
    changes. If the task is in flight, its entry keeps its task and its
    start time and has the dimension among its completed dimensions,
    without repetition; if it is not, the in-flight table is as before. *)
Theorem X29_incomplete_task_is_only_recorded (w : World) (result : DimensionResult) :
  faults w = [] ->
  hLen (hSet (redisClient.hash_of w (redisClient.results_key (dr_task_id result)))
          (dr_dimension result)
          (masterOrchestrator.partial_of_result result (clock w))) < 5 ->
  exists w',
    masterOrchestrator.processDimensionResult result w = (Ok tt, w') /\
    store w' = store w /\
    redisClient.hash_of w' (redisClient.results_key (dr_task_id result))
    = hSet (redisClient.hash_of w (redisClient.results_key (dr_task_id result)))
        (dr_dimension result) (masterOrchestrator.partial_of_result result (clock w)) /\
    match activeTasks (this w) !! dr_task_id result with
    | Some taskInfo =>
        exists taskInfo',
          activeTasks (this w') !! dr_task_id result = Some taskInfo' /\
          ti_mainTask taskInfo' = ti_mainTask taskInfo /\
          ti_startTime taskInfo' = ti_startTime taskInfo /\
          dr_dimension result ∈ ti_completedDimensions taskInfo' /\
          (NoDup (ti_completedDimensions taskInfo) ->
           NoDup (ti_completedDimensions taskInfo'))
    | None => activeTasks (this w') = activeTasks (this w)
    end.
Proof.
  intros Hf Hlen.
  set (p := masterOrchestrator.partial_of_result result (clock w)) in *.
  set (key := redisClient.results_key (dr_task_id result)) in *.
  set (w1 := redisClient.hSet_results key (dr_dimension result) p w).
  assert (Hh : redisClient.hash_of w1 key
               = hSet (redisClient.hash_of w key) (dr_dimension result) p)
    by apply hash_of_hSet_results.
  unfold masterOrchestrator.processDimensionResult. cbv zeta.
  destruct (activeTasks (this w) !! dr_task_id result) as [ti|] eqn:Hti.
  - exists (masterOrchestrator.put_task (dr_task_id result)
              (masterOrchestrator.add_completed (dr_dimension result) ti) w1).
    split.
    { apply try_catch_ok. await_ok ltac:(reflexivity).
      await_ok ltac:(apply run_setPartialResult; exact Hf).
      await_ok ltac:(reflexivity). fold key p w1.
      change (this w1) with (this w). rewrite Hti.
      await_ok ltac:(reflexivity).
      rewrite Hh. replace (Z.leb _ _) with false
        by (symmetry; apply Z.leb_gt; exact Hlen).
      reflexivity. }
    split; [reflexivity|]. split; [exact Hh|].
    eexists. split; [apply lookup_insert_eq|].
    split; [reflexivity|]. split; [reflexivity|].
    unfold masterOrchestrator.add_completed. cbn [ti_completedDimensions].
    case_bool_decide as Hin.
    + split; [exact Hin | tauto].
    + split; [apply elem_of_app; right; now left|].
      intros Hnd. apply NoDup_app. split; [exact Hnd|].
      split; [|apply NoDup_singleton].
      intros x Hx Hx'. apply list_elem_of_singleton in Hx'. now subst x.
  - exists w1. split.
    { apply try_catch_ok. await_ok ltac:(reflexivity).
      await_ok ltac:(apply run_setPartialResult; exact Hf).
      await_ok ltac:(reflexivity). fold key p w1.
      change (this w1) with (this w). rewrite Hti.
      rewrite Hh. replace (Z.leb _ _) with false
        by (symmetry; apply Z.leb_gt; exact Hlen).
      reflexivity. }
    split; [reflexivity|]. split; [exact Hh | reflexivity].
Qed.

Lemma X29_incomplete_task_is_only_recorded_witness :
  exists w',
    masterOrchestrator.processDimensionResult Examples.raw_result
      (world Examples.dispatched_one) = (Ok tt, w') /\
    store w' = store (world Examples.dispatched_one) /\
    redisClient.hash_of w' (redisClient.results_key (dr_task_id Examples.raw_result))
    = hSet (redisClient.hash_of (world Examples.dispatched_one)
              (redisClient.results_key (dr_task_id Examples.raw_result)))
        (dr_dimension Examples.raw_result)
        (masterOrchestrator.partial_of_result Examples.raw_result
           (clock (world Examples.dispatched_one))) /\
    match activeTasks (this (world Examples.dispatched_one))
            !! dr_task_id Examples.raw_result with
    | Some taskInfo =>
        exists taskInfo',
          activeTasks (this w') !! dr_task_id Examples.raw_result = Some taskInfo' /\
          ti_mainTask taskInfo' = ti_mainTask taskInfo /\
          ti_startTime taskInfo' = ti_startTime taskInfo /\
          dr_dimension Examples.raw_result ∈ ti_completedDimensions taskInfo' /\
          (NoDup (ti_completedDimensions taskInfo) ->
           NoDup (ti_completedDimensions taskInfo'))
    | None => activeTasks (this w') = activeTasks (this (world Examples.dispatched_one))
    end.
Proof.
  apply (X29_incomplete_task_is_only_recorded (world Examples.dispatched_one)
           Examples.raw_result).
  - reflexivity.
  - vm_compute; reflexivity.
Defined.

(** ** X30: what the facade puts on the legacy queue *)

(** X30. When the broker and the store answer and the retry ceiling is
    at least 1, the task that [requeueFailedResponse] pushes is the one
    that [getTask] hands out from an otherwise empty legacy queue: it
    names the record and its batch, carries the reason of the retry and a
    retry count of 1, and has no task id. *)
Theorem X30_getTask_hands_out_what_the_facade_requeued
    (w : World) (responseId reason : string) (r : Response) :
  faults w = [] ->
  responses (store w) !! responseId = Some r ->
  1 <= MAX_RETRIES w ->
  legacy_queue w = [] ->
  exists w1 t w2,
    taskEnqueue.requeueFailedResponse responseId reason w
    = (Ok (mkRequeueReply true ""), w1) /\
    redisClient.getTask 5 w1 = (Ok (Some t), w2) /\
    mt_response_id t = responseId /\
    mt_batch_id t = rs_batch_id r /\
    mt_retry_reason t = reason /\
    mt_retry_count t = Some 1 /\
    mt_task_id t = "" /\
    legacy_queue w2 = [].
Proof.
  intros Hf Hr Hmax Hq.
  set (t := redisClient.updatedTask
              (taskEnqueue.task_of responseId r (rs_batch_id r) reason (clock w)) (clock w)).
  set (w1 := dbClient.set_response_status responseId queued
               (redisClient.rPush config.TASK_QUEUE_NAME t w)).
  assert (Hq1 : legacy_queue w1 = [t]).
  { unfold w1.
    change (legacy_queue (dbClient.set_response_status responseId queued ?x))
      with (legacy_queue x).
    now rewrite legacy_queue_rPush, Hq. }
  exists w1, t. eexists.
  split; [now apply requeueFailedResponse_always_queues|].
  split.
  { rewrite run_getTask by exact Hf. rewrite Hq1. reflexivity. }
  do 5 (split; [reflexivity|]).
  unfold legacy_queue, redisClient.list_of. cbn. now rewrite lookup_insert_eq.
Qed.

Lemma X30_getTask_hands_out_what_the_facade_requeued_witness :
  exists w1 t w2,
    taskEnqueue.requeueFailedResponse "r1" "manual_retry"
      (Examples.world_with Examples.one_record 10)
    = (Ok (mkRequeueReply true ""), w1) /\
    redisClient.getTask 5 w1 = (Ok (Some t), w2) /\
    mt_response_id t = "r1" /\
    mt_batch_id t = rs_batch_id (Examples.response "b1" "a1") /\
    mt_retry_reason t = "manual_retry" /\
    mt_retry_count t = Some 1 /\
    mt_task_id t = "" /\
    legacy_queue w2 = [].
Proof.
  apply (X30_getTask_hands_out_what_the_facade_requeued
           (Examples.world_with Examples.one_record 10) "r1" "manual_retry"
           (Examples.response "b1" "a1")).
  - reflexivity.
  - vm_compute; reflexivity.
  - vm_compute; discriminate.
  - vm_compute; reflexivity.
Defined.
